(** * Thread Weaver: the editing core

    A shallow embedding of the modal editing engine of
    [internal/editor] (buffer.go, selection.go, mode.go, editor.go) and
    the properties of its buffer primitives, its cursor clamping, its
    mode switch and its ex-style command line.

    Conventions of the embedding:
    - Go's [int] is [Z]; the arithmetic the source does on operands it
      has not bounded (the sums of [MoveCursor], the column before the
      cursor in [MoveWordBackward]) is wrapped to 64 bits, every other
      sum or difference is guarded by a test against a length or
      against zero in the source.
    - a Go [string] is its sequence of bytes, [list ascii]; [len] and
      slicing count bytes, as in Go.
    - an index or slice expression out of range is a run-time panic:
      fallible code lives in the [outcome] monad.
    - the [*Buffer] of an [Editor] is owned by that editor alone, so the
      buffer is a field of the editor record and mutation is state
      passing.
    - [os.ReadFile] and [os.WriteFile] are the environment: their
      results are arguments of [LoadFile] and [SaveFile]. *)

From Stdlib Require Import ZArith Ascii String Bool Lia.
From stdpp Require Import base tactics list strings.

Local Open Scope Z_scope.

(** ** Run-time panics *)

Inductive outcome (A : Type) : Type :=
| Done (a : A)
| Panic.
Arguments Done {A} a.
Arguments Panic {A}.

Definition bind {A B} (m : outcome A) (k : A -> outcome B) : outcome B :=
  match m with
  | Done a => k a
  | Panic => Panic
  end.

Notation "x <- m ;; k" := (bind m (fun x => k))
  (at level 62, m at next level, right associativity).

(** ** Slices and strings of the Go run time *)

Module Go.

Abbreviation gostring := (list ascii).
Abbreviation rune := Z.

Definition str (s : string) : gostring := list_ascii_of_string s.

Definition byteval (c : ascii) : Z := Z.of_N (N_of_ascii c).
Definition byte_of (z : Z) : ascii := ascii_of_N (Z.to_N (z mod 256)).

Definition LF : ascii := byte_of 10.
Definition CR : ascii := byte_of 13.

Definition len {A} (l : list A) : Z := Z.of_nat (length l).

(** [l[i]] *)
Definition index {A} (l : list A) (i : Z) : outcome A :=
  if (0 <=? i) && (i <? len l) then
    match l !! Z.to_nat i with
    | Some x => Done x
    | None => Panic
    end
  else Panic.

(** [l[lo:hi]] *)
Definition slice {A} (l : list A) (lo hi : Z) : outcome (list A) :=
  if (0 <=? lo) && (lo <=? hi) && (hi <=? len l)
  then Done (take (Z.to_nat (hi - lo)) (drop (Z.to_nat lo) l))
  else Panic.

(** [l[:hi]] and [l[lo:]] *)
Definition slice_to {A} (l : list A) (hi : Z) : outcome (list A) := slice l 0 hi.
Definition slice_from {A} (l : list A) (lo : Z) : outcome (list A) := slice l lo (len l).

(** [l[i] = v] *)
Definition store {A} (l : list A) (i : Z) (v : A) : outcome (list A) :=
  if (0 <=? i) && (i <? len l) then Done (<[Z.to_nat i := v]> l) else Panic.

Definition string_eqb (a b : gostring) : bool := bool_decide (a = b).

Fixpoint has_prefix (p s : gostring) : bool :=
  match p, s with
  | [], _ => true
  | _ :: _, [] => false
  | a :: p', b :: s' => Ascii.eqb a b && has_prefix p' s'
  end.

(** [strings.Join] *)
Fixpoint Join (elems : list gostring) (sep : gostring) : gostring :=
  match elems with
  | [] => []
  | [x] => x
  | x :: rest => x ++ sep ++ Join rest sep
  end.

(** [strings.Split(s, sep)] for a non-empty [sep]: cut at each
    occurrence of [sep], found left to right.  [skip] counts the bytes
    of a matched separator still to pass over, [cur] is the piece being
    collected. *)
Fixpoint split_from (sep s : gostring) (skip : nat) (cur : gostring) : list gostring :=
  match s with
  | [] => [cur]
  | c :: s' =>
      match skip with
      | S k => split_from sep s' k cur
      | O => if has_prefix sep s
             then cur :: split_from sep s' (length sep - 1)%nat []
             else split_from sep s' O (cur ++ [c])
      end
  end.

Definition Split (s sep : gostring) : list gostring := split_from sep s O [].

(** [strings.ReplaceAll(s, old, new)] for a non-empty [old]. *)
Fixpoint replace_from (old new s : gostring) (skip : nat) : gostring :=
  match s with
  | [] => []
  | c :: s' =>
      match skip with
      | S k => replace_from old new s' k
      | O => if has_prefix old s
             then new ++ replace_from old new s' (length old - 1)%nat
             else c :: replace_from old new s' O
      end
  end.

Definition ReplaceAll (s old new : gostring) : gostring := replace_from old new s O.

(** *** UTF-8 ([unicode/utf8]) *)

Definition RuneError : rune := 0xFFFD.
Definition MaxRune : rune := 0x10FFFF.

(** [string(r)] for a rune [r], that is [utf8.EncodeRune]. *)
Definition EncodeRune (r : rune) : gostring :=
  if (0 <=? r) && (r <=? 0x7F) then [byte_of r]
  else if (0 <=? r) && (r <=? 0x7FF) then
    [byte_of (Z.lor 0xC0 (Z.shiftr r 6));
     byte_of (Z.lor 0x80 (Z.land r 0x3F))]
  else
    let r3 := if (r <? 0) || (MaxRune <? r) || ((0xD800 <=? r) && (r <=? 0xDFFF))
              then Some RuneError
              else if r <=? 0xFFFF then Some r else None in
    match r3 with
    | Some r =>
        [byte_of (Z.lor 0xE0 (Z.shiftr r 12));
         byte_of (Z.lor 0x80 (Z.land (Z.shiftr r 6) 0x3F));
         byte_of (Z.lor 0x80 (Z.land r 0x3F))]
    | None =>
        [byte_of (Z.lor 0xF0 (Z.shiftr r 18));
         byte_of (Z.lor 0x80 (Z.land (Z.shiftr r 12) 0x3F));
         byte_of (Z.lor 0x80 (Z.land (Z.shiftr r 6) 0x3F));
         byte_of (Z.lor 0x80 (Z.land r 0x3F))]
    end.

(** The table [first] of the decoder: for a leading byte, the length of
    the sequence and the range accepted for its second byte. *)
Definition first (b0 : Z) : option (Z * (Z * Z)) :=
  if (0xC2 <=? b0) && (b0 <=? 0xDF) then Some (2, (0x80, 0xBF))
  else if b0 =? 0xE0 then Some (3, (0xA0, 0xBF))
  else if b0 =? 0xED then Some (3, (0x80, 0x9F))
  else if (0xE1 <=? b0) && (b0 <=? 0xEF) then Some (3, (0x80, 0xBF))
  else if b0 =? 0xF0 then Some (4, (0x90, 0xBF))
  else if (0xF1 <=? b0) && (b0 <=? 0xF3) then Some (4, (0x80, 0xBF))
  else if b0 =? 0xF4 then Some (4, (0x80, 0x8F))
  else None.

Definition between (lo hi b : Z) : bool := (lo <=? b) && (b <=? hi).

(** [utf8.DecodeRuneInString]: the first rune of [s] and its width in
    bytes; an invalid or truncated sequence is [(RuneError, 1)]. *)
Definition DecodeRuneInString (s : gostring) : rune * Z :=
  match map byteval s with
  | [] => (RuneError, 0)
  | s0 :: rest =>
      if s0 <? 0x80 then (s0, 1)
      else
        match first s0 with
        | None => (RuneError, 1)
        | Some (sz, (lo, hi)) =>
            match rest with
            | [] => (RuneError, 1)
            | s1 :: rest1 =>
                if negb (between lo hi s1) then (RuneError, 1)
                else if sz <=? 2 then
                  (Z.lor (Z.shiftl (Z.land s0 0x1F) 6) (Z.land s1 0x3F), 2)
                else
                  match rest1 with
                  | [] => (RuneError, 1)
                  | s2 :: rest2 =>
                      if negb (between 0x80 0xBF s2) then (RuneError, 1)
                      else if sz <=? 3 then
                        (Z.lor (Z.lor (Z.shiftl (Z.land s0 0x0F) 12)
                                      (Z.shiftl (Z.land s1 0x3F) 6))
                               (Z.land s2 0x3F), 3)
                      else
                        match rest2 with
                        | [] => (RuneError, 1)
                        | s3 :: _ =>
                            if negb (between 0x80 0xBF s3) then (RuneError, 1)
                            else
                              (Z.lor (Z.lor (Z.lor (Z.shiftl (Z.land s0 0x07) 18)
                                                   (Z.shiftl (Z.land s1 0x3F) 12))
                                            (Z.shiftl (Z.land s2 0x3F) 6))
                                     (Z.land s3 0x3F), 4)
                        end
                  end
            end
        end
  end.

(** [utf8.RuneStart] *)
Definition RuneStart (b : Z) : bool := negb (Z.land b 0xC0 =? 0x80).

(** The backwards search of [DecodeLastRuneInString]: from [start],
    going down to [lim], the first index holding a start byte; one below
    [lim] when there is none. *)
Fixpoint find_start (s : gostring) (lim : Z) (n : nat) (start : Z) : Z :=
  match n with
  | O => start
  | S n' =>
      if start <? lim then start
      else match s !! Z.to_nat start with
           | Some b => if RuneStart (byteval b) then start
                       else find_start s lim n' (start - 1)
           | None => start
           end
  end.

(** [utf8.DecodeLastRuneInString] *)
Definition DecodeLastRuneInString (s : gostring) : rune * Z :=
  let e := len s in
  if e =? 0 then (RuneError, 0)
  else
    match s !! Z.to_nat (e - 1) with
    | None => (RuneError, 0)
    | Some b =>
        if byteval b <? 0x80 then (byteval b, 1)
        else
          let lim := Z.max 0 (e - 4) in
          let start := Z.max 0 (find_start s lim 4 (e - 2)) in
          let '(r, size) := DecodeRuneInString (drop (Z.to_nat start) s) in
          if negb (start + size =? e) then (RuneError, 1) else (r, size)
    end.

(** The runes a [for _, ch := range s] loop visits. *)
Fixpoint runes_from (s : gostring) (skip : nat) : list rune :=
  match s with
  | [] => []
  | _ :: s' =>
      match skip with
      | S k => runes_from s' k
      | O => let '(r, size) := DecodeRuneInString s in
             r :: runes_from s' (Z.to_nat size - 1)%nat
      end
  end.

Definition runes (s : gostring) : list rune := runes_from s O.

(** [unicode.IsSpace] *)
Definition IsSpace (r : rune) : bool :=
  if (0 <=? r) && (r <=? 0xFF) then
    between 0x09 0x0D r || (r =? 0x20) || (r =? 0x85) || (r =? 0xA0)
  else
    (r =? 0x1680) || between 0x2000 0x200A r || (r =? 0x2028) || (r =? 0x2029)
    || (r =? 0x202F) || (r =? 0x205F) || (r =? 0x3000).

(** [strings.TrimLeftFunc(s, unicode.IsSpace)] *)
Fixpoint trim_left_from (s : gostring) (skip : nat) : gostring :=
  match s with
  | [] => []
  | _ :: s' =>
      match skip with
      | S k => trim_left_from s' k
      | O => let '(r, size) := DecodeRuneInString s in
             if IsSpace r then trim_left_from s' (Z.to_nat size - 1)%nat else s
      end
  end.

(** [strings.TrimRightFunc(s, unicode.IsSpace)], on the reversed string
    [rs]: the last rune is dropped as long as it is white space. *)
Fixpoint trim_right_from (rs : gostring) (skip : nat) : gostring :=
  match rs with
  | [] => []
  | _ :: rs' =>
      match skip with
      | S k => trim_right_from rs' k
      | O => let '(r, size) := DecodeLastRuneInString (rev rs) in
             if IsSpace r then trim_right_from rs' (Z.to_nat size - 1)%nat else rs
      end
  end.

(** [strings.TrimSpace]: its ASCII fast path is an optimisation of
    trimming white-space runes from both ends. *)
Definition TrimSpace (s : gostring) : gostring :=
  rev (trim_right_from (rev (trim_left_from s O)) O).

End Go.
Import Go.


(** ** selection.go *)

Record Position : Type := mkPosition { Line : Z; Col : Z }.

Record Selection : Type := mkSelection { Anchor : Position; Head : Position }.

Definition Position_eqb (p q : Position) : bool :=
  (Line p =? Line q) && (Col p =? Col q).

Definition NewSelection (pos : Position) : Selection :=
  {| Anchor := pos; Head := pos |}.

Definition IsEmpty (s : Selection) : bool := Position_eqb (Anchor s) (Head s).

Definition Start (s : Selection) : Position :=
  if (Line (Anchor s) <? Line (Head s))
     || ((Line (Anchor s) =? Line (Head s)) && (Col (Anchor s) <? Col (Head s)))
  then Anchor s else Head s.

Definition End (s : Selection) : Position :=
  if (Line (Anchor s) >? Line (Head s))
     || ((Line (Anchor s) =? Line (Head s)) && (Col (Anchor s) >? Col (Head s)))
  then Anchor s else Head s.

Definition Contains (s : Selection) (pos : Position) : bool :=
  let start := Start s in
  let end_ := End s in
  if (Line pos <? Line start) || (Line pos >? Line end_) then false
  else if (Line pos =? Line start) && (Col pos <? Col start) then false
  else if (Line pos =? Line end_) && (Col pos >? Col end_) then false
  else true.

Definition ExtendTo (s : Selection) (pos : Position) : Selection :=
  {| Anchor := Anchor s; Head := pos |}.

Definition Collapse (s : Selection) : Selection :=
  {| Anchor := Head s; Head := Head s |}.

(** ** mode.go *)

Inductive Mode : Type := ModeNormal | ModeInsert | ModeVisual | ModeCommand.

Definition Mode_eqb (a b : Mode) : bool :=
  match a, b with
  | ModeNormal, ModeNormal | ModeInsert, ModeInsert
  | ModeVisual, ModeVisual | ModeCommand, ModeCommand => true
  | _, _ => false
  end.

Definition Mode_String (m : Mode) : gostring :=
  match m with
  | ModeNormal => str "NORMAL"
  | ModeInsert => str "INSERT"
  | ModeVisual => str "VISUAL"
  | ModeCommand => str "COMMAND"
  end.

(** ** buffer.go *)

Record Buffer : Type := mkBuffer {
  lines : list gostring;
  filename : gostring;
  dirty : bool
}.

(** The environment: what [os.ReadFile] and [os.WriteFile] answer, and
    the calls of [os.WriteFile] a command makes. *)
Inductive oserror : Type := ErrNotExist | ErrOther.
Abbreviation error := (option oserror).

Definition IsNotExist (err : oserror) : bool :=
  match err with ErrNotExist => true | ErrOther => false end.

Inductive ReadResult : Type :=
| ReadOk (content : gostring)
| ReadErr (err : oserror).

Record WriteCall : Type := mkWriteCall { w_name : gostring; w_data : gostring }.

Definition NewBuffer : Buffer :=
  {| lines := [ [] ]; filename := []; dirty := false |}.

Definition LoadFile (b : Buffer) (name : gostring) (read : ReadResult) : Buffer * error :=
  match read with
  | ReadErr err =>
      if IsNotExist err
      then ({| lines := [ [] ]; filename := name; dirty := false |}, None)
      else (b, Some err)
  | ReadOk text =>
      let ls := if string_eqb text []
                then [ [] ]
                else Split (ReplaceAll text [CR; LF] [LF]) [LF] in
      ({| lines := ls; filename := name; dirty := false |}, None)
  end.

(** [werr] is the answer of [os.WriteFile], should it be called. *)
Definition SaveFile (b : Buffer) (werr : error) : Buffer * list WriteCall * error :=
  if string_eqb (filename b) [] then (b, [], None)
  else
    let content := Join (lines b) [LF] in
    let call := {| w_name := filename b; w_data := content |} in
    match werr with
    | None => ({| lines := lines b; filename := filename b; dirty := false |}, [call], None)
    | Some _ => (b, [call], werr)
    end.

Definition LineCount (b : Buffer) : Z := len (lines b).

Definition GetLine (b : Buffer) (n : Z) : gostring :=
  if (n <? 0) || (n >=? len (lines b)) then []
  else default [] (lines b !! Z.to_nat n).

Definition touch (b : Buffer) (ls : list gostring) : Buffer :=
  {| lines := ls; filename := filename b; dirty := true |}.

Definition InsertChar (b : Buffer) (pos : Position) (ch : rune)
  : outcome (Buffer * Position) :=
  if Line pos >=? len (lines b) then Done (b, pos)
  else
    line <- index (lines b) (Line pos) ;;
    let col := if Col pos >? len line then len line else Col pos in
    before <- slice_to line col ;;
    after <- slice_from line col ;;
    ls <- store (lines b) (Line pos) (before ++ EncodeRune ch ++ after) ;;
    Done (touch b ls, {| Line := Line pos; Col := col + 1 |}).

Definition InsertNewline (b : Buffer) (pos : Position) : outcome (Buffer * Position) :=
  if Line pos >=? len (lines b) then Done (b, pos)
  else
    line <- index (lines b) (Line pos) ;;
    let col := if Col pos >? len line then len line else Col pos in
    before <- slice_to line col ;;
    after <- slice_from line col ;;
    ls <- store (lines b) (Line pos) before ;;
    upto <- slice_to ls (Line pos + 1) ;;
    rest <- slice_from ls (Line pos + 1) ;;
    Done (touch b (upto ++ [after] ++ rest), {| Line := Line pos + 1; Col := 0 |}).

Definition DeleteChar (b : Buffer) (pos : Position) : outcome (Buffer * Position) :=
  if Line pos >=? len (lines b) then Done (b, pos)
  else
    line <- index (lines b) (Line pos) ;;
    if (Col pos >? 0) && (Col pos <=? len line) then
      before <- slice_to line (Col pos - 1) ;;
      after <- slice_from line (Col pos) ;;
      ls <- store (lines b) (Line pos) (before ++ after) ;;
      Done (touch b ls, {| Line := Line pos; Col := Col pos - 1 |})
    else if (Col pos =? 0) && (Line pos >? 0) then
      prevLine <- index (lines b) (Line pos - 1) ;;
      ls <- store (lines b) (Line pos - 1) (prevLine ++ line) ;;
      upto <- slice_to ls (Line pos) ;;
      rest <- slice_from ls (Line pos + 1) ;;
      Done (touch b (upto ++ rest), {| Line := Line pos - 1; Col := len prevLine |})
    else Done (b, pos).

Definition DeleteSelection (b : Buffer) (sel : Selection) : outcome (Buffer * Position) :=
  let start := Start sel in
  let end_ := End sel in
  if Line start =? Line end_ then
    line <- index (lines b) (Line start) ;;
    before <- slice_to line (Col start) ;;
    after <- slice_from line (Col end_) ;;
    ls <- store (lines b) (Line start) (before ++ after) ;;
    Done (touch b ls, start)
  else
    l0 <- index (lines b) (Line start) ;;
    startLine <- slice_to l0 (Col start) ;;
    l1 <- index (lines b) (Line end_) ;;
    endLine <- slice_from l1 (Col end_) ;;
    ls <- store (lines b) (Line start) (startLine ++ endLine) ;;
    ls' <- (if Line end_ + 1 <? len ls then
              upto <- slice_to ls (Line start + 1) ;;
              rest <- slice_from ls (Line end_ + 1) ;;
              Done (upto ++ rest)
            else slice_to ls (Line start + 1)) ;;
    Done (touch b ls', start).

(** The body of the loop of [GetSelectedText] at line [i]: what it
    appends to the result. *)
Definition selectedPiece (b : Buffer) (start end_ : Position) (i : Z) : outcome gostring :=
  let line := GetLine b i in
  if i =? Line start then
    s <- (if Col start <? len line then slice_from line (Col start) else Done []) ;;
    Done (s ++ [LF])
  else if i =? Line end_ then
    if (Col end_ >? 0) && (Col end_ <=? len line) then slice_to line (Col end_) else Done []
  else Done (line ++ [LF]).

(** [for i := start.Line; i <= end.Line && i < len(b.lines); i++]; [n]
    bounds the number of iterations left. *)
Fixpoint selectedLoop (b : Buffer) (start end_ : Position) (n : nat) (i : Z)
    (result : gostring) : outcome gostring :=
  match n with
  | O => Done result
  | S n' =>
      if (i <=? Line end_) && (i <? len (lines b)) then
        piece <- selectedPiece b start end_ i ;;
        selectedLoop b start end_ n' (i + 1) (result ++ piece)
      else Done result
  end.

Definition GetSelectedText (b : Buffer) (sel : Selection) : outcome gostring :=
  let start := Start sel in
  let end_ := End sel in
  if Line start =? Line end_ then
    let line := GetLine b (Line start) in
    if (Col start >=? len line) || (Col end_ >? len line) then Done []
    else slice line (Col start) (Col end_)
  else
    selectedLoop b start end_ (Z.to_nat (Line end_ - Line start + 1)) (Line start) [].

Definition IsDirty (b : Buffer) : bool := dirty b.

Definition GetFilename (b : Buffer) : gostring :=
  if string_eqb (filename b) [] then str "[No Name]" else filename b.

(** ** editor.go *)

Record Editor : Type := mkEditor {
  buffer : Buffer;
  cursor : Position;
  selection : Selection;
  mode : Mode;
  command : gostring;
  clipboard : gostring
}.

Definition with_buffer (e : Editor) (b : Buffer) : Editor :=
  {| buffer := b; cursor := cursor e; selection := selection e; mode := mode e;
     command := command e; clipboard := clipboard e |}.
Definition with_cursor (e : Editor) (c : Position) : Editor :=
  {| buffer := buffer e; cursor := c; selection := selection e; mode := mode e;
     command := command e; clipboard := clipboard e |}.
Definition with_selection (e : Editor) (s : Selection) : Editor :=
  {| buffer := buffer e; cursor := cursor e; selection := s; mode := mode e;
     command := command e; clipboard := clipboard e |}.
Definition with_mode (e : Editor) (m : Mode) : Editor :=
  {| buffer := buffer e; cursor := cursor e; selection := selection e; mode := m;
     command := command e; clipboard := clipboard e |}.
Definition with_command (e : Editor) (c : gostring) : Editor :=
  {| buffer := buffer e; cursor := cursor e; selection := selection e; mode := mode e;
     command := c; clipboard := clipboard e |}.
Definition with_clipboard (e : Editor) (c : gostring) : Editor :=
  {| buffer := buffer e; cursor := cursor e; selection := selection e; mode := mode e;
     command := command e; clipboard := c |}.

Definition New : Editor :=
  {| buffer := NewBuffer;
     cursor := {| Line := 0; Col := 0 |};
     selection := NewSelection {| Line := 0; Col := 0 |};
     mode := ModeNormal;
     command := [];
     clipboard := [] |}.

Definition Editor_LoadFile (e : Editor) (name : gostring) (read : ReadResult)
  : Editor * error :=
  let '(b, err) := LoadFile (buffer e) name read in (with_buffer e b, err).

Definition Editor_SaveFile (e : Editor) (werr : error)
  : Editor * list WriteCall * error :=
  let '(b, calls, err) := SaveFile (buffer e) werr in (with_buffer e b, calls, err).

Definition GetMode (e : Editor) : Mode := mode e.

Definition SetMode (e : Editor) (m : Mode) : Editor :=
  let e := with_mode e m in
  if negb (Mode_eqb m ModeVisual) then with_selection e (NewSelection (cursor e)) else e.

Definition GetCursor (e : Editor) : Position := cursor e.
Definition GetSelection (e : Editor) : Selection := selection e.
Definition GetBuffer (e : Editor) : Buffer := buffer e.
Definition GetCommand (e : Editor) : gostring := command e.

Definition clampCursor (e : Editor) : Editor :=
  let line := Line (cursor e) in
  let line := if line <? 0 then 0 else line in
  let line := if line >=? LineCount (buffer e) then LineCount (buffer e) - 1 else line in
  let line := if line <? 0 then 0 else line in
  let lineLen := len (GetLine (buffer e) line) in
  let col := Col (cursor e) in
  let col := if Mode_eqb (mode e) ModeNormal && (lineLen >? 0)
             then (if col >=? lineLen then lineLen - 1 else col)
             else (if col >? lineLen then lineLen else col) in
  let col := if col <? 0 then 0 else col in
  with_cursor e {| Line := line; Col := col |}.

(** The tail shared by the movement commands: in Visual mode the head
    of the selection follows the cursor, otherwise the selection is the
    point at the cursor. *)
Definition trackSelection (e : Editor) : Editor :=
  if Mode_eqb (mode e) ModeVisual
  then with_selection e (ExtendTo (selection e) (cursor e))
  else with_selection e (NewSelection (cursor e)).

(** Two's-complement wrap-around of a 64-bit [int]. *)
Definition wrap64 (z : Z) : Z := (z + 2 ^ 63) mod 2 ^ 64 - 2 ^ 63.

Definition MoveCursor (e : Editor) (dLine dCol : Z) : Editor :=
  let e := with_cursor e {| Line := wrap64 (Line (cursor e) + dLine);
                            Col := wrap64 (Col (cursor e) + dCol) |} in
  trackSelection (clampCursor e).

Definition MoveCursorTo (e : Editor) (pos : Position) : Editor :=
  trackSelection (clampCursor (with_cursor e pos)).

Definition MoveToLineStart (e : Editor) : Editor :=
  trackSelection (with_cursor e {| Line := Line (cursor e); Col := 0 |}).

Definition MoveToLineEnd (e : Editor) : Editor :=
  let lineLen := len (GetLine (buffer e) (Line (cursor e))) in
  let col := if Mode_eqb (mode e) ModeNormal && (lineLen >? 0)
             then lineLen - 1 else lineLen in
  trackSelection (with_cursor e {| Line := Line (cursor e); Col := col |}).

Definition isAlphaNum (ch : ascii) : bool :=
  ((byteval ch >=? byteval "a") && (byteval ch <=? byteval "z"))
  || ((byteval ch >=? byteval "A") && (byteval ch <=? byteval "Z"))
  || ((byteval ch >=? byteval "0") && (byteval ch <=? byteval "9"))
  || (byteval ch =? byteval "_").

(** The loop of [MoveWordForward]; [rest] is [line[col:]], so that the
    loop test [col < len(line)] is [rest] being non-empty. *)
Fixpoint wordForwardLoop (rest : gostring) (col : Z) (inWord : bool) : Z :=
  match rest with
  | [] => col
  | ch :: rest' =>
      if negb inWord && isAlphaNum ch then wordForwardLoop rest' (col + 1) true
      else if inWord && negb (isAlphaNum ch) then col
      else wordForwardLoop rest' (col + 1) inWord
  end.

Definition MoveWordForward (e : Editor) : outcome Editor :=
  let line := GetLine (buffer e) (Line (cursor e)) in
  let col := Col (cursor e) in
  rest <- (if col <? len line then slice_from line col else Done []) ;;
  let col := wordForwardLoop rest col false in
  let c := if (col =? Col (cursor e)) && (Line (cursor e) <? LineCount (buffer e) - 1)
           then {| Line := Line (cursor e) + 1; Col := 0 |}
           else {| Line := Line (cursor e); Col := col |} in
  Done (trackSelection (clampCursor (with_cursor e c))).

(** [for col > 0 && line[col] == ' ' { col-- }], by recursion on [col]. *)
Fixpoint skipSpacesBack (line : gostring) (col : nat) : outcome nat :=
  match col with
  | O => Done O
  | S col' =>
      ch <- index line (Z.of_nat col) ;;
      if Ascii.eqb ch " " then skipSpacesBack line col' else Done col
  end.

(** The second loop of [MoveWordBackward], by recursion on [col]. *)
Fixpoint wordBackLoop (line : gostring) (col : nat) : outcome nat :=
  match col with
  | O => Done O
  | S col' =>
      prev <- index line (Z.of_nat col - 1) ;;
      cur <- index line (Z.of_nat col) ;;
      if negb (isAlphaNum prev) && isAlphaNum cur then Done col
      else wordBackLoop line col'
  end.

Definition MoveWordBackward (e : Editor) : outcome Editor :=
  e' <- (if Col (cursor e) =? 0 then
           if Line (cursor e) >? 0 then
             let l := Line (cursor e) - 1 in
             Done (with_cursor e {| Line := l; Col := len (GetLine (buffer e) l) |})
           else Done e
         else
           let line := GetLine (buffer e) (Line (cursor e)) in
           let col := wrap64 (Col (cursor e) - 1) in
           col' <- (if col >? 0 then
                      c1 <- skipSpacesBack line (Z.to_nat col) ;;
                      c2 <- wordBackLoop line c1 ;;
                      Done (Z.of_nat c2)
                    else Done col) ;;
           Done (with_cursor e {| Line := Line (cursor e); Col := col' |})) ;;
  Done (trackSelection (clampCursor e')).

Definition SelectLine (e : Editor) : Editor :=
  let anchor := {| Line := Line (cursor e); Col := 0 |} in
  let lineLen := len (GetLine (buffer e) (Line (cursor e))) in
  let head := {| Line := Line (cursor e); Col := lineLen |} in
  with_cursor (with_selection e {| Anchor := anchor; Head := head |}) head.

(** [for start > 0 && isAlphaNum(line[start-1]) { start-- }] *)
Fixpoint wordStart (line : gostring) (start : nat) : outcome nat :=
  match start with
  | O => Done O
  | S start' =>
      ch <- index line (Z.of_nat start - 1) ;;
      if isAlphaNum ch then wordStart line start' else Done start
  end.

(** [for end < len(line) && isAlphaNum(line[end]) { end++ }]; [rest] is
    [line[end:]]. *)
Fixpoint wordEnd (rest : gostring) (end_ : Z) : Z :=
  match rest with
  | [] => end_
  | ch :: rest' => if isAlphaNum ch then wordEnd rest' (end_ + 1) else end_
  end.

Definition SelectWord (e : Editor) : outcome Editor :=
  let line := GetLine (buffer e) (Line (cursor e)) in
  if Col (cursor e) >=? len line then Done e
  else
    ch <- index line (Col (cursor e)) ;;
    if negb (isAlphaNum ch) then Done e
    else
      start <- wordStart line (Z.to_nat (Col (cursor e))) ;;
      rest <- slice_from line (Col (cursor e)) ;;
      let end_ := wordEnd rest (Col (cursor e)) in
      let anchor := {| Line := Line (cursor e); Col := Z.of_nat start |} in
      let head := {| Line := Line (cursor e); Col := end_ |} in
      Done (with_cursor (with_selection e {| Anchor := anchor; Head := head |}) head).

Definition Editor_DeleteSelection (e : Editor) : outcome Editor :=
  if negb (IsEmpty (selection e)) then
    r <- DeleteSelection (buffer e) (selection e) ;;
    let e := with_cursor (with_buffer e (fst r)) (snd r) in
    let e := with_selection e (NewSelection (cursor e)) in
    Done (clampCursor e)
  else Done e.

Definition YankSelection (e : Editor) : outcome Editor :=
  if negb (IsEmpty (selection e)) then
    text <- GetSelectedText (buffer e) (selection e) ;;
    Done (with_clipboard e text)
  else Done e.

(** [for _, ch := range s { e.cursor = e.buffer.InsertChar(e.cursor, ch) }] *)
Fixpoint insertRunes (b : Buffer) (pos : Position) (rs : list rune)
  : outcome (Buffer * Position) :=
  match rs with
  | [] => Done (b, pos)
  | ch :: rs' => r <- InsertChar b pos ch ;; insertRunes (fst r) (snd r) rs'
  end.

(** The loop over the lines of a multi-line clipboard; a newline is
    inserted after every line but the last. *)
Fixpoint pasteLines (b : Buffer) (pos : Position) (ls : list gostring)
  : outcome (Buffer * Position) :=
  match ls with
  | [] => Done (b, pos)
  | line :: rest =>
      r <- insertRunes b pos (runes line) ;;
      match rest with
      | [] => Done r
      | _ :: _ => r' <- InsertNewline (fst r) (snd r) ;; pasteLines (fst r') (snd r') rest
      end
  end.

Definition Paste (e : Editor) : outcome Editor :=
  if string_eqb (clipboard e) [] then Done e
  else
    let ls := Split (clipboard e) [LF] in
    r <- (if len ls =? 1
          then insertRunes (buffer e) (cursor e) (runes (clipboard e))
          else pasteLines (buffer e) (cursor e) ls) ;;
    let e := with_cursor (with_buffer e (fst r)) (snd r) in
    Done (with_selection e (NewSelection (cursor e))).

Definition Editor_InsertChar (e : Editor) (ch : rune) : outcome Editor :=
  r <- InsertChar (buffer e) (cursor e) ch ;;
  let e := with_cursor (with_buffer e (fst r)) (snd r) in
  Done (with_selection e (NewSelection (cursor e))).

Definition Editor_InsertNewline (e : Editor) : outcome Editor :=
  r <- InsertNewline (buffer e) (cursor e) ;;
  let e := with_cursor (with_buffer e (fst r)) (snd r) in
  Done (with_selection e (NewSelection (cursor e))).

Definition Backspace (e : Editor) : outcome Editor :=
  r <- DeleteChar (buffer e) (cursor e) ;;
  let e := with_cursor (with_buffer e (fst r)) (snd r) in
  let e := with_selection e (NewSelection (cursor e)) in
  Done (clampCursor e).

Definition AppendCommand (e : Editor) (ch : rune) : Editor :=
  with_command e (command e ++ EncodeRune ch).

Definition BackspaceCommand (e : Editor) : Editor :=
  if len (command e) >? 0
  then with_command e (take (Z.to_nat (len (command e) - 1)) (command e))
  else e.

Definition ClearCommand (e : Editor) : Editor := with_command e [].

Definition ExecuteCommand (e : Editor) (werr : error) : Editor * list WriteCall * bool :=
  let cmd := TrimSpace (command e) in
  let e := with_command e [] in
  if string_eqb cmd (str "w") then
    let '(e', calls, _) := Editor_SaveFile e werr in (e', calls, false)
  else if string_eqb cmd (str "q") then
    if negb (IsDirty (buffer e)) then (e, [], true) else (e, [], false)
  else if string_eqb cmd (str "q!") then (e, [], true)
  else if string_eqb cmd (str "wq") then
    let '(e', calls, _) := Editor_SaveFile e werr in (e', calls, true)
  else (e, [], false).

(** ** The command interface of the editor

    The methods an input dispatcher may call, with the answers of the
    environment where a method does I/O. *)

Inductive Command : Type :=
| CLoadFile (name : gostring) (read : ReadResult)
| CSaveFile (werr : error)
| CSetMode (m : Mode)
| CMoveCursor (dLine dCol : Z)
| CMoveCursorTo (pos : Position)
| CMoveToLineStart
| CMoveToLineEnd
| CMoveWordForward
| CMoveWordBackward
| CSelectLine
| CSelectWord
| CDeleteSelection
| CYankSelection
| CPaste
| CInsertChar (ch : rune)
| CInsertNewline
| CBackspace
| CAppendCommand (ch : rune)
| CBackspaceCommand
| CClearCommand
| CExecuteCommand (werr : error).

Definition perform (e : Editor) (c : Command) : outcome Editor :=
  match c with
  | CLoadFile name read => Done (fst (Editor_LoadFile e name read))
  | CSaveFile werr => Done (fst (fst (Editor_SaveFile e werr)))
  | CSetMode m => Done (SetMode e m)
  | CMoveCursor dLine dCol => Done (MoveCursor e dLine dCol)
  | CMoveCursorTo pos => Done (MoveCursorTo e pos)
  | CMoveToLineStart => Done (MoveToLineStart e)
  | CMoveToLineEnd => Done (MoveToLineEnd e)
  | CMoveWordForward => MoveWordForward e
  | CMoveWordBackward => MoveWordBackward e
  | CSelectLine => Done (SelectLine e)
  | CSelectWord => SelectWord e
  | CDeleteSelection => Editor_DeleteSelection e
  | CYankSelection => YankSelection e
  | CPaste => Paste e
  | CInsertChar ch => Editor_InsertChar e ch
  | CInsertNewline => Editor_InsertNewline e
  | CBackspace => Backspace e
  | CAppendCommand ch => Done (AppendCommand e ch)
  | CBackspaceCommand => Done (BackspaceCommand e)
  | CClearCommand => Done (ClearCommand e)
  | CExecuteCommand werr => Done (fst (fst (ExecuteCommand e werr)))
  end.

Fixpoint performAll (e : Editor) (cs : list Command) : outcome Editor :=
  match cs with
  | [] => Done e
  | c :: cs' => e' <- perform e c ;; performAll e' cs'
  end.

(** The states a session can be in: [New], then any commands that
    returned. *)
Inductive reachable : Editor -> Prop :=
| reachable_New : reachable New
| reachable_step e c e' : reachable e -> perform e c = Done e' -> reachable e'.

(** The commands that end in [clampCursor]. *)
Definition reclamps (e : Editor) (c : Command) : bool :=
  match c with
  | CMoveCursor _ _ | CMoveCursorTo _ | CMoveWordForward | CMoveWordBackward
  | CBackspace => true
  | CDeleteSelection => negb (IsEmpty (selection e))
  | _ => false
  end.

Definition isLoadFile (c : Command) : bool :=
  match c with CLoadFile _ _ => true | _ => false end.

(** ** Properties of states, in the words of the specification *)

Definition lineLength (b : Buffer) (p : Position) : Z := len (GetLine b (Line p)).

(** The mode-specific bound of the cursor column. *)
Definition colBound (e : Editor) : Z :=
  match mode e with
  | ModeNormal => Z.max (lineLength (buffer e) (cursor e) - 1) 0
  | _ => lineLength (buffer e) (cursor e)
  end.

Definition cursorInv (e : Editor) : Prop :=
  0 <= Line (cursor e) < LineCount (buffer e) /\
  0 <= Col (cursor e) <= colBound e.

(** A position inside the text: on a line, at a column up to and
    including its end. *)
Definition inBuffer (b : Buffer) (p : Position) : Prop :=
  0 <= Line p < LineCount b /\ 0 <= Col p <= lineLength b p.

Definition nonneg (p : Position) : Prop := 0 <= Line p /\ 0 <= Col p.

(** No coordinate is stale: the cursor and both ends of the selection
    are inside the buffer. *)
Definition consistent (e : Editor) : Prop :=
  inBuffer (buffer e) (cursor e) /\
  inBuffer (buffer e) (Anchor (selection e)) /\
  inBuffer (buffer e) (Head (selection e)).

(** What every reachable state satisfies. *)
Definition baseInv (e : Editor) : Prop :=
  1 <= LineCount (buffer e) /\ nonneg (cursor e) /\
  nonneg (Anchor (selection e)) /\ nonneg (Head (selection e)).

Definition lineAt (ls : list gostring) (n : Z) : gostring :=
  default [] (ls !! Z.to_nat n).

(** Removal of the range from [start] up to [end_] from the lines [ls],
    as the specification words it. *)
Definition removeRange (ls : list gostring) (start end_ : Position) : list gostring :=
  let joined := take (Z.to_nat (Col start)) (lineAt ls (Line start))
                ++ drop (Z.to_nat (Col end_)) (lineAt ls (Line end_)) in
  if Line start =? Line end_
  then <[Z.to_nat (Line start) := joined]> ls
  else take (Z.to_nat (Line start)) ls ++ [joined] ++ drop (Z.to_nat (Line end_) + 1) ls.

(** The text of the lines, each followed by a line feed, and the offset
    of a position in it. *)
Fixpoint textOf (ls : list gostring) : gostring :=
  match ls with
  | [] => []
  | l :: ls' => l ++ LF :: textOf ls'
  end.

Definition offsetOf (ls : list gostring) (p : Position) : nat :=
  (length (textOf (take (Z.to_nat (Line p)) ls)) + Z.to_nat (Col p))%nat.

(** The word characters, [A-Za-z0-9_]. *)
Definition wordChars : gostring :=
  str "ABCDEFGHIJKLMNOPQRSTUVWXYZabcdefghijklmnopqrstuvwxyz0123456789_".

Definition isWordChar (ch : ascii) : bool := bool_decide (ch ∈ wordChars).

(** The length of the leading run of bytes satisfying [p]. *)
Fixpoint runLength (p : ascii -> bool) (s : gostring) : nat :=
  match s with
  | [] => O
  | ch :: s' => if p ch then S (runLength p s') else O
  end.

(** Where the forward word scan stops: after the non-word characters at
    the column and the word that follows them. *)
Definition wordScan (line : gostring) (col : Z) : Z :=
  let rest := drop (Z.to_nat col) line in
  let gap := runLength (fun ch => negb (isWordChar ch)) rest in
  let word := runLength isWordChar (drop gap rest) in
  col + Z.of_nat gap + Z.of_nat word.

Definition wordForwardTarget (e : Editor) : Position :=
  let line := GetLine (buffer e) (Line (cursor e)) in
  let col := wordScan line (Col (cursor e)) in
  if (col =? Col (cursor e)) && (Line (cursor e) + 1 <? LineCount (buffer e))
  then {| Line := Line (cursor e) + 1; Col := 0 |}
  else {| Line := Line (cursor e); Col := col |}.

(** ** Concrete states *)

Definition editorOn (ls : list gostring) (c : Position) (s : Selection) (m : Mode) : Editor :=
  {| buffer := {| lines := ls; filename := []; dirty := true |};
     cursor := c; selection := s; mode := m; command := []; clipboard := [] |}.

Definition at_ (line col : Z) : Position := {| Line := line; Col := col |}.

(** One letter typed, the cursor back on it, in Normal mode. *)
Definition onLetter : Editor :=
  editorOn [str "a"] (at_ 0 0) (NewSelection (at_ 0 0)) ModeNormal.

(** The same after [SelectLine]: the line selected, the cursor at its end. *)
Definition lineSelected : Editor :=
  editorOn [str "a"] (at_ 0 1) {| Anchor := at_ 0 0; Head := at_ 0 1 |} ModeNormal.

(** The buffer of the single line "ab", and of the lines "ab", "cd". *)
Definition oneLine : Buffer :=
  {| lines := [str "ab"]; filename := []; dirty := false |}.

Definition twoLines : Buffer :=
  {| lines := [str "ab"; str "cd"]; filename := []; dirty := false |}.

(** An editor in Command mode on the unsaved line "ab", named "f",
    with [cmd] in its accumulator. *)
Definition typing (cmd : string) : Editor :=
  {| buffer := {| lines := [str "ab"]; filename := str "f"; dirty := true |};
     cursor := at_ 0 0; selection := NewSelection (at_ 0 0); mode := ModeCommand;
     command := str cmd; clipboard := [] |}.

(** Normal mode on the single line "abc", the cursor on its last
    character. *)
Definition onLastChar : Editor :=
  editorOn [str "abc"] (at_ 0 2) (NewSelection (at_ 0 2)) ModeNormal.

(** ** Order of positions *)

(** Document order: by line, then by column. *)
Definition posLe (p q : Position) : Prop :=
  Line p < Line q \/ (Line p = Line q /\ Col p <= Col q).

Definition posLt (p q : Position) : Prop :=
  Line p < Line q \/ (Line p = Line q /\ Col p < Col q).

(** The same selection made in the other direction. *)
Definition reversed (s : Selection) : Selection :=
  {| Anchor := Head s; Head := Anchor s |}.

(** ** Kinds of commands *)

(** The commands that may change the lines of the buffer. *)
Definition editsText (c : Command) : bool :=
  match c with
  | CLoadFile _ _ | CDeleteSelection | CPaste | CInsertChar _ | CInsertNewline
  | CBackspace => true
  | _ => false
  end.

(** The commands of the command-line accumulator. *)
Definition editsCommandLine (c : Command) : bool :=
  match c with
  | CAppendCommand _ | CBackspaceCommand | CClearCommand | CExecuteCommand _ => true
  | _ => false
  end.

(** The commands that talk to the file system. *)
Definition doesIO (c : Command) : bool :=
  match c with
  | CLoadFile _ _ | CSaveFile _ | CExecuteCommand _ => true
  | _ => false
  end.

(** The movement family. *)
Definition isMovement (c : Command) : bool :=
  match c with
  | CMoveCursor _ _ | CMoveCursorTo _ | CMoveToLineStart | CMoveToLineEnd
  | CMoveWordForward | CMoveWordBackward => true
  | _ => false
  end.

(** A primitive either leaves the buffer as it is or replaces its lines
    and marks it dirty. *)
Definition touched (b b' : Buffer) : Prop := b' = b \/ exists ls, b' = touch b ls.

(** ** render.go

    Of the renderer the scrolling is embedded; [Render] and its helpers
    draw through the terminal library and are left out. *)

Module ui.

Record Renderer : Type := mkRenderer { width : Z; height : Z }.

Definition NewRenderer (width height : Z) : Renderer :=
  {| width := width; height := height |}.

Definition SetSize (r : Renderer) (width height : Z) : Renderer :=
  {| width := width; height := height |}.

(** The size comes from the terminal and the offset from earlier calls:
    none of the operands is bounded by a test, so each operation is
    wrapped to 64 bits. *)
Definition CalculateScrollOffset (r : Renderer) (cursor : Position) (currentOffset : Z) : Z :=
  let viewportHeight := wrap64 (height r - 2) in
  if Line cursor <? currentOffset then Line cursor
  else if Line cursor >=? wrap64 (currentOffset + viewportHeight)
       then wrap64 (wrap64 (Line cursor - viewportHeight) + 1)
       else currentOffset.

End ui.

(** ** main.go

    The dispatcher of the terminal program.  A [model] holds pointers
    to one editor and one renderer, which [Update] mutates in place and
    returns with the model: they are fields of the record, threaded
    through.  A key press is the string [msg.String()] gives for it. *)

Module main.

Record model : Type := mkModel {
  editor : Editor;
  renderer : ui.Renderer;
  width : Z;
  height : Z;
  scrollOffset : Z;
  quitting : bool
}.

Definition with_editor (m : model) (e : Editor) : model :=
  {| editor := e; renderer := renderer m; width := width m; height := height m;
     scrollOffset := scrollOffset m; quitting := quitting m |}.

Definition with_scrollOffset (m : model) (offset : Z) : model :=
  {| editor := editor m; renderer := renderer m; width := width m; height := height m;
     scrollOffset := offset; quitting := quitting m |}.

Definition with_quitting (m : model) (q : bool) : model :=
  {| editor := editor m; renderer := renderer m; width := width m; height := height m;
     scrollOffset := scrollOffset m; quitting := q |}.

(** [tea.Msg], as far as [Update] tells messages apart, and [tea.Cmd],
    which is [nil] or [tea.Quit] here. *)
Inductive Msg : Type :=
| WindowSizeMsg (Width Height : Z)
| KeyMsg (key : gostring)
| OtherMsg.

Inductive Cmd : Type := TeaNil | TeaQuit.

Definition keyIs (key : gostring) (name : string) : bool := string_eqb key (str name).

(** [read] is the answer of [os.ReadFile]; the error of [LoadFile] is
    logged only. *)
Definition initialModel (filename : gostring) (read : ReadResult) : model :=
  let ed := New in
  let ed := if negb (string_eqb filename [])
            then fst (Editor_LoadFile ed filename read) else ed in
  {| editor := ed; renderer := ui.NewRenderer 80 24; width := 80; height := 24;
     scrollOffset := 0; quitting := false |}.

(** The last statement of the handlers of the Normal, Insert and Visual
    modes. *)
Definition scroll (m : model) : model :=
  with_scrollOffset m
    (ui.CalculateScrollOffset (renderer m) (GetCursor (editor m)) (scrollOffset m)).

(** The [switch] of [handleNormalMode], on the editor; the case of
    "ctrl+c" and "q" is the one that did not quit. *)
Definition normalSwitch (e : Editor) (key : gostring) : outcome Editor :=
  if keyIs key "ctrl+c" || keyIs key "q" then Done e
  else if keyIs key "h" || keyIs key "left" then Done (MoveCursor e 0 (-1))
  else if keyIs key "j" || keyIs key "down" then Done (MoveCursor e 1 0)
  else if keyIs key "k" || keyIs key "up" then Done (MoveCursor e (-1) 0)
  else if keyIs key "l" || keyIs key "right" then Done (MoveCursor e 0 1)
  else if keyIs key "w" then MoveWordForward e
  else if keyIs key "b" then MoveWordBackward e
  else if keyIs key "0" then Done (MoveToLineStart e)
  else if keyIs key "$" then Done (MoveToLineEnd e)
  else if keyIs key "i" then Done (SetMode e ModeInsert)
  else if keyIs key "a" then Done (SetMode (MoveCursor e 0 1) ModeInsert)
  else if keyIs key "v" then Done (SetMode e ModeVisual)
  else if keyIs key "x" then Done (SetMode (SelectLine e) ModeVisual)
  else if keyIs key "d" then
    if negb (IsEmpty (GetSelection e)) then Editor_DeleteSelection e else Done e
  else if keyIs key "c" then
    if negb (IsEmpty (GetSelection e))
    then e' <- Editor_DeleteSelection e ;; Done (SetMode e' ModeInsert)
    else Done e
  else if keyIs key "y" then YankSelection e
  else if keyIs key "p" then Paste e
  else if keyIs key ":" then Done (ClearCommand (SetMode e ModeCommand))
  else Done e.

Definition handleNormalMode (m : model) (key : gostring) : outcome (model * Cmd) :=
  if (keyIs key "ctrl+c" || keyIs key "q") && negb (IsDirty (GetBuffer (editor m)))
  then Done (with_quitting m true, TeaQuit)
  else
    e' <- normalSwitch (editor m) key ;;
    Done (scroll (with_editor m e'), TeaNil).

(** The [switch] of [handleInsertMode]. *)
Definition insertSwitch (e : Editor) (key : gostring) : outcome Editor :=
  if keyIs key "esc" then Done (SetMode (MoveCursor e 0 (-1)) ModeNormal)
  else if keyIs key "enter" then Editor_InsertNewline e
  else if keyIs key "backspace" then Backspace e
  else if keyIs key "left" then Done (MoveCursor e 0 (-1))
  else if keyIs key "right" then Done (MoveCursor e 0 1)
  else if keyIs key "up" then Done (MoveCursor e (-1) 0)
  else if keyIs key "down" then Done (MoveCursor e 1 0)
  else
    let rs := runes key in
    if len rs =? 1 then ch <- index rs 0 ;; Editor_InsertChar e ch else Done e.

Definition handleInsertMode (m : model) (key : gostring) : outcome (model * Cmd) :=
  e' <- insertSwitch (editor m) key ;;
  Done (scroll (with_editor m e'), TeaNil).

(** The [switch] of [handleVisualMode]. *)
Definition visualSwitch (e : Editor) (key : gostring) : outcome Editor :=
  if keyIs key "esc" then Done (SetMode e ModeNormal)
  else if keyIs key "h" || keyIs key "left" then Done (MoveCursor e 0 (-1))
  else if keyIs key "j" || keyIs key "down" then Done (MoveCursor e 1 0)
  else if keyIs key "k" || keyIs key "up" then Done (MoveCursor e (-1) 0)
  else if keyIs key "l" || keyIs key "right" then Done (MoveCursor e 0 1)
  else if keyIs key "w" then MoveWordForward e
  else if keyIs key "b" then MoveWordBackward e
  else if keyIs key "d" then
    e' <- Editor_DeleteSelection e ;; Done (SetMode e' ModeNormal)
  else if keyIs key "c" then
    e' <- Editor_DeleteSelection e ;; Done (SetMode e' ModeInsert)
  else if keyIs key "y" then
    e' <- YankSelection e ;; Done (SetMode e' ModeNormal)
  else Done e.

Definition handleVisualMode (m : model) (key : gostring) : outcome (model * Cmd) :=
  e' <- visualSwitch (editor m) key ;;
  Done (scroll (with_editor m e'), TeaNil).

(** [werr] is the answer of [os.WriteFile], should the command write;
    the calls made are returned with the model. *)
Definition handleCommandMode (m : model) (key : gostring) (werr : error)
  : outcome (model * list WriteCall * Cmd) :=
  let e := editor m in
  if keyIs key "esc" then
    Done (with_editor m (ClearCommand (SetMode e ModeNormal)), [], TeaNil)
  else if keyIs key "enter" then
    let '(e', calls, quit) := ExecuteCommand e werr in
    if quit then Done (with_quitting (with_editor m e') true, calls, TeaQuit)
    else Done (with_editor m (SetMode e' ModeNormal), calls, TeaNil)
  else if keyIs key "backspace" then
    Done (with_editor m (BackspaceCommand e), [], TeaNil)
  else if len key =? 1 then
    ch <- index key 0 ;;
    Done (with_editor m (AppendCommand e (byteval ch)), [], TeaNil)
  else Done (m, [], TeaNil).

Definition silently (r : outcome (model * Cmd)) : outcome (model * list WriteCall * Cmd) :=
  r' <- r ;; Done (fst r', [], snd r').

Definition handleKeyPress (m : model) (key : gostring) (werr : error)
  : outcome (model * list WriteCall * Cmd) :=
  match GetMode (editor m) with
  | ModeNormal => silently (handleNormalMode m key)
  | ModeInsert => silently (handleInsertMode m key)
  | ModeVisual => silently (handleVisualMode m key)
  | ModeCommand => handleCommandMode m key werr
  end.

Definition Update (m : model) (msg : Msg) (werr : error)
  : outcome (model * list WriteCall * Cmd) :=
  match msg with
  | WindowSizeMsg Width Height =>
      Done ({| editor := editor m;
               renderer := ui.SetSize (renderer m) Width Height;
               width := Width; height := Height;
               scrollOffset := scrollOffset m; quitting := quitting m |}, [], TeaNil)
  | KeyMsg key => handleKeyPress m key werr
  | OtherMsg => Done (m, [], TeaNil)
  end.

End main.

(** ** States of the dispatcher *)

(** Outside Visual mode the selection is the point at the cursor. *)
Definition pointSelection (e : Editor) : Prop :=
  mode e <> ModeVisual -> selection e = NewSelection (cursor e).

(** What the dispatcher keeps of its editor. *)
Definition settled (e : Editor) : Prop := consistent e /\ pointSelection e.

(** The commands that keep the selection at the cursor outside Visual
    mode; [Backspace] does unless in Normal mode, where its clamp may
    move the cursor. *)
Definition keepsPoint (m : Mode) (c : Command) : bool :=
  match c with
  | CLoadFile _ _ | CSelectLine | CSelectWord => false
  | CBackspace => negb (Mode_eqb m ModeNormal)
  | _ => true
  end.

(** The rows of the viewport show the line of the cursor. *)
Definition visible (r : ui.Renderer) (cursor : Position) (offset : Z) : Prop :=
  offset <= Line cursor < offset + (ui.height r - 2).

(** A model in Visual mode on the line "ab", all of it selected, with
    unsaved changes; and a model in Command mode with [cmd] typed. *)
Definition selecting : main.model :=
  {| main.editor := editorOn [str "ab"] (at_ 0 2)
                      {| Anchor := at_ 0 0; Head := at_ 0 2 |} ModeVisual;
     main.renderer := ui.NewRenderer 80 24; main.width := 80; main.height := 24;
     main.scrollOffset := 0; main.quitting := false |}.

Definition commanding (cmd : string) : main.model :=
  {| main.editor := typing cmd;
     main.renderer := ui.NewRenderer 80 24; main.width := 80; main.height := 24;
     main.scrollOffset := 0; main.quitting := false |}.

(** A word starts at column [i] of the line: a word character there,
    a character that is not one before it. *)
Definition wordStartsAt (line : gostring) (i : nat) : Prop :=
  exists prev cur,
    (0 < i)%nat /\ line !! (i - 1)%nat = Some prev /\ line !! i = Some cur /\
    isWordChar prev = false /\ isWordChar cur = true.

(** Key presses one after the other, every write succeeding. *)
Fixpoint pressAll (m : main.model) (keys : list string) : outcome main.model :=
  match keys with
  | [] => Done m
  | key :: keys' =>
      r <- main.Update m (main.KeyMsg (str key)) None ;;
      pressAll (fst (fst r)) keys'
  end.

(** ** White space around a command, in the words of the specification *)

(** A run of white space: the UTF-8 encodings of runes that
    [unicode.IsSpace] accepts, one after the other. *)
Definition whiteSpace (pad : gostring) : Prop :=
  exists rs, Forall (fun r => IsSpace r = true) rs /\ pad = concat (map EncodeRune rs).

(** A byte that is a character by itself and is not white space. *)
Definition graphic (b : ascii) : bool :=
  (byteval b <? 0x80) && negb (IsSpace (byteval b)).

(** Text that begins and ends with such a byte: it has no white space
    at either end. *)
Definition solid (core : gostring) : Prop :=
  (exists a, head core = Some a /\ graphic a = true) /\
  (exists z, last core = Some z /\ graphic z = true).

(** The white-space runes, as [unicode.IsSpace] lists them. *)
Definition spaceRunes : list rune :=
  [0x09; 0x0A; 0x0B; 0x0C; 0x0D; 0x20; 0x85; 0xA0; 0x1680;
   0x2000; 0x2001; 0x2002; 0x2003; 0x2004; 0x2005; 0x2006; 0x2007; 0x2008;
   0x2009; 0x200A; 0x2028; 0x2029; 0x202F; 0x205F; 0x3000].

(** The values the decoder gives sequences of two, three and four
    bytes, and its test of the second byte. *)
Definition rune2 (s0 s1 : Z) : rune :=
  Z.lor (Z.shiftl (Z.land s0 0x1F) 6) (Z.land s1 0x3F).

Definition rune3 (s0 s1 s2 : Z) : rune :=
  Z.lor (Z.lor (Z.shiftl (Z.land s0 0x0F) 12) (Z.shiftl (Z.land s1 0x3F) 6))
        (Z.land s2 0x3F).

Definition rune4 (s0 s1 s2 s3 : Z) : rune :=
  Z.lor (Z.lor (Z.lor (Z.shiftl (Z.land s0 0x07) 18) (Z.shiftl (Z.land s1 0x3F) 12))
               (Z.shiftl (Z.land s2 0x3F) 6))
        (Z.land s3 0x3F).

Definition accepted (s0 s1 : Z) : bool :=
  match first s0 with
  | Some (_, (lo, hi)) => between lo hi s1
  | None => false
  end.

(** The bytes from [lo] to [hi]. *)
Definition bytesFrom (lo hi : Z) : list Z :=
  map (fun i => lo + Z.of_nat i) (seq 0 (Z.to_nat (hi - lo + 1))).

(** Command mode on the saved line "ab", named "f", with [cmd] typed. *)
Definition typingSaved (cmd : string) : Editor :=
  {| buffer := {| lines := [str "ab"]; filename := str "f"; dirty := false |};
     cursor := at_ 0 0; selection := NewSelection (at_ 0 0); mode := ModeCommand;
     command := str cmd; clipboard := [] |}.

(** ** Kinds of commands, by what they do with the cursor *)

(** The commands that put the cursor on its line within the bound of
    the mode, whatever its column was. *)
Definition placesCursor (c : Command) : bool :=
  match c with
  | CMoveToLineStart | CMoveToLineEnd | CInsertNewline => true
  | _ => false
  end.

(** The commands that keep a cursor within the bound of the mode: all
    but those that set the mode, or that leave the cursor at the end of
    a selection or of inserted text, or that replace the buffer. *)
Definition keepsBound (c : Command) : bool :=
  match c with
  | CLoadFile _ _ | CSetMode _ | CSelectLine | CSelectWord | CPaste | CInsertChar _ => false
  | _ => true
  end.

(** The commands that insert text at the cursor. *)
Definition insertsText (c : Command) : bool :=
  match c with
  | CInsertChar _ | CPaste => true
  | _ => false
  end.

(** The position is on a character of its line. *)
Definition onCharacter (b : Buffer) (p : Position) : Prop :=
  0 <= Line p < LineCount b /\ 0 <= Col p < lineLength b p.

(** * Proofs *)

(** ** Tactics *)

Ltac bool_to_prop E :=
  first
    [ apply Z.leb_le in E | apply Z.leb_gt in E
    | apply Z.ltb_lt in E | apply Z.ltb_ge in E
    | apply Z.eqb_eq in E | apply Z.eqb_neq in E ].

Ltac split_on t :=
  let E := fresh "E" in
  destruct t eqn:E; try rewrite E in *; bool_to_prop E.

Ltac zcase_step :=
  match goal with
  | H : context [Z.geb ?a ?b] |- _ => rewrite (Z.geb_leb a b) in H
  | H : context [Z.gtb ?a ?b] |- _ => rewrite (Z.gtb_ltb a b) in H
  | |- context [Z.geb ?a ?b] => rewrite (Z.geb_leb a b)
  | |- context [Z.gtb ?a ?b] => rewrite (Z.gtb_ltb a b)
  | H : context [Z.leb ?a ?b] |- _ => split_on (Z.leb a b)
  | H : context [Z.ltb ?a ?b] |- _ => split_on (Z.ltb a b)
  | H : context [Z.eqb ?a ?b] |- _ => split_on (Z.eqb a b)
  | |- context [Z.leb ?a ?b] => split_on (Z.leb a b)
  | |- context [Z.ltb ?a ?b] => split_on (Z.ltb a b)
  | |- context [Z.eqb ?a ?b] => split_on (Z.eqb a b)
  end.

(** Case analysis on every integer comparison in sight. *)
Ltac zcase := repeat (zcase_step; cbn [andb orb negb] in * ).

(** Evaluation of the lengths of concrete lines. *)
Ltac eval_len :=
  repeat match goal with
  | |- context [Go.len ?l] =>
      let v := eval vm_compute in (Go.len l) in change (Go.len l) with v
  end.

(** A sequence that returned: each of its steps returned. *)
Ltac returned H :=
  repeat match type of H with
  | bind ?m _ = Done _ =>
      let r := fresh "r" in
      let Hr := fresh "Hr" in
      destruct m as [r|] eqn:Hr; cbn [bind] in H; [| discriminate H]
  end.

(** ** Slices *)

Section Slices.
Context {A : Type}.
Implicit Types (l : list A) (i lo hi : Z).

Lemma len_nonneg l : 0 <= len l.
Proof. unfold len. lia. Qed.

Lemma len_singleton (x : A) : len [x] = 1.
Proof. done. Qed.

Lemma len_cons (x : A) l : len (x :: l) = 1 + len l.
Proof. unfold len. cbn [length]. lia. Qed.

Lemma len_app l1 l2 : len (l1 ++ l2) = len l1 + len l2.
Proof. unfold len. rewrite length_app. lia. Qed.

Lemma len_insert l n (x : A) : len (<[n := x]> l) = len l.
Proof. unfold len. by rewrite length_insert. Qed.

Lemma len_take l n : len (take n l) = Z.min (Z.of_nat n) (len l).
Proof. unfold len. rewrite length_take. lia. Qed.

Lemma len_drop l n : len (drop n l) = Z.max 0 (len l - Z.of_nat n).
Proof. unfold len. rewrite length_drop. lia. Qed.

Lemma index_returned l i x :
  index l i = Done x -> 0 <= i < len l /\ l !! Z.to_nat i = Some x.
Proof.
  unfold index. intros H.
  destruct (l !! Z.to_nat i) eqn:Hl; zcase; try discriminate.
  inversion H; subst. split; [lia | done].
Qed.

Lemma index_lookup l i x :
  0 <= i -> l !! Z.to_nat i = Some x -> index l i = Done x.
Proof.
  intros Hi Hl. unfold index. rewrite Hl.
  apply lookup_lt_Some in Hl. unfold len. zcase; try lia. done.
Qed.

Lemma slice_returned l lo hi r :
  slice l lo hi = Done r ->
  0 <= lo <= hi /\ hi <= len l /\ r = take (Z.to_nat (hi - lo)) (drop (Z.to_nat lo) l).
Proof.
  unfold slice. intros H. zcase; try discriminate.
  inversion H. repeat split; lia.
Qed.

Lemma slice_to_returned l hi r :
  slice_to l hi = Done r -> 0 <= hi <= len l /\ r = take (Z.to_nat hi) l.
Proof.
  unfold slice_to. intros H. apply slice_returned in H as (? & ? & ->).
  split; [lia |]. by rewrite Z.sub_0_r.
Qed.

Lemma slice_from_returned l lo r :
  slice_from l lo = Done r -> 0 <= lo <= len l /\ r = drop (Z.to_nat lo) l.
Proof.
  unfold slice_from. intros H. apply slice_returned in H as (? & ? & ->).
  split; [lia |]. apply take_ge. rewrite length_drop. unfold len. lia.
Qed.

Lemma slice_to_in_range l hi :
  0 <= hi <= len l -> slice_to l hi = Done (take (Z.to_nat hi) l).
Proof.
  intros H. unfold slice_to, slice. zcase; try lia. by rewrite Z.sub_0_r.
Qed.

Lemma slice_from_in_range l lo :
  0 <= lo <= len l -> slice_from l lo = Done (drop (Z.to_nat lo) l).
Proof.
  intros H. unfold slice_from, slice. zcase; try lia.
  f_equal. apply take_ge. rewrite length_drop. unfold len. lia.
Qed.

Lemma slice_in_range l lo hi :
  0 <= lo <= hi -> hi <= len l -> exists r, slice l lo hi = Done r.
Proof. intros H1 H2. unfold slice. zcase; try lia. eauto. Qed.

Lemma store_returned l i (x : A) r :
  store l i x = Done r -> 0 <= i < len l /\ r = <[Z.to_nat i := x]> l.
Proof.
  unfold store. intros H. zcase; try discriminate.
  inversion H. split; [lia | done].
Qed.

Lemma store_in_range l i (x : A) :
  0 <= i < len l -> store l i x = Done (<[Z.to_nat i := x]> l).
Proof. intros H. unfold store. zcase; try lia. done. Qed.
End Slices.

(** ** Lines of a buffer *)

Lemma take_succ_insert {A} (l : list A) (n : nat) (x : A) :
  (n < length l)%nat -> take (S n) (<[n := x]> l) = take n l ++ [x].
Proof.
  intros Hn. rewrite (take_S_r _ _ x) by (by apply list_lookup_insert_eq).
  by rewrite take_insert_ge by lia.
Qed.

Lemma GetLine_lookup b n :
  0 <= n < LineCount b -> lines b !! Z.to_nat n = Some (GetLine b n).
Proof.
  unfold LineCount, GetLine, len. intros Hn. zcase; try lia.
  destruct (lookup_lt_is_Some_2 (lines b) (Z.to_nat n)) as [x Hx]; [lia |].
  by rewrite Hx.
Qed.

Lemma GetLine_of_lookup b n x :
  0 <= n -> lines b !! Z.to_nat n = Some x -> GetLine b n = x.
Proof.
  intros Hn Hx. pose proof (lookup_lt_Some _ _ _ Hx).
  unfold GetLine, len. zcase; try lia. by rewrite Hx.
Qed.

Lemma index_line b n :
  0 <= n < LineCount b -> index (lines b) n = Done (GetLine b n).
Proof. intros Hn. apply index_lookup; [lia |]. by apply GetLine_lookup. Qed.

Lemma index_line_returned b n x :
  index (lines b) n = Done x -> 0 <= n < LineCount b /\ x = GetLine b n.
Proof.
  intros H. apply index_returned in H as [Hn Hx]. split; [done |].
  symmetry. apply GetLine_of_lookup; [lia | done].
Qed.

Lemma GetLine_touch_insert b n m x :
  0 <= n < LineCount b -> 0 <= m ->
  GetLine (touch b (<[Z.to_nat n := x]> (lines b))) m =
  if n =? m then x else GetLine b m.
Proof.
  intros Hn Hm. unfold LineCount, len in Hn. zcase.
  - subst m. apply GetLine_of_lookup; [lia |]. cbn.
    apply list_lookup_insert_eq. lia.
  - unfold GetLine. cbn [lines touch]. rewrite len_insert.
    rewrite list_lookup_insert_ne by lia. done.
Qed.

Lemma EncodeRune_len r : 1 <= len (EncodeRune r).
Proof.
  unfold EncodeRune, len.
  repeat match goal with |- context [if ?c then _ else _] => destruct c end;
    cbn [length]; lia.
Qed.

(** ** [InsertChar] *)

Lemma InsertChar_past b pos ch :
  LineCount b <= Line pos -> InsertChar b pos ch = Done (b, pos).
Proof. intros H. unfold InsertChar, LineCount in *. zcase; try lia. done. Qed.

Lemma InsertChar_in_range b pos ch :
  0 <= Line pos < LineCount b -> 0 <= Col pos ->
  let line := GetLine b (Line pos) in
  let col := Z.min (Col pos) (len line) in
  InsertChar b pos ch =
  Done (touch b (<[Z.to_nat (Line pos) :=
                   take (Z.to_nat col) line ++ EncodeRune ch ++ drop (Z.to_nat col) line]>
                 (lines b)),
        {| Line := Line pos; Col := col + 1 |}).
Proof.
  intros Hl Hc line col. unfold InsertChar.
  assert (Hlen := Hl). unfold LineCount in Hlen.
  rewrite index_line by done. cbn [bind]. fold line.
  assert ((if Col pos >? len line then len line else Col pos) = col) as ->
    by (unfold col; zcase; lia).
  pose proof (len_nonneg line).
  rewrite slice_to_in_range, slice_from_in_range by lia. cbn [bind].
  rewrite store_in_range by lia. cbn [bind].
  destruct (Line pos >=? len (lines b)) eqn:E; [| done].
  rewrite Z.geb_leb in E. apply Z.leb_le in E. lia.
Qed.

Lemma InsertChar_guard b pos ch r :
  InsertChar b pos ch = Done r -> Line pos < LineCount b ->
  0 <= Line pos /\ 0 <= Col pos.
Proof.
  unfold InsertChar, LineCount. intros H Hl.
  destruct (Line pos >=? len (lines b)) eqn:E.
  { rewrite Z.geb_leb in E. apply Z.leb_le in E. lia. }
  returned H.
  apply index_returned in Hr as [? _].
  apply slice_to_returned in Hr0 as [? _].
  split; [lia |]. destruct (Col pos >? len r0) eqn:E'; [| lia].
  rewrite Z.gtb_ltb in E'. apply Z.ltb_lt in E'. pose proof (len_nonneg r0). lia.
Qed.

(** ** [InsertNewline] *)

Lemma InsertNewline_past b pos :
  LineCount b <= Line pos -> InsertNewline b pos = Done (b, pos).
Proof. intros H. unfold InsertNewline, LineCount in *. zcase; try lia. done. Qed.

Lemma InsertNewline_in_range b pos :
  0 <= Line pos < LineCount b -> 0 <= Col pos ->
  let line := GetLine b (Line pos) in
  let col := Z.to_nat (Z.min (Col pos) (len line)) in
  let n := Z.to_nat (Line pos) in
  InsertNewline b pos =
  Done (touch b (take n (lines b) ++ [take col line; drop col line] ++ drop (S n) (lines b)),
        {| Line := Line pos + 1; Col := 0 |}).
Proof.
  intros Hl Hc line col n. unfold InsertNewline.
  assert (Hlen := Hl). unfold LineCount in Hlen.
  destruct (Line pos >=? len (lines b)) eqn:E.
  { rewrite Z.geb_leb in E. apply Z.leb_le in E. lia. }
  rewrite index_line by done. cbn [bind]. fold line.
  assert ((if Col pos >? len line then len line else Col pos)
          = Z.min (Col pos) (len line)) as -> by (zcase; lia).
  pose proof (len_nonneg line).
  rewrite slice_to_in_range, slice_from_in_range by lia. cbn [bind].
  rewrite store_in_range by lia. cbn [bind].
  rewrite slice_to_in_range, slice_from_in_range by (rewrite len_insert; lia).
  cbn [bind]. do 2 f_equal. f_equal.
  replace (Z.to_nat (Line pos + 1)) with (S n) by lia.
  fold n col. unfold len in Hlen.
  rewrite take_succ_insert by lia. rewrite drop_insert_lt by lia.
  by rewrite <- app_assoc.
Qed.

Lemma InsertNewline_guard b pos r :
  InsertNewline b pos = Done r -> Line pos < LineCount b ->
  0 <= Line pos /\ 0 <= Col pos.
Proof.
  unfold InsertNewline, LineCount. intros H Hl.
  destruct (Line pos >=? len (lines b)) eqn:E.
  { rewrite Z.geb_leb in E. apply Z.leb_le in E. lia. }
  returned H.
  apply index_returned in Hr as [? _].
  apply slice_to_returned in Hr0 as [? _].
  split; [lia |]. destruct (Col pos >? len r0) eqn:E'; [| lia].
  rewrite Z.gtb_ltb in E'. apply Z.ltb_lt in E'. pose proof (len_nonneg r0). lia.
Qed.

(** ** [DeleteChar] *)

Lemma DeleteChar_past b pos :
  LineCount b <= Line pos -> DeleteChar b pos = Done (b, pos).
Proof. intros H. unfold DeleteChar, LineCount in *. zcase; try lia. done. Qed.

Lemma DeleteChar_char b pos :
  0 <= Line pos < LineCount b ->
  0 < Col pos <= len (GetLine b (Line pos)) ->
  let line := GetLine b (Line pos) in
  DeleteChar b pos =
  Done (touch b (<[Z.to_nat (Line pos) :=
                   take (Z.to_nat (Col pos - 1)) line ++ drop (Z.to_nat (Col pos)) line]>
                 (lines b)),
        {| Line := Line pos; Col := Col pos - 1 |}).
Proof.
  intros Hl Hc line. unfold DeleteChar.
  assert (Hlen := Hl). unfold LineCount in Hlen.
  destruct (Line pos >=? len (lines b)) eqn:E.
  { rewrite Z.geb_leb in E. apply Z.leb_le in E. lia. }
  rewrite index_line by done. cbn [bind]. fold line in Hc |- *.
  destruct ((Col pos >? 0) && (Col pos <=? len line)) eqn:E'.
  2:{ zcase; lia. }
  rewrite slice_to_in_range, slice_from_in_range by lia. cbn [bind].
  by rewrite store_in_range by lia.
Qed.

Lemma DeleteChar_merge b pos :
  0 < Line pos < LineCount b -> Col pos = 0 ->
  let line := GetLine b (Line pos) in
  let prevLine := GetLine b (Line pos - 1) in
  let n := Z.to_nat (Line pos) in
  DeleteChar b pos =
  Done (touch b (take (n - 1) (lines b) ++ [prevLine ++ line] ++ drop (S n) (lines b)),
        {| Line := Line pos - 1; Col := len prevLine |}).
Proof.
  intros Hl Hc line prevLine n. unfold DeleteChar.
  assert (Hlen := Hl). unfold LineCount in Hlen.
  destruct (Line pos >=? len (lines b)) eqn:E.
  { rewrite Z.geb_leb in E. apply Z.leb_le in E. lia. }
  rewrite index_line by lia. cbn [bind]. fold line.
  destruct ((Col pos >? 0) && (Col pos <=? len line)) eqn:E1.
  { zcase; lia. }
  destruct ((Col pos =? 0) && (Line pos >? 0)) eqn:E2.
  2:{ zcase; lia. }
  rewrite index_line by (unfold LineCount; lia). cbn [bind]. fold prevLine.
  rewrite store_in_range by lia. cbn [bind].
  rewrite slice_to_in_range, slice_from_in_range by (rewrite len_insert; lia).
  cbn [bind]. do 2 f_equal. f_equal. unfold len in Hlen.
  replace (Z.to_nat (Line pos - 1)) with (n - 1)%nat by lia.
  replace (Z.to_nat (Line pos)) with (S (n - 1)) by lia.
  replace (Z.to_nat (Line pos + 1)) with (S n) by lia.
  rewrite take_succ_insert by lia. rewrite drop_insert_lt by lia.
  by rewrite <- app_assoc.
Qed.

Lemma DeleteChar_noop b pos :
  0 <= Line pos < LineCount b ->
  ~ (0 < Col pos <= len (GetLine b (Line pos))) ->
  ~ (Col pos = 0 /\ 0 < Line pos) ->
  DeleteChar b pos = Done (b, pos).
Proof.
  intros Hl H1 H2. unfold DeleteChar.
  assert (Hlen := Hl). unfold LineCount in Hlen.
  destruct (Line pos >=? len (lines b)) eqn:E.
  { rewrite Z.geb_leb in E. apply Z.leb_le in E. lia. }
  rewrite index_line by lia. cbn [bind].
  destruct ((Col pos >? 0) && (Col pos <=? len (GetLine b (Line pos)))) eqn:E1.
  { zcase; lia. }
  destruct ((Col pos =? 0) && (Line pos >? 0)) eqn:E2; [| done].
  zcase; lia.
Qed.

Lemma DeleteChar_guard b pos r :
  DeleteChar b pos = Done r -> Line pos < LineCount b -> 0 <= Line pos.
Proof.
  unfold DeleteChar, LineCount. intros H Hl.
  destruct (Line pos >=? len (lines b)) eqn:E.
  { rewrite Z.geb_leb in E. apply Z.leb_le in E. lia. }
  returned H. apply index_returned in Hr as [? _]. lia.
Qed.

(** ** Selections *)

Lemma Position_eqb_eq p q : Position_eqb p q = true <-> p = q.
Proof.
  destruct p, q. unfold Position_eqb. cbn. split.
  - intros H. zcase; try discriminate. by subst.
  - intros [= -> ->]. by rewrite !Z.eqb_refl.
Qed.

Lemma IsEmpty_NewSelection p : IsEmpty (NewSelection p) = true.
Proof. by apply Position_eqb_eq. Qed.

Lemma Start_cases s : Start s = Anchor s \/ Start s = Head s.
Proof. unfold Start. destruct (_ || _); auto. Qed.

Lemma End_cases s : End s = Anchor s \/ End s = Head s.
Proof. unfold End. destruct (_ || _); auto. Qed.

(** [Start] is not after [End] in (line, column) order. *)
Lemma Start_End_ordered s :
  Line (Start s) < Line (End s) \/
  (Line (Start s) = Line (End s) /\ Col (Start s) <= Col (End s)).
Proof. unfold Start, End. zcase; lia. Qed.

Lemma Start_nonneg s : nonneg (Anchor s) -> nonneg (Head s) -> nonneg (Start s).
Proof. intros. by destruct (Start_cases s) as [-> | ->]. Qed.

Lemma Start_End_NewSelection p :
  Start (NewSelection p) = p /\ End (NewSelection p) = p.
Proof. unfold Start, End. cbn. zcase; done. Qed.

(** ** [DeleteSelection] *)

Lemma lineAt_GetLine b n : 0 <= n -> lineAt (lines b) n = GetLine b n.
Proof.
  intros Hn. unfold GetLine, lineAt, len. zcase; try lia; [| done].
  by rewrite lookup_ge_None_2 by lia.
Qed.

Lemma DeleteSelection_in_range b sel :
  inBuffer b (Start sel) -> inBuffer b (End sel) ->
  DeleteSelection b sel =
  Done (touch b (removeRange (lines b) (Start sel) (End sel)), Start sel).
Proof.
  intros [Hsl Hsc] [Hel Hec]. unfold lineLength in *.
  unfold DeleteSelection, removeRange.
  rewrite !lineAt_GetLine by lia.
  assert (Hlen := Hsl). unfold LineCount in Hlen.
  destruct (Line (Start sel) =? Line (End sel)) eqn:E.
  - apply Z.eqb_eq in E. rewrite <- E in *.
    rewrite index_line by done. cbn [bind].
    rewrite slice_to_in_range, slice_from_in_range by lia. cbn [bind].
    by rewrite store_in_range by lia.
  - apply Z.eqb_neq in E.
    pose proof (Start_End_ordered sel) as Hord.
    rewrite index_line by done. cbn [bind].
    rewrite slice_to_in_range by lia. cbn [bind].
    rewrite index_line by done. cbn [bind].
    rewrite slice_from_in_range by lia. cbn [bind].
    rewrite store_in_range by lia. cbn [bind].
    rewrite len_insert. unfold LineCount, len in Hel, Hlen.
    set (joined := take _ _ ++ drop _ _).
    assert (take (Z.to_nat (Line (Start sel) + 1))
                 (<[Z.to_nat (Line (Start sel)) := joined]> (lines b))
            = take (Z.to_nat (Line (Start sel))) (lines b) ++ [joined]) as Htake.
    { replace (Z.to_nat (Line (Start sel) + 1)) with (S (Z.to_nat (Line (Start sel))))
        by lia.
      apply take_succ_insert. lia. }
    destruct (Line (End sel) + 1 <? len (lines b)) eqn:E'.
    + rewrite slice_to_in_range, slice_from_in_range
        by (rewrite len_insert; unfold len; lia).
      cbn [bind]. rewrite Htake. rewrite drop_insert_lt by lia.
      replace (Z.to_nat (Line (End sel) + 1)) with (Z.to_nat (Line (End sel)) + 1)%nat
        by lia.
      by rewrite <- app_assoc.
    + apply Z.ltb_ge in E'. unfold len in E'.
      rewrite slice_to_in_range by (rewrite len_insert; unfold len; lia).
      cbn [bind]. rewrite Htake.
      rewrite (drop_ge (lines b)) by lia. by rewrite app_nil_r.
Qed.

(** [DeleteSelection] returns exactly when both ends of the selection
    are in the buffer. *)
Lemma DeleteSelection_guard b sel r :
  DeleteSelection b sel = Done r ->
  inBuffer b (Start sel) /\ inBuffer b (End sel).
Proof.
  unfold DeleteSelection, inBuffer, lineLength. intros H.
  destruct (Line (Start sel) =? Line (End sel)) eqn:E.
  - apply Z.eqb_eq in E. rewrite <- E. returned H.
    apply index_line_returned in Hr as [? ->].
    apply slice_to_returned in Hr0 as [? _].
    apply slice_from_returned in Hr1 as [? _].
    pose proof (Start_End_ordered sel). lia.
  - returned H.
    apply index_line_returned in Hr as [? ->].
    apply slice_to_returned in Hr0 as [? _].
    apply index_line_returned in Hr1 as [? ->].
    apply slice_from_returned in Hr2 as [? _].
    lia.
Qed.

Lemma removeRange_len ls start end_ :
  0 <= Line start < len ls -> 1 <= len (removeRange ls start end_).
Proof.
  intros H. unfold removeRange. destruct (_ =? _).
  - rewrite len_insert. lia.
  - rewrite !len_app. pose proof (len_nonneg (take (Z.to_nat (Line start)) ls)).
    pose proof (len_nonneg (drop (Z.to_nat (Line end_) + 1) ls)).
    unfold len at 2. cbn [length]. lia.
Qed.

(** ** The cursor invariant *)

Lemma cursorInv_agree e e' :
  lines (buffer e') = lines (buffer e) -> cursor e' = cursor e -> mode e' = mode e ->
  cursorInv e -> cursorInv e'.
Proof.
  unfold cursorInv, colBound, lineLength, LineCount, GetLine.
  by intros -> -> ->.
Qed.

Lemma inBuffer_agree b b' p :
  lines b' = lines b -> inBuffer b p -> inBuffer b' p.
Proof. unfold inBuffer, lineLength, LineCount, GetLine. by intros ->. Qed.

Lemma cursorInv_inBuffer e : cursorInv e -> inBuffer (buffer e) (cursor e).
Proof.
  unfold cursorInv, inBuffer, colBound. intros [Hl Hc]. split; [done |].
  pose proof (len_nonneg (GetLine (buffer e) (Line (cursor e)))).
  unfold lineLength in *. destruct (mode e); lia.
Qed.

(** Outside Normal mode the invariant is being inside the buffer. *)
Lemma inBuffer_cursorInv e :
  mode e <> ModeNormal -> inBuffer (buffer e) (cursor e) -> cursorInv e.
Proof.
  unfold cursorInv, inBuffer, colBound. intros Hm [Hl Hc]. split; [done |].
  by destruct (mode e).
Qed.

Lemma clampCursor_frame e :
  buffer (clampCursor e) = buffer e /\ mode (clampCursor e) = mode e /\
  selection (clampCursor e) = selection e /\ command (clampCursor e) = command e /\
  clipboard (clampCursor e) = clipboard e.
Proof. done. Qed.

(** [clampCursor] establishes the invariant on any buffer with a line. *)
Lemma clampCursor_cursorInv e :
  1 <= LineCount (buffer e) -> cursorInv (clampCursor e).
Proof.
  intros Hn. unfold cursorInv, colBound, lineLength, clampCursor.
  cbn [with_cursor buffer cursor mode Line Col].
  match goal with
  | |- context [len (GetLine ?b ?l)] =>
      generalize (len_nonneg (GetLine b l)); generalize (len (GetLine b l))
  end.
  intros lineLen HlineLen.
  generalize dependent (LineCount (buffer e)). intros count Hn.
  destruct (mode e); cbn [Mode_eqb andb]; zcase; lia.
Qed.

(** A cursor already inside the invariant is left where it is. *)
Lemma clampCursor_id e : cursorInv e -> cursor (clampCursor e) = cursor e.
Proof.
  unfold cursorInv, colBound, lineLength, clampCursor.
  cbn [with_cursor cursor]. destruct (cursor e) as [l c]. cbn [Line Col].
  intros [Hl Hc].
  assert ((if (if (if l <? 0 then 0 else l) >=? LineCount (buffer e)
                then LineCount (buffer e) - 1 else if l <? 0 then 0 else l) <? 0
           then 0
           else if (if l <? 0 then 0 else l) >=? LineCount (buffer e)
                then LineCount (buffer e) - 1 else if l <? 0 then 0 else l) = l) as ->
    by (zcase; lia).
  f_equal. revert Hc.
  generalize (len_nonneg (GetLine (buffer e) l)).
  generalize (len (GetLine (buffer e) l)). intros lineLen HlineLen.
  destruct (mode e); cbn [Mode_eqb andb]; zcase; lia.
Qed.

Lemma trackSelection_frame e :
  buffer (trackSelection e) = buffer e /\ cursor (trackSelection e) = cursor e /\
  mode (trackSelection e) = mode e /\ command (trackSelection e) = command e /\
  clipboard (trackSelection e) = clipboard e.
Proof. unfold trackSelection. by destruct (Mode_eqb _ _). Qed.

Lemma trackSelection_cursorInv e : cursorInv e -> cursorInv (trackSelection e).
Proof.
  destruct (trackSelection_frame e) as (Hb & Hc & Hm & _).
  apply cursorInv_agree; [by rewrite Hb | done | done].
Qed.

Lemma trackSelection_selection e :
  nonneg (cursor e) -> nonneg (Anchor (selection e)) ->
  nonneg (Anchor (selection (trackSelection e))) /\
  nonneg (Head (selection (trackSelection e))).
Proof. unfold trackSelection. by destruct (Mode_eqb _ _). Qed.

Lemma cursorInv_nonneg e : cursorInv e -> nonneg (cursor e).
Proof. unfold cursorInv, nonneg. lia. Qed.

(** ** What the buffer primitives keep *)

Lemma GetLine_touch_middle b l1 x l2 n :
  n = len l1 -> GetLine (touch b (l1 ++ x :: l2)) n = x.
Proof.
  intros ->. apply GetLine_of_lookup; [apply len_nonneg |].
  cbn [lines touch]. unfold len. rewrite Nat2Z.id.
  by rewrite lookup_app_r, Nat.sub_diag by lia.
Qed.

Lemma InsertChar_keeps b pos ch b' pos' :
  InsertChar b pos ch = Done (b', pos') -> nonneg pos ->
  LineCount b' = LineCount b /\ nonneg pos' /\ (inBuffer b pos -> inBuffer b' pos').
Proof.
  intros H Hpos. destruct (Z.le_gt_cases (LineCount b) (Line pos)) as [Hl | Hl].
  - rewrite InsertChar_past in H by done. by inversion H; subst.
  - destruct Hpos as [Hp1 Hp2].
    rewrite InsertChar_in_range in H by lia. inversion H; subst; clear H.
    set (line := GetLine b (Line pos)). pose proof (len_nonneg line).
    unfold nonneg, inBuffer, lineLength, LineCount. cbn [lines touch Line Col].
    rewrite len_insert. repeat split; try lia.
    rewrite GetLine_touch_insert by (unfold LineCount; lia).
    rewrite Z.eqb_refl, !len_app, len_take, len_drop.
    pose proof (EncodeRune_len ch). lia.
Qed.

Lemma InsertNewline_keeps b pos b' pos' :
  InsertNewline b pos = Done (b', pos') -> nonneg pos ->
  LineCount b <= LineCount b' /\ nonneg pos' /\ (inBuffer b pos -> inBuffer b' pos').
Proof.
  intros H Hpos. destruct (Z.le_gt_cases (LineCount b) (Line pos)) as [Hl | Hl].
  - rewrite InsertNewline_past in H by done. inversion H; subst.
    split; [lia | by split].
  - destruct Hpos as [Hp1 Hp2].
    rewrite InsertNewline_in_range in H by lia. inversion H; subst; clear H.
    unfold nonneg, inBuffer, lineLength, LineCount in *. cbn [lines touch Line Col].
    set (ls' := take _ _ ++ _).
    assert (len ls' = len (lines b) + 1) as Hlen'.
    { unfold ls', len in *. rewrite length_app, length_take. cbn [length].
      rewrite length_drop. lia. }
    pose proof (len_nonneg (GetLine (touch b ls') (Line pos + 1))). lia.
Qed.

Lemma DeleteChar_keeps b pos b' pos' :
  DeleteChar b pos = Done (b', pos') -> nonneg pos -> 1 <= LineCount b ->
  1 <= LineCount b' /\ nonneg pos' /\ (inBuffer b pos -> inBuffer b' pos').
Proof.
  intros H [Hp1 Hp2] Hn.
  destruct (Z.le_gt_cases (LineCount b) (Line pos)) as [Hl | Hl].
  { rewrite DeleteChar_past in H by done. by inversion H; subst. }
  set (line := GetLine b (Line pos)) in *. pose proof (len_nonneg line).
  destruct (decide (0 < Col pos <= len line)) as [Hc | Hc].
  { rewrite DeleteChar_char in H by (fold line; lia). inversion H; subst; clear H.
    unfold nonneg, inBuffer, lineLength, LineCount. cbn [lines touch Line Col].
    rewrite len_insert. repeat split; try (unfold LineCount in *; lia).
    rewrite GetLine_touch_insert by (unfold LineCount; lia).
    rewrite Z.eqb_refl, !len_app, len_take, len_drop. fold line. lia. }
  destruct (decide (Col pos = 0 /\ 0 < Line pos)) as [[Hc0 Hl0] | Hm].
  { rewrite DeleteChar_merge in H by lia. inversion H; subst; clear H.
    set (prevLine := GetLine b (Line pos - 1)). pose proof (len_nonneg prevLine).
    unfold nonneg, inBuffer, lineLength. cbn [Line Col].
    assert (len (take (Z.to_nat (Line pos) - 1) (lines b)) = Line pos - 1) as Htake
      by (rewrite len_take; unfold LineCount in *; lia).
    rewrite GetLine_touch_middle by done.
    unfold LineCount in *. cbn [lines touch].
    set (rest := drop _ (lines b)). pose proof (len_nonneg rest).
    rewrite !len_app, !len_cons, Htake. fold line. lia. }
  rewrite DeleteChar_noop in H by (fold line; lia). by inversion H; subst.
Qed.

(** The loops of [Paste]. *)
Lemma insertRunes_keeps rs b pos b' pos' :
  insertRunes b pos rs = Done (b', pos') -> nonneg pos ->
  LineCount b' = LineCount b /\ nonneg pos' /\ (inBuffer b pos -> inBuffer b' pos').
Proof.
  revert b pos. induction rs as [| ch rs IH]; intros b pos H Hpos; cbn in H.
  - by inversion H; subst.
  - returned H. destruct r as [b1 pos1]. cbn [fst snd] in H.
    apply InsertChar_keeps in Hr as (Hn1 & Hp1 & Hi1); [| done].
    apply IH in H as (Hn2 & Hp2 & Hi2); [| done].
    split; [lia | split; [done | auto]].
Qed.

Lemma pasteLines_keeps ls b pos b' pos' :
  pasteLines b pos ls = Done (b', pos') -> nonneg pos ->
  LineCount b <= LineCount b' /\ nonneg pos' /\ (inBuffer b pos -> inBuffer b' pos').
Proof.
  revert b pos. induction ls as [| line ls IH]; intros b pos H Hpos; cbn in H.
  - inversion H; subst. split; [lia | by split].
  - returned H. destruct r as [b1 pos1]. cbn [fst snd] in H.
    apply insertRunes_keeps in Hr as (Hn1 & Hp1 & Hi1); [| done].
    destruct ls as [| line' ls'].
    + inversion H; subst. split; [lia | by split].
    + returned H. destruct r as [b2 pos2]. cbn [fst snd] in H.
      apply InsertNewline_keeps in Hr as (Hn2 & Hp2 & Hi2); [| done].
      apply IH in H as (Hn3 & Hp3 & Hi3); [| done].
      split; [lia | split; [done | auto]].
Qed.

(** ** Loading and saving *)

Lemma split_from_nonempty sep s skip cur : 1 <= len (split_from sep s skip cur).
Proof.
  revert skip cur. induction s as [| c s IH]; intros skip cur; cbn.
  - unfold len. cbn. lia.
  - destruct skip; [| apply IH].
    destruct (has_prefix sep (c :: s)); [| apply IH].
    rewrite len_cons. pose proof (IH (length sep - 1)%nat []). lia.
Qed.

Lemma LoadFile_LineCount b name read :
  1 <= LineCount b -> 1 <= LineCount (fst (LoadFile b name read)).
Proof.
  intros Hb. unfold LoadFile, LineCount.
  destruct read as [text | err].
  - cbn [fst lines]. destruct (string_eqb text []).
    + unfold len. cbn. lia.
    + apply split_from_nonempty.
  - destruct (IsNotExist err); cbn [fst lines]; [unfold len; cbn; lia | done].
Qed.

Lemma SaveFile_lines b werr : lines (fst (fst (SaveFile b werr))) = lines b.
Proof. unfold SaveFile. destruct (string_eqb _ _); [done |]. by destruct werr. Qed.

Lemma ExecuteCommand_frame e werr :
  let e' := fst (fst (ExecuteCommand e werr)) in
  lines (buffer e') = lines (buffer e) /\ cursor e' = cursor e /\
  selection e' = selection e /\ mode e' = mode e /\ clipboard e' = clipboard e.
Proof.
  unfold ExecuteCommand, Editor_SaveFile.
  pose proof (SaveFile_lines (buffer (with_command e [])) werr) as Hs.
  destruct (SaveFile (buffer (with_command e [])) werr) as [[b calls] err].
  cbn [fst] in Hs.
  repeat (destruct (string_eqb _ _)); try destruct (negb _); done.
Qed.

(** ** Shapes of the commands that scan the line *)

Lemma wordEnd_bounds rest end_ : end_ <= wordEnd rest end_ <= end_ + len rest.
Proof.
  revert end_. induction rest as [| ch rest IH]; intros end_; cbn [wordEnd].
  - unfold len. cbn. lia.
  - rewrite len_cons. pose proof (len_nonneg rest).
    destruct (isAlphaNum ch); [| lia]. specialize (IH (end_ + 1)). lia.
Qed.

Lemma MoveWordForward_shape e e' :
  MoveWordForward e = Done e' ->
  exists c, e' = trackSelection (clampCursor (with_cursor e c)).
Proof. unfold MoveWordForward. intros H. returned H. inversion H. eauto. Qed.

Lemma with_cursor_same e : with_cursor e (cursor e) = e.
Proof. by destruct e. Qed.

Lemma MoveWordBackward_shape e e' :
  MoveWordBackward e = Done e' ->
  exists c, e' = trackSelection (clampCursor (with_cursor e c)).
Proof.
  unfold MoveWordBackward. intros H. returned H. inversion H; subst; clear H.
  destruct (Col (cursor e) =? 0).
  - destruct (Line (cursor e) >? 0); inversion Hr; subst; [eauto |].
    exists (cursor r). by rewrite with_cursor_same.
  - returned Hr. inversion Hr. eauto.
Qed.

Lemma wordStart_bound line n m : wordStart line n = Done m -> (m <= n)%nat.
Proof.
  revert m. induction n as [| n IH]; intros m H; cbn [wordStart] in H.
  - inversion H. lia.
  - returned H. destruct (isAlphaNum r).
    + apply IH in H. lia.
    + inversion H. lia.
Qed.

Lemma SelectWord_shape e e' :
  SelectWord e = Done e' ->
  e' = e \/
  exists start end_,
    0 <= Z.of_nat start <= Col (cursor e) /\ Col (cursor e) <= end_ /\
    end_ <= len (GetLine (buffer e) (Line (cursor e))) /\
    e' = with_cursor
           (with_selection e {| Anchor := {| Line := Line (cursor e); Col := Z.of_nat start |};
                                Head := {| Line := Line (cursor e); Col := end_ |} |})
           {| Line := Line (cursor e); Col := end_ |}.
Proof.
  unfold SelectWord. intros H.
  destruct (Col (cursor e) >=? len _); [inversion H; auto |].
  returned H. destruct (negb (isAlphaNum r)); [inversion H; auto |].
  returned H. inversion H; subst; clear H. right.
  apply wordStart_bound in Hr0.
  apply slice_from_returned in Hr1 as [Hc ->].
  pose proof (wordEnd_bounds (drop (Z.to_nat (Col (cursor e)))
                                   (GetLine (buffer e) (Line (cursor e))))
                             (Col (cursor e))) as Hb.
  rewrite len_drop in Hb.
  eexists _, _. split; [| split; [| split; [| reflexivity]]]; lia.
Qed.

(** ** Invariants of the commands *)

Lemma reclamped_cursorInv e :
  1 <= LineCount (buffer e) -> cursorInv (trackSelection (clampCursor e)).
Proof. intros H. by apply trackSelection_cursorInv, clampCursor_cursorInv. Qed.

Lemma reclamped_baseInv e :
  1 <= LineCount (buffer e) -> nonneg (Anchor (selection e)) ->
  baseInv (trackSelection (clampCursor e)).
Proof.
  intros Hn Ha. pose proof (clampCursor_cursorInv e Hn) as Hc.
  apply cursorInv_nonneg in Hc.
  destruct (trackSelection_frame (clampCursor e)) as (Hb & Hcur & _).
  destruct (trackSelection_selection (clampCursor e) Hc Ha) as [? ?].
  unfold baseInv. rewrite Hb, Hcur. done.
Qed.

Lemma clamped_baseInv e :
  1 <= LineCount (buffer e) ->
  nonneg (Anchor (selection e)) -> nonneg (Head (selection e)) ->
  baseInv (clampCursor e).
Proof.
  intros Hn Ha Hh. pose proof (clampCursor_cursorInv e Hn) as Hc.
  apply cursorInv_nonneg in Hc. done.
Qed.

Lemma tracked_baseInv e :
  1 <= LineCount (buffer e) -> nonneg (cursor e) -> nonneg (Anchor (selection e)) ->
  baseInv (trackSelection e).
Proof.
  intros Hn Hc Ha.
  destruct (trackSelection_frame e) as (Hb & Hcur & _).
  destruct (trackSelection_selection e Hc Ha) as [? ?].
  unfold baseInv. rewrite Hb, Hcur. done.
Qed.

(** Every command keeps the buffer non-empty and the coordinates of the
    cursor and of the selection non-negative. *)
Lemma perform_baseInv e c e' : baseInv e -> perform e c = Done e' -> baseInv e'.
Proof.
  intros (Hn & Hc & Ha & Hh) H. destruct c; cbn [perform] in H.
  - (* LoadFile *)
    inversion H; subst; clear H. unfold Editor_LoadFile.
    pose proof (LoadFile_LineCount (buffer e) name read Hn) as Hl.
    destruct (LoadFile (buffer e) name read) as [b err]. by cbn in *.
  - (* SaveFile *)
    inversion H; subst; clear H. unfold Editor_SaveFile.
    pose proof (SaveFile_lines (buffer e) werr) as Hl.
    destruct (SaveFile (buffer e) werr) as [[b calls] err]. cbn in *.
    unfold baseInv, LineCount in *. cbn. by rewrite Hl.
  - (* SetMode *)
    inversion H; subst; clear H. unfold SetMode.
    by destruct (negb _).
  - (* MoveCursor *)
    inversion H; subst; clear H. by apply reclamped_baseInv.
  - (* MoveCursorTo *)
    inversion H; subst; clear H. by apply reclamped_baseInv.
  - (* MoveToLineStart *)
    inversion H; subst; clear H. apply tracked_baseInv; try done.
    split; cbn; [apply Hc | lia].
  - (* MoveToLineEnd *)
    inversion H; subst; clear H. apply tracked_baseInv; try done.
    split; cbn [with_cursor cursor Line Col]; [apply Hc |].
    pose proof (len_nonneg (GetLine (buffer e) (Line (cursor e)))).
    destruct (Mode_eqb _ _); cbn [andb]; zcase; lia.
  - (* MoveWordForward *)
    apply MoveWordForward_shape in H as [c ->]. by apply reclamped_baseInv.
  - (* MoveWordBackward *)
    apply MoveWordBackward_shape in H as [c ->]. by apply reclamped_baseInv.
  - (* SelectLine *)
    inversion H; subst; clear H.
    pose proof (len_nonneg (GetLine (buffer e) (Line (cursor e)))).
    destruct Hc. unfold baseInv, nonneg. cbn. lia.
  - (* SelectWord *)
    apply SelectWord_shape in H as [-> | (start & end_ & H0 & H1 & H2 & ->)]; [done |].
    destruct Hc. unfold baseInv, nonneg. cbn. lia.
  - (* DeleteSelection *)
    unfold Editor_DeleteSelection in H.
    destruct (negb (IsEmpty (selection e))); [| by inversion H; subst].
    returned H. inversion H; subst; clear H.
    pose proof (DeleteSelection_guard _ _ _ Hr) as [Hs He].
    rewrite DeleteSelection_in_range in Hr by done. inversion Hr; subst; clear Hr.
    cbn [fst snd].
    assert (nonneg (Start (selection e))) by (by apply Start_nonneg).
    apply clamped_baseInv; cbn; try done.
    apply removeRange_len. apply Hs.
  - (* YankSelection *)
    unfold YankSelection in H.
    destruct (negb _); [| by inversion H; subst].
    returned H. by inversion H; subst.
  - (* Paste *)
    unfold Paste in H. destruct (string_eqb _ _); [by inversion H; subst |].
    returned H. inversion H; subst; clear H. destruct r as [b' pos'].
    destruct (len _ =? 1).
    + apply insertRunes_keeps in Hr as (Hn' & Hp' & _); [| done].
      unfold baseInv. cbn. by rewrite Hn'.
    + apply pasteLines_keeps in Hr as (Hn' & Hp' & _); [| done].
      unfold baseInv. cbn. repeat split; try apply Hp'. lia.
  - (* InsertChar *)
    unfold Editor_InsertChar in H. returned H. inversion H; subst; clear H.
    destruct r as [b' pos'].
    apply InsertChar_keeps in Hr as (Hn' & Hp' & _); [| done].
    unfold baseInv. cbn. by rewrite Hn'.
  - (* InsertNewline *)
    unfold Editor_InsertNewline in H. returned H. inversion H; subst; clear H.
    destruct r as [b' pos'].
    apply InsertNewline_keeps in Hr as (Hn' & Hp' & _); [| done].
    unfold baseInv. cbn. repeat split; try apply Hp'. lia.
  - (* Backspace *)
    unfold Backspace in H. returned H. inversion H; subst; clear H.
    destruct r as [b' pos'].
    apply DeleteChar_keeps in Hr as (Hn' & Hp' & _); [| done | done].
    by apply clamped_baseInv.
  - (* AppendCommand *) by inversion H; subst.
  - (* BackspaceCommand *)
    inversion H; subst; clear H. unfold BackspaceCommand. by destruct (_ >? _).
  - (* ClearCommand *) by inversion H; subst.
  - (* ExecuteCommand *)
    inversion H; subst; clear H.
    destruct (ExecuteCommand_frame e werr) as (Hl & Hcur & Hsel & _).
    unfold baseInv, LineCount in *. by rewrite Hl, Hcur, Hsel.
Qed.

Lemma New_baseInv : baseInv New.
Proof. unfold baseInv, nonneg, LineCount, len. cbn. lia. Qed.

Lemma reachable_baseInv e : reachable e -> baseInv e.
Proof.
  induction 1 as [| e c e' _ IH H]; [apply New_baseInv |].
  by apply (perform_baseInv e c).
Qed.

Lemma inBuffer_nonneg b p : inBuffer b p -> nonneg p /\ 1 <= LineCount b.
Proof. unfold inBuffer, nonneg. lia. Qed.

(** Every command but [LoadFile] keeps the cursor inside the buffer. *)
Lemma perform_inBuffer e c e' :
  isLoadFile c = false -> inBuffer (buffer e) (cursor e) ->
  perform e c = Done e' -> inBuffer (buffer e') (cursor e').
Proof.
  intros Hload Hin H.
  destruct (inBuffer_nonneg _ _ Hin) as [Hc Hn].
  destruct c; cbn [perform] in H; try discriminate Hload.
  - (* SaveFile *)
    inversion H; subst; clear H. unfold Editor_SaveFile.
    pose proof (SaveFile_lines (buffer e) werr) as Hl.
    destruct (SaveFile (buffer e) werr) as [[b calls] err]. cbn in *.
    by apply (inBuffer_agree (buffer e)).
  - (* SetMode *)
    inversion H; subst; clear H. unfold SetMode. by destruct (negb _).
  - inversion H; subst; clear H. by apply cursorInv_inBuffer, reclamped_cursorInv.
  - inversion H; subst; clear H. by apply cursorInv_inBuffer, reclamped_cursorInv.
  - (* MoveToLineStart *)
    inversion H; subst; clear H. unfold MoveToLineStart.
    destruct (trackSelection_frame
                (with_cursor e {| Line := Line (cursor e); Col := 0 |})) as (-> & -> & _).
    unfold inBuffer, lineLength in *. cbn. lia.
  - (* MoveToLineEnd *)
    inversion H; subst; clear H. unfold MoveToLineEnd.
    match goal with |- context [trackSelection ?x] =>
      destruct (trackSelection_frame x) as (-> & -> & _) end.
    unfold inBuffer, lineLength in *. cbn [with_cursor buffer cursor Line Col].
    destruct (Mode_eqb _ _); cbn [andb]; zcase; lia.
  - apply MoveWordForward_shape in H as [c ->].
    by apply cursorInv_inBuffer, reclamped_cursorInv.
  - apply MoveWordBackward_shape in H as [c ->].
    by apply cursorInv_inBuffer, reclamped_cursorInv.
  - (* SelectLine *)
    inversion H; subst; clear H. unfold inBuffer, lineLength in *. cbn. lia.
  - (* SelectWord *)
    apply SelectWord_shape in H as [-> | (start & end_ & H0 & H1 & H2 & ->)]; [done |].
    unfold inBuffer, lineLength in *. cbn. lia.
  - (* DeleteSelection *)
    unfold Editor_DeleteSelection in H.
    destruct (negb (IsEmpty (selection e))); [| by inversion H; subst].
    returned H. inversion H; subst; clear H.
    pose proof (DeleteSelection_guard _ _ _ Hr) as [Hs He].
    rewrite DeleteSelection_in_range in Hr by done. inversion Hr; subst; clear Hr.
    apply cursorInv_inBuffer, clampCursor_cursorInv. cbn.
    apply removeRange_len. apply Hs.
  - (* YankSelection *)
    unfold YankSelection in H. destruct (negb _); [| by inversion H; subst].
    returned H. by inversion H; subst.
  - (* Paste *)
    unfold Paste in H. destruct (string_eqb _ _); [by inversion H; subst |].
    returned H. inversion H; subst; clear H. destruct r as [b' pos'].
    destruct (len _ =? 1).
    + apply insertRunes_keeps in Hr as (_ & _ & Hi); [| done]. by apply Hi.
    + apply pasteLines_keeps in Hr as (_ & _ & Hi); [| done]. by apply Hi.
  - (* InsertChar *)
    unfold Editor_InsertChar in H. returned H. inversion H; subst; clear H.
    destruct r as [b' pos'].
    apply InsertChar_keeps in Hr as (_ & _ & Hi); [| done]. by apply Hi.
  - (* InsertNewline *)
    unfold Editor_InsertNewline in H. returned H. inversion H; subst; clear H.
    destruct r as [b' pos'].
    apply InsertNewline_keeps in Hr as (_ & _ & Hi); [| done]. by apply Hi.
  - (* Backspace *)
    unfold Backspace in H. returned H. inversion H; subst; clear H.
    destruct r as [b' pos'].
    apply DeleteChar_keeps in Hr as (Hn' & _ & _); [| done | done].
    by apply cursorInv_inBuffer, clampCursor_cursorInv.
  - by inversion H; subst.
  - inversion H; subst; clear H. unfold BackspaceCommand. by destruct (_ >? _).
  - by inversion H; subst.
  - (* ExecuteCommand *)
    inversion H; subst; clear H.
    destruct (ExecuteCommand_frame e werr) as (Hl & Hcur & _).
    rewrite Hcur. by apply (inBuffer_agree (buffer e)).
Qed.

(** The commands that end in [clampCursor] establish the invariant. *)
Lemma perform_reclamps e c e' :
  1 <= LineCount (buffer e) -> reclamps e c = true ->
  perform e c = Done e' -> cursorInv e'.
Proof.
  intros Hn Hre H.
  destruct c; cbn [perform reclamps] in H, Hre; try discriminate Hre.
  - inversion H; subst; clear H. by apply reclamped_cursorInv.
  - inversion H; subst; clear H. by apply reclamped_cursorInv.
  - apply MoveWordForward_shape in H as [c ->]. by apply reclamped_cursorInv.
  - apply MoveWordBackward_shape in H as [c ->]. by apply reclamped_cursorInv.
  - unfold Editor_DeleteSelection in H. rewrite Hre in H.
    returned H. inversion H; subst; clear H.
    pose proof (DeleteSelection_guard _ _ _ Hr) as [Hs He].
    rewrite DeleteSelection_in_range in Hr by done. inversion Hr; subst; clear Hr.
    apply clampCursor_cursorInv. cbn. apply removeRange_len. apply Hs.
  - unfold Backspace in H. returned H. inversion H; subst; clear H.
    destruct r as [b' pos'].
    destruct (Z.le_gt_cases (LineCount (buffer e)) (Line (cursor e))) as [Hl | Hl].
    + rewrite DeleteChar_past in Hr by done. inversion Hr; subst.
      by apply clampCursor_cursorInv.
    + pose proof (DeleteChar_guard _ _ _ Hr Hl) as Hl0.
      apply clampCursor_cursorInv. cbn.
      set (line := GetLine (buffer e) (Line (cursor e))) in *.
      destruct (decide (0 < Col (cursor e) <= len line)) as [Hc | Hc].
      { rewrite DeleteChar_char in Hr by (fold line; lia).
        inversion Hr; subst. unfold LineCount in *. cbn. by rewrite len_insert. }
      destruct (decide (Col (cursor e) = 0 /\ 0 < Line (cursor e))) as [[Hc0 Hl1] | Hm].
      { rewrite DeleteChar_merge in Hr by lia. inversion Hr; subst.
        unfold LineCount. cbn [lines touch]. rewrite len_app, len_cons.
        pose proof (len_nonneg (take (Z.to_nat (Line (cursor e)) - 1)
                                     (lines (buffer e)))).
        pose proof (len_nonneg (drop (S (Z.to_nat (Line (cursor e))))
                                     (lines (buffer e)))).
        lia. }
      rewrite DeleteChar_noop in Hr by (fold line; lia). by inversion Hr; subst.
Qed.

Lemma reachable_performAll cs e e' :
  reachable e -> performAll e cs = Done e' -> reachable e'.
Proof.
  revert e. induction cs as [| c cs IH]; intros e He H; cbn in H.
  - by inversion H; subst.
  - returned H. apply (IH r); [| done]. by apply (reachable_step e c).
Qed.

(** * The cursor after a command *)

Lemma onLetter_reachable : reachable onLetter.
Proof.
  apply (reachable_performAll
           [CSetMode ModeInsert; CInsertChar 97; CMoveCursor 0 (-1); CSetMode ModeNormal]
           New);
    [apply reachable_New | reflexivity].
Qed.

Lemma lineSelected_reachable : reachable lineSelected.
Proof.
  apply (reachable_step onLetter CSelectLine); [apply onLetter_reachable | reflexivity].
Qed.

(** C1, as stated, fails: in Normal mode on the line "a" with the cursor
    at column 0 (a reachable state that satisfies the invariant),
    [SelectLine] returns with the cursor at column 1, past the Normal-mode
    bound max(1-1, 0) = 0. *)
Lemma C1_counterexample :
  reachable onLetter /\ cursorInv onLetter /\
  perform onLetter CSelectLine = Done lineSelected /\
  ~ cursorInv lineSelected.
Proof.
  split; [apply onLetter_reachable |]. split; [| split; [reflexivity |]].
  - unfold cursorInv, colBound, lineLength, LineCount. cbn. eval_len. lia.
  - unfold cursorInv, colBound, lineLength, LineCount. cbn. eval_len. lia.
Qed.

(** The same through the key handlers of the program: "x" ([SelectLine],
    then Visual mode) and "y" ([YankSelection], then Normal mode) leave
    the cursor past the end of the line in Normal mode. *)
Lemma select_line_then_yank :
  exists e,
    performAll onLetter [CSelectLine; CSetMode ModeVisual; CYankSelection; CSetMode ModeNormal]
    = Done e /\ mode e = ModeNormal /\ ~ cursorInv e.
Proof.
  eexists. split; [reflexivity |]. split; [reflexivity |].
  unfold cursorInv, colBound, lineLength, LineCount. cbn. eval_len. lia.
Qed.

(** ** The commands that do not re-clamp *)

Lemma onCharacter_cursorInv e : onCharacter (buffer e) (cursor e) -> cursorInv e.
Proof.
  unfold onCharacter, cursorInv, colBound. intros [Hl Hc].
  split; [done |]. destruct (mode e); lia.
Qed.

Lemma InsertChar_onCharacter b pos ch b' pos' :
  InsertChar b pos ch = Done (b', pos') -> onCharacter b pos -> onCharacter b' pos'.
Proof.
  intros H [Hl Hc]. unfold lineLength in Hc.
  rewrite InsertChar_in_range in H by lia. inversion H; subst; clear H.
  set (line := GetLine b (Line pos)) in *.
  unfold onCharacter, lineLength, LineCount. cbn [lines touch Line Col].
  rewrite len_insert. split; [done |].
  rewrite GetLine_touch_insert by lia.
  rewrite Z.eqb_refl, !len_app, len_take, len_drop.
  pose proof (EncodeRune_len ch). lia.
Qed.

Lemma InsertNewline_onCharacter b pos b' pos' :
  InsertNewline b pos = Done (b', pos') -> onCharacter b pos -> onCharacter b' pos'.
Proof.
  intros H [Hl Hc]. unfold lineLength in Hc.
  rewrite InsertNewline_in_range in H by lia. inversion H; subst; clear H.
  set (line := GetLine b (Line pos)) in *.
  set (col := Z.to_nat (Z.min (Col pos) (len line))).
  set (n := Z.to_nat (Line pos)).
  assert (take n (lines b) ++ take col line :: drop col line :: drop (S n) (lines b)
          = (take n (lines b) ++ [take col line]) ++ drop col line :: drop (S n) (lines b))
    as Hmid by (by rewrite <- app_assoc).
  cbn [app]. rewrite Hmid.
  assert (len (take n (lines b) ++ [take col line]) = Line pos + 1) as Hlen.
  { rewrite len_app, len_take, len_singleton. unfold LineCount in Hl. lia. }
  unfold onCharacter, lineLength. cbn [Line Col].
  rewrite GetLine_touch_middle by done. unfold LineCount. cbn [lines touch].
  rewrite len_app, Hlen, len_cons, !len_drop. unfold col. lia.
Qed.

Lemma insertRunes_onCharacter rs b pos b' pos' :
  insertRunes b pos rs = Done (b', pos') -> onCharacter b pos -> onCharacter b' pos'.
Proof.
  revert b pos. induction rs as [| ch rs IH]; intros b pos H Hpos; cbn in H.
  - by inversion H; subst.
  - returned H. destruct r as [b1 pos1]. cbn [fst snd] in H.
    apply (IH b1 pos1); [done |]. by apply (InsertChar_onCharacter b pos ch).
Qed.

Lemma pasteLines_onCharacter ls b pos b' pos' :
  pasteLines b pos ls = Done (b', pos') -> onCharacter b pos -> onCharacter b' pos'.
Proof.
  revert b pos. induction ls as [| line ls IH]; intros b pos H Hpos; cbn in H.
  - by inversion H; subst.
  - returned H. destruct r as [b1 pos1]. cbn [fst snd] in H.
    apply insertRunes_onCharacter in Hr; [| done].
    destruct ls as [| line' ls'].
    + by inversion H; subst.
    + returned H. destruct r as [b2 pos2]. cbn [fst snd] in H.
      apply (IH b2 pos2); [done |]. by apply (InsertNewline_onCharacter b1 pos1).
Qed.

(** [MoveToLineStart], [MoveToLineEnd] and [InsertNewline] put the
    cursor within the bound of the mode. *)
Lemma perform_places e c e' :
  placesCursor c = true -> 0 <= Line (cursor e) < LineCount (buffer e) ->
  0 <= Col (cursor e) -> perform e c = Done e' -> cursorInv e'.
Proof.
  intros Hc Hl Hcol H.
  pose proof (len_nonneg (GetLine (buffer e) (Line (cursor e)))) as Hlen.
  destruct c; cbn [perform placesCursor] in H, Hc; try discriminate Hc.
  - (* MoveToLineStart *)
    inversion H; subst; clear H. apply trackSelection_cursorInv.
    unfold cursorInv, colBound, lineLength. cbn [with_cursor cursor buffer mode Line Col].
    split; [done |]. destruct (mode e); lia.
  - (* MoveToLineEnd *)
    inversion H; subst; clear H. apply trackSelection_cursorInv.
    unfold cursorInv, colBound, lineLength. cbn [with_cursor cursor buffer mode Line Col].
    split; [done |]. destruct (mode e); cbn [Mode_eqb andb]; zcase; lia.
  - (* InsertNewline *)
    unfold Editor_InsertNewline in H.
    rewrite InsertNewline_in_range in H by done. cbn [bind fst snd] in H.
    inversion H; subst; clear H.
    unfold cursorInv, colBound, lineLength, LineCount in *.
    cbn [with_selection with_cursor with_buffer cursor buffer mode Line Col lines touch].
    set (ls' := take _ _ ++ _).
    assert (len ls' = len (lines (buffer e)) + 1) as Hlen'.
    { unfold ls', len in *. rewrite length_app, length_take. cbn [length].
      rewrite length_drop. lia. }
    pose proof (len_nonneg (GetLine (touch (buffer e) ls') (Line (cursor e) + 1))).
    split; [lia |]. destruct (mode e); lia.
Qed.

(** The commands that neither set the mode nor leave the cursor at the
    end of a selection or of inserted text keep the invariant. *)
Lemma perform_keepsBound e c e' :
  keepsBound c = true -> cursorInv e -> perform e c = Done e' -> cursorInv e'.
Proof.
  intros Hk Hinv H.
  assert (1 <= LineCount (buffer e)) as Hn by (destruct Hinv; lia).
  assert (0 <= Line (cursor e) < LineCount (buffer e) /\ 0 <= Col (cursor e))
    as [Hl Hcol] by (destruct Hinv; lia).
  destruct c; try discriminate Hk;
    try (refine (perform_reclamps e _ e' Hn _ H); reflexivity);
    try (refine (perform_places e _ e' _ Hl Hcol H); reflexivity);
    cbn [perform] in H.
  - (* SaveFile *)
    inversion H; subst; clear H. unfold Editor_SaveFile.
    pose proof (SaveFile_lines (buffer e) werr) as Hs.
    destruct (SaveFile (buffer e) werr) as [[b calls] err]. cbn [fst] in *.
    by apply (cursorInv_agree e).
  - (* DeleteSelection *)
    destruct (IsEmpty (selection e)) eqn:E.
    + unfold Editor_DeleteSelection in H. rewrite E in H. by inversion H; subst.
    + apply (perform_reclamps e CDeleteSelection e' Hn); [| done].
      cbn [reclamps]. by rewrite E.
  - (* YankSelection *)
    unfold YankSelection in H. destruct (negb _); [| by inversion H; subst].
    returned H. inversion H; subst; clear H. by apply (cursorInv_agree e).
  - inversion H; subst. by apply (cursorInv_agree e).
  - inversion H; subst. unfold BackspaceCommand.
    destruct (_ >? _); [by apply (cursorInv_agree e) | done].
  - inversion H; subst. by apply (cursorInv_agree e).
  - (* ExecuteCommand *)
    inversion H; subst; clear H.
    destruct (ExecuteCommand_frame e werr) as (Hls & Hc & _ & Hm & _).
    by apply (cursorInv_agree e).
Qed.

(** Text inserted before a character leaves the cursor on that
    character: on a line that is not empty, [InsertChar] and [Paste]
    keep the invariant. *)
Lemma perform_insertsText e c e' :
  insertsText c = true -> cursorInv e -> 0 < lineLength (buffer e) (cursor e) ->
  perform e c = Done e' -> cursorInv e'.
Proof.
  intros Hc Hinv Hlen H.
  assert (mode e' = mode e /\
          (onCharacter (buffer e) (cursor e) -> onCharacter (buffer e') (cursor e')))
    as [Hm Hon].
  { destruct c; cbn [perform insertsText] in H, Hc; try discriminate Hc.
    - unfold Paste in H. destruct (string_eqb _ _); [by inversion H; subst |].
      returned H. inversion H; subst; clear H. destruct r as [b' pos'].
      split; [done |]. cbn [fst snd with_selection with_cursor with_buffer buffer cursor].
      intros Hon. destruct (len _ =? 1).
      + by apply (insertRunes_onCharacter _ _ _ _ _ Hr).
      + by apply (pasteLines_onCharacter _ _ _ _ _ Hr).
    - unfold Editor_InsertChar in H. returned H. inversion H; subst; clear H.
      destruct r as [b' pos']. split; [done |].
      cbn [fst snd with_selection with_cursor with_buffer buffer cursor].
      by apply (InsertChar_onCharacter _ _ ch). }
  assert (mode e = ModeNormal \/ mode e <> ModeNormal) as [Hnormal | Hother]
    by (destruct (mode e); auto; by right).
  - apply onCharacter_cursorInv, Hon.
    unfold cursorInv, colBound in Hinv. rewrite Hnormal in Hinv.
    unfold onCharacter. lia.
  - apply inBuffer_cursorInv; [by rewrite Hm |].
    apply (perform_inBuffer e c); [by destruct c | by apply cursorInv_inBuffer | done].
Qed.

(** [SetMode] to the mode the editor is in, and [LoadFile] with the
    cursor at the origin, keep the invariant too. *)
Lemma SetMode_same_cursorInv e : cursorInv e -> cursorInv (SetMode e (mode e)).
Proof.
  apply cursorInv_agree; unfold SetMode; by destruct (mode e).
Qed.

Lemma LoadFile_origin_cursorInv e name read :
  1 <= LineCount (buffer e) -> cursor e = {| Line := 0; Col := 0 |} ->
  cursorInv (fst (Editor_LoadFile e name read)).
Proof.
  intros Hn Hc. unfold Editor_LoadFile.
  pose proof (LoadFile_LineCount (buffer e) name read Hn) as Hn'.
  destruct (LoadFile (buffer e) name read) as [b err]. cbn [fst] in *.
  unfold cursorInv, colBound, lineLength. cbn [with_buffer cursor buffer mode].
  rewrite Hc. cbn [Line Col].
  pose proof (len_nonneg (GetLine b 0)). split; [lia |]. destruct (mode e); lia.
Qed.

(** What the amended claim leaves out, besides [SelectLine] and
    [SelectWord]: [SetMode] to Normal mode does not pull the cursor
    back from the end of the line, [InsertChar] and [Paste] on an empty
    line leave it after the text, and [LoadFile] keeps a cursor that
    may be past the new buffer. *)
Lemma commands_that_skip_the_clamp :
  (exists e, performAll New [CSetMode ModeInsert; CInsertChar 97; CSetMode ModeNormal]
             = Done e /\ ~ cursorInv e) /\
  (exists e, performAll New [CInsertChar 97] = Done e /\ ~ cursorInv e) /\
  (exists e, performAll lineSelected [CYankSelection; CDeleteSelection; CPaste]
             = Done e /\ ~ cursorInv e) /\
  (exists e, performAll New [CSetMode ModeInsert; CInsertNewline;
                             CLoadFile (str "f") (ReadErr ErrNotExist)]
             = Done e /\ ~ cursorInv e).
Proof.
  split; [| split; [| split]]; eexists; (split; [vm_compute; reflexivity |]);
    unfold cursorInv, colBound, lineLength, LineCount; cbn; eval_len; lia.
Qed.

(** C1, amended: in every reachable state, a command that ends by
    re-clamping the cursor ([MoveCursor], [MoveCursorTo],
    [MoveWordForward], [MoveWordBackward], [Backspace], and
    [DeleteSelection] on a non-empty selection) returns with
    0 <= line < LineCount and the column within the mode-specific
    bound; so do [MoveToLineStart], [MoveToLineEnd] and [InsertNewline]
    from a cursor on a line of the buffer.  Every command but
    [LoadFile], [SetMode], [SelectLine], [SelectWord], [Paste] and
    [InsertChar] keeps the invariant; so do [InsertChar] and [Paste] on
    a line that is not empty, [SetMode] to the mode the editor is in,
    and [LoadFile] with the cursor at the origin.  Every command except
    [LoadFile] (among them [SelectLine] and [SelectWord], which put the
    cursor at the end of the selection) keeps a cursor that was inside
    the buffer inside it: 0 <= line < LineCount and
    0 <= col <= lineLength, which is the invariant in every mode but
    Normal. *)
Theorem C1_cursor_after_command e c e' :
  reachable e -> perform e c = Done e' ->
  (reclamps e c = true -> cursorInv e') /\
  (placesCursor c = true -> 0 <= Line (cursor e) < LineCount (buffer e) ->
   cursorInv e') /\
  (keepsBound c = true -> cursorInv e -> cursorInv e') /\
  (insertsText c = true -> cursorInv e -> 0 < lineLength (buffer e) (cursor e) ->
   cursorInv e') /\
  (c = CSetMode (mode e) -> cursorInv e -> cursorInv e') /\
  (isLoadFile c = true -> cursor e = {| Line := 0; Col := 0 |} -> cursorInv e') /\
  (isLoadFile c = false -> inBuffer (buffer e) (cursor e) ->
   inBuffer (buffer e') (cursor e') /\ (mode e' <> ModeNormal -> cursorInv e')).
Proof.
  intros He H. apply reachable_baseInv in He as (Hn & [_ Hcol] & _).
  split; [| split; [| split; [| split; [| split; [| split]]]]].
  - intros Hre. by apply (perform_reclamps e c).
  - intros Hpl Hl. by apply (perform_places e c).
  - intros Hk Hinv. by apply (perform_keepsBound e c).
  - intros Hins Hinv Hlen. by apply (perform_insertsText e c).
  - intros -> Hinv. cbn [perform] in H. inversion H; subst.
    by apply SetMode_same_cursorInv.
  - intros Hload Hc. destruct c; try discriminate Hload.
    cbn [perform] in H. inversion H; subst. by apply LoadFile_origin_cursorInv.
  - intros Hload Hin.
    assert (inBuffer (buffer e') (cursor e')) as Hin' by (by apply (perform_inBuffer e c)).
    split; [done |]. intros Hm. by apply inBuffer_cursorInv.
Qed.

Lemma C1_cursor_after_command_witness :
  cursorInv (MoveCursor onLetter 0 1) /\
  cursorInv (MoveToLineEnd onLetter) /\
  inBuffer (buffer lineSelected) (cursor lineSelected) /\
  cursorInv (SetMode lineSelected ModeVisual).
Proof.
  assert (inBuffer (buffer onLetter) (cursor onLetter)) as Hin
    by (unfold inBuffer, lineLength, LineCount; cbn; eval_len; lia).
  split; [| split; [| split]].
  - destruct (C1_cursor_after_command onLetter (CMoveCursor 0 1) (MoveCursor onLetter 0 1)
                onLetter_reachable eq_refl) as (Hre & _).
    by apply Hre.
  - destruct (C1_cursor_after_command onLetter CMoveToLineEnd (MoveToLineEnd onLetter)
                onLetter_reachable eq_refl) as (_ & Hpl & _).
    apply Hpl; [reflexivity | apply Hin].
  - destruct (C1_cursor_after_command onLetter CSelectLine lineSelected
                onLetter_reachable eq_refl) as (_ & _ & _ & _ & _ & _ & Hin').
    by apply Hin'.
  - destruct (C1_cursor_after_command lineSelected (CSetMode ModeVisual)
                (SetMode lineSelected ModeVisual) lineSelected_reachable eq_refl)
      as (_ & _ & _ & _ & _ & _ & Hin').
    apply Hin'; [reflexivity | | discriminate].
    unfold inBuffer, lineLength, LineCount. cbn. eval_len. lia.
Defined.

(** * Out-of-range coordinates

    The primitives guard the line against the line count only from
    above, and [DeleteSelection] has no guard at all: at a non-negative
    position [InsertChar], [InsertNewline] and [DeleteChar] return, and
    whenever they return they keep the buffer non-empty. *)

Lemma InsertChar_LineCount b pos ch b' pos' :
  InsertChar b pos ch = Done (b', pos') -> LineCount b' = LineCount b.
Proof.
  intros H. destruct (Z.le_gt_cases (LineCount b) (Line pos)) as [Hl | Hl].
  - rewrite InsertChar_past in H by done. by inversion H; subst.
  - pose proof (InsertChar_guard _ _ _ _ H Hl) as Hp.
    by apply InsertChar_keeps in H as (? & _).
Qed.

Lemma InsertNewline_LineCount b pos b' pos' :
  InsertNewline b pos = Done (b', pos') -> LineCount b <= LineCount b'.
Proof.
  intros H. destruct (Z.le_gt_cases (LineCount b) (Line pos)) as [Hl | Hl].
  - rewrite InsertNewline_past in H by done. inversion H; subst. lia.
  - pose proof (InsertNewline_guard _ _ _ H Hl) as Hp.
    by apply InsertNewline_keeps in H as (? & _).
Qed.

Lemma DeleteChar_LineCount b pos b' pos' :
  DeleteChar b pos = Done (b', pos') -> 1 <= LineCount b -> 1 <= LineCount b'.
Proof.
  intros H Hn. destruct (Z.le_gt_cases (LineCount b) (Line pos)) as [Hl | Hl].
  { rewrite DeleteChar_past in H by done. by inversion H; subst. }
  pose proof (DeleteChar_guard _ _ _ H Hl) as Hl0.
  destruct (decide (0 <= Col pos)) as [Hc | Hc].
  { by apply DeleteChar_keeps in H as (? & _). }
  rewrite DeleteChar_noop in H by lia. by inversion H; subst.
Qed.

Lemma InsertChar_returns b pos ch :
  nonneg pos -> exists r, InsertChar b pos ch = Done r.
Proof.
  intros [Hl Hc]. destruct (Z.le_gt_cases (LineCount b) (Line pos)).
  - rewrite InsertChar_past by done. eauto.
  - rewrite InsertChar_in_range by lia. eauto.
Qed.

Lemma InsertNewline_returns b pos :
  nonneg pos -> exists r, InsertNewline b pos = Done r.
Proof.
  intros [Hl Hc]. destruct (Z.le_gt_cases (LineCount b) (Line pos)).
  - rewrite InsertNewline_past by done. eauto.
  - rewrite InsertNewline_in_range by lia. eauto.
Qed.

Lemma DeleteChar_returns b pos :
  nonneg pos -> exists r, DeleteChar b pos = Done r.
Proof.
  intros [Hl Hc]. destruct (Z.le_gt_cases (LineCount b) (Line pos)).
  { rewrite DeleteChar_past by done. eauto. }
  destruct (decide (0 < Col pos <= len (GetLine b (Line pos)))).
  { rewrite DeleteChar_char by lia. eauto. }
  destruct (decide (Col pos = 0 /\ 0 < Line pos)).
  { rewrite DeleteChar_merge by lia. eauto. }
  rewrite DeleteChar_noop by lia. eauto.
Qed.

(** C2: the buffer primitives do raise on out-of-range coordinates.  On
    the buffer of the single line "ab": [DeleteSelection] panics on a
    selection whose end column is past the line and on one whose end
    line is past the buffer; [InsertChar], [InsertNewline] and
    [DeleteChar] panic on a negative line, [InsertChar] on a negative
    column, and [GetSelectedText] on a negative start column. *)
Lemma C2_out_of_range_panics :
  DeleteSelection oneLine {| Anchor := at_ 0 0; Head := at_ 0 5 |} = Panic /\
  DeleteSelection oneLine {| Anchor := at_ 0 0; Head := at_ 3 0 |} = Panic /\
  InsertChar oneLine (at_ (-1) 0) 120 = Panic /\
  InsertChar oneLine (at_ 0 (-1)) 120 = Panic /\
  InsertNewline oneLine (at_ (-1) 0) = Panic /\
  DeleteChar oneLine (at_ (-1) 0) = Panic /\
  GetSelectedText oneLine {| Anchor := at_ 0 (-1); Head := at_ 0 1 |} = Panic.
Proof. repeat split; reflexivity. Qed.

(** * The buffer always has a line *)

(** C3: every buffer operation leaves at least one line.  From a buffer
    with at least one line: [NewBuffer] and [LoadFile] give one;
    [InsertChar], [InsertNewline] and [DeleteChar] return a buffer with
    at least one line, and can only fail to return at a negative
    coordinate; [DeleteSelection] on a selection whose ends are in the
    buffer returns a buffer with at least one line. *)
Theorem C3_lines_never_empty b :
  1 <= LineCount b ->
  1 <= LineCount NewBuffer /\
  (forall name read, 1 <= LineCount (fst (LoadFile b name read))) /\
  (forall pos ch,
     match InsertChar b pos ch with
     | Done (b', _) => 1 <= LineCount b'
     | Panic => ~ nonneg pos
     end) /\
  (forall pos,
     match InsertNewline b pos with
     | Done (b', _) => 1 <= LineCount b'
     | Panic => ~ nonneg pos
     end) /\
  (forall pos,
     match DeleteChar b pos with
     | Done (b', _) => 1 <= LineCount b'
     | Panic => ~ nonneg pos
     end) /\
  (forall sel, inBuffer b (Start sel) -> inBuffer b (End sel) ->
     exists b' pos', DeleteSelection b sel = Done (b', pos') /\ 1 <= LineCount b').
Proof.
  intros Hn. split; [unfold LineCount; cbn; eval_len; lia |].
  split; [intros; by apply LoadFile_LineCount |].
  split; [| split; [| split]].
  - intros pos ch. destruct (InsertChar b pos ch) as [[b' pos'] |] eqn:H.
    + apply InsertChar_LineCount in H. lia.
    + intros Hp. destruct (InsertChar_returns b pos ch Hp) as [r Hr]. congruence.
  - intros pos. destruct (InsertNewline b pos) as [[b' pos'] |] eqn:H.
    + apply InsertNewline_LineCount in H. lia.
    + intros Hp. destruct (InsertNewline_returns b pos Hp) as [r Hr]. congruence.
  - intros pos. destruct (DeleteChar b pos) as [[b' pos'] |] eqn:H.
    + by apply DeleteChar_LineCount in H.
    + intros Hp. destruct (DeleteChar_returns b pos Hp) as [r Hr]. congruence.
  - intros sel Hs He. rewrite DeleteSelection_in_range by done.
    eexists _, _. split; [reflexivity |].
    unfold LineCount. cbn [lines touch]. apply removeRange_len. apply Hs.
Qed.

Lemma C3_lines_never_empty_witness :
  1 <= LineCount (fst (LoadFile twoLines (str "f") (ReadOk []))) /\
  exists b' pos',
    DeleteSelection twoLines {| Anchor := at_ 0 1; Head := at_ 1 1 |} = Done (b', pos')
    /\ 1 <= LineCount b'.
Proof.
  assert (1 <= LineCount twoLines) as Hn
    by (unfold LineCount; cbn; eval_len; lia).
  destruct (C3_lines_never_empty twoLines Hn) as (_ & Hload & _ & _ & _ & Hdel).
  split; [apply Hload |].
  apply Hdel; unfold inBuffer, lineLength, LineCount; cbn; eval_len; lia.
Defined.

(** * The command line *)

Lemma string_eqb_eq a b : string_eqb a b = true <-> a = b.
Proof. unfold string_eqb. apply bool_decide_eq_true. Qed.

Lemma string_eqb_neq a b : string_eqb a b = false <-> a <> b.
Proof. unfold string_eqb. apply bool_decide_eq_false. Qed.

(** ** Bytes *)

Lemma byteval_range b : 0 <= byteval b < 256.
Proof.
  unfold byteval. pose proof (N_ascii_bounded b) as H. lia.
Qed.

Lemma byte_of_byteval b : byte_of (byteval b) = b.
Proof.
  unfold byte_of. rewrite Z.mod_small by apply byteval_range.
  unfold byteval. rewrite N2Z.id. apply ascii_N_embedding.
Qed.

Lemma byteval_inj a b : byteval a = byteval b -> a = b.
Proof.
  intros H. rewrite <- (byte_of_byteval a), <- (byte_of_byteval b). by rewrite H.
Qed.

Lemma map_byteval_inj l1 l2 : map byteval l1 = map byteval l2 -> l1 = l2.
Proof.
  revert l2. induction l1 as [| a l1 IH]; intros [| b l2] H; try done.
  cbn in H. inversion H as [[Ha Hl]]. f_equal; [by apply byteval_inj | by apply IH].
Qed.

Lemma EncodeRune_byte b : byteval b < 0x80 -> EncodeRune (byteval b) = [b].
Proof.
  intros H. pose proof (byteval_range b). unfold EncodeRune.
  destruct ((0 <=? byteval b) && (byteval b <=? 0x7F)) eqn:E; [| zcase; lia].
  by rewrite byte_of_byteval.
Qed.

Lemma in_bytesFrom lo hi z : lo <= z <= hi -> In z (bytesFrom lo hi).
Proof.
  intros H. unfold bytesFrom. apply in_map_iff.
  exists (Z.to_nat (z - lo)). split; [lia |]. apply in_seq. lia.
Qed.

(** ** White-space runes and their encodings *)

Lemma IsSpace_spaceRunes r : IsSpace r = true -> In r spaceRunes.
Proof.
  unfold IsSpace, between, spaceRunes. intros H. cbn [In].
  destruct ((0 <=? r) && (r <=? 0xFF)) eqn:E; zcase; lia.
Qed.

(** Checked by evaluation over the bytes the decoder accepts: a
    white-space rune is decoded from its own encoding only, and never
    from a sequence of four bytes. *)
Lemma spaces2_ok :
  forallb (fun s0 => forallb (fun s1 =>
    implb (IsSpace (rune2 s0 s1))
          (bool_decide (map byteval (EncodeRune (rune2 s0 s1)) = [s0; s1])))
    (bytesFrom 0x80 0xBF)) (bytesFrom 0xC2 0xDF) = true.
Proof. vm_compute. reflexivity. Qed.

Lemma spaces3_ok :
  forallb (fun s0 => forallb (fun s1 => forallb (fun s2 =>
    implb (accepted s0 s1 && IsSpace (rune3 s0 s1 s2))
          (bool_decide (map byteval (EncodeRune (rune3 s0 s1 s2)) = [s0; s1; s2])))
    (bytesFrom 0x80 0xBF)) (bytesFrom 0x80 0xBF)) (bytesFrom 0xE0 0xEF) = true.
Proof. vm_compute. reflexivity. Qed.

Lemma heads4_ok :
  forallb (fun s0 => forallb (fun s1 =>
    implb (accepted s0 s1)
          (16 <=? Z.log2 (Z.lor (Z.shiftl (Z.land s0 0x07) 18)
                                (Z.shiftl (Z.land s1 0x3F) 12))))
    (bytesFrom 0x80 0xBF)) (bytesFrom 0xF0 0xF4) = true.
Proof. vm_compute. reflexivity. Qed.

(** A sequence of four bytes the decoder accepts is a rune past
    U+FFFF. *)
Lemma rune4_large s0 s1 s2 s3 :
  0xF0 <= s0 <= 0xF4 -> 0x80 <= s1 <= 0xBF -> accepted s0 s1 = true ->
  0x10000 <= rune4 s0 s1 s2 s3.
Proof.
  intros H0 H1 Hacc. unfold rune4.
  set (A := Z.lor (Z.shiftl (Z.land s0 0x07) 18) (Z.shiftl (Z.land s1 0x3F) 12)).
  set (C := Z.shiftl (Z.land s2 0x3F) 6). set (D := Z.land s3 0x3F).
  assert (16 <= Z.log2 A) as HA.
  { pose proof heads4_ok as Ht.
    rewrite forallb_forall in Ht. specialize (Ht _ (in_bytesFrom _ _ _ H0)).
    rewrite forallb_forall in Ht. specialize (Ht _ (in_bytesFrom _ _ _ H1)).
    rewrite Hacc in Ht. cbn [implb] in Ht. by apply Z.leb_le in Ht. }
  assert (0 <= A) as HA0.
  { apply Z.lor_nonneg. split; apply Z.shiftl_nonneg, Z.land_nonneg; right; lia. }
  assert (0 <= C) as HC0 by (apply Z.shiftl_nonneg, Z.land_nonneg; right; lia).
  assert (0 <= D) as HD0 by (apply Z.land_nonneg; right; lia).
  assert (0 <= Z.lor A C) as HAC0 by (by apply Z.lor_nonneg).
  assert (16 <= Z.log2 (Z.lor (Z.lor A C) D)) as Hlog
    by (rewrite !Z.log2_lor by done; lia).
  destruct (Z.lt_ge_cases (Z.lor (Z.lor A C) D) 0x10000) as [Hlt | Hge]; [| done].
  exfalso. destruct (Z.le_gt_cases (Z.lor (Z.lor A C) D) 0) as [Hle | Hpos].
  - rewrite Z.log2_nonpos in Hlog by done. lia.
  - apply (Z.log2_lt_pow2 _ 16) in Hlt; [lia | done].
Qed.

Lemma IsSpace_small r : IsSpace r = true -> 0 <= r < 0x10000.
Proof.
  intros H. apply IsSpace_spaceRunes in H. unfold spaceRunes in H. cbn [In] in H. lia.
Qed.

Lemma first_cases s0 sz lo hi :
  first s0 = Some (sz, (lo, hi)) ->
  0x80 <= lo /\ hi <= 0xBF /\
  ((sz = 2 /\ 0xC2 <= s0 <= 0xDF /\ lo = 0x80 /\ hi = 0xBF) \/
   (sz = 3 /\ 0xE0 <= s0 <= 0xEF) \/
   (sz = 4 /\ 0xF0 <= s0 <= 0xF4)).
Proof.
  unfold first. intros H.
  repeat match type of H with
  | (if ?c then _ else _) = _ => destruct c eqn:?
  end; inversion H; subst; zcase; lia.
Qed.

(** A white-space rune is decoded only from its own encoding. *)
Lemma DecodeRune_space s r size :
  DecodeRuneInString s = (r, size) -> IsSpace r = true ->
  exists rest, s = EncodeRune r ++ rest /\ size = len (EncodeRune r).
Proof.
  unfold DecodeRuneInString.
  destruct s as [| b0 s]; cbn [map]; [by intros [= <- <-] |].
  destruct (byteval b0 <? 0x80) eqn:E0.
  { intros [= <- <-] _. apply Z.ltb_lt in E0. rewrite EncodeRune_byte by done.
    by exists s. }
  destruct (first (byteval b0)) as [[sz [lo hi]] |] eqn:Ef; [| by intros [= <- <-]].
  destruct (first_cases _ _ _ _ Ef) as (Hlo & Hhi & Hsz).
  assert (accepted (byteval b0) = between lo hi) as Hacc
    by (unfold accepted; by rewrite Ef).
  destruct s as [| b1 s]; cbn [map]; [by intros [= <- <-] |].
  destruct (between lo hi (byteval b1)) eqn:Eb; cbn [negb]; [| by intros [= <- <-]].
  assert (0x80 <= byteval b1 <= 0xBF) as H1 by (unfold between in Eb; zcase; lia).
  destruct (sz <=? 2) eqn:E2.
  { intros [= <- <-] Hs.
    assert (0xC2 <= byteval b0 <= 0xDF) as H0 by (zcase; lia).
    pose proof spaces2_ok as Ht.
    rewrite forallb_forall in Ht. specialize (Ht _ (in_bytesFrom _ _ _ H0)).
    rewrite forallb_forall in Ht. specialize (Ht _ (in_bytesFrom _ _ _ H1)).
    unfold rune2 in Ht. rewrite Hs in Ht. cbn [implb] in Ht.
    apply bool_decide_eq_true in Ht.
    apply (map_byteval_inj _ [b0; b1]) in Ht. rewrite Ht. by exists s. }
  destruct s as [| b2 s]; cbn [map]; [by intros [= <- <-] |].
  destruct (between 0x80 0xBF (byteval b2)) eqn:Eb2; cbn [negb]; [| by intros [= <- <-]].
  assert (0x80 <= byteval b2 <= 0xBF) as H2 by (unfold between in Eb2; zcase; lia).
  destruct (sz <=? 3) eqn:E3.
  { intros [= <- <-] Hs.
    assert (0xE0 <= byteval b0 <= 0xEF) as H0 by (zcase; lia).
    pose proof spaces3_ok as Ht.
    rewrite forallb_forall in Ht. specialize (Ht _ (in_bytesFrom _ _ _ H0)).
    rewrite forallb_forall in Ht. specialize (Ht _ (in_bytesFrom _ _ _ H1)).
    rewrite forallb_forall in Ht. specialize (Ht _ (in_bytesFrom _ _ _ H2)).
    unfold rune3 in Ht. rewrite Hacc, Eb, Hs in Ht. cbn [implb andb] in Ht.
    apply bool_decide_eq_true in Ht.
    apply (map_byteval_inj _ [b0; b1; b2]) in Ht. rewrite Ht. by exists s. }
  destruct s as [| b3 s]; cbn [map]; [by intros [= <- <-] |].
  destruct (between 0x80 0xBF (byteval b3)) eqn:Eb3; cbn [negb]; [| by intros [= <- <-]].
  assert (0x80 <= byteval b3 <= 0xBF) as H3 by (unfold between in Eb3; zcase; lia).
  intros [= <- <-] Hs. exfalso.
  assert (0xF0 <= byteval b0 <= 0xF4) as H0 by (zcase; lia).
  apply IsSpace_small in Hs.
  pose proof (rune4_large (byteval b0) (byteval b1) (byteval b2) (byteval b3) H0 H1) as Hl.
  rewrite Hacc in Hl. specialize (Hl Eb). unfold rune4 in Hl. lia.
Qed.

Lemma EncodeRune_cons r : exists c pre, EncodeRune r = c :: pre.
Proof.
  pose proof (EncodeRune_len r) as H.
  destruct (EncodeRune r) as [| c pre]; [unfold len in H; cbn in H; lia | eauto].
Qed.

Lemma DecodeRune_EncodeRune_space r rest :
  IsSpace r = true ->
  DecodeRuneInString (EncodeRune r ++ rest) = (r, len (EncodeRune r)).
Proof.
  intros H. apply IsSpace_spaceRunes in H. unfold spaceRunes in H. cbn [In] in H.
  repeat (destruct H as [<- | H]; [vm_compute; reflexivity |]). done.
Qed.

(** The last rune of a string: the cases of [DecodeLastRuneInString] on
    a string that ends with one, two or three given bytes. *)
Lemma DecodeLast_byte p z :
  byteval z < 0x80 -> DecodeLastRuneInString (p ++ [z]) = (byteval z, 1).
Proof.
  intros Hz. unfold DecodeLastRuneInString.
  rewrite len_app, len_singleton. pose proof (len_nonneg p) as Hp.
  destruct (len p + 1 =? 0) eqn:E; [apply Z.eqb_eq in E; lia |].
  replace (Z.to_nat (len p + 1 - 1)) with (length p + 0)%nat by (unfold len; lia).
  rewrite lookup_app_r, Nat.add_comm, Nat.add_sub by lia. cbn [lookup list_lookup].
  by apply Z.ltb_lt in Hz as ->.
Qed.

Lemma DecodeLast_2 p a b :
  (byteval b <? 0x80) = false -> RuneStart (byteval a) = true ->
  DecodeLastRuneInString (p ++ [a; b])
  = (let '(r, size) := DecodeRuneInString [a; b] in
     if negb (size =? 2) then (RuneError, 1) else (r, size)).
Proof.
  intros Hb Ha. unfold DecodeLastRuneInString.
  assert (len (p ++ [a; b]) = len p + 2) as -> by (rewrite len_app; done).
  pose proof (len_nonneg p) as Hp.
  destruct (len p + 2 =? 0) eqn:E; [apply Z.eqb_eq in E; lia |]. clear E.
  assert (forall i x, [a; b] !! i = Some x ->
            (p ++ [a; b]) !! Z.to_nat (len p + Z.of_nat i) = Some x) as Hlook.
  { intros i x Hx. replace (Z.to_nat (len p + Z.of_nat i)) with (length p + i)%nat
      by (unfold len; lia).
    by rewrite lookup_app_r, Nat.add_comm, Nat.add_sub by lia. }
  replace (len p + 2 - 1) with (len p + Z.of_nat 1) by lia.
  rewrite (Hlook 1%nat b eq_refl), Hb.
  replace (len p + 2 - 2) with (len p + Z.of_nat 0) by lia.
  cbn [find_start].
  destruct (len p + Z.of_nat 0 <? Z.max 0 (len p + 2 - 4)) eqn:E;
    [apply Z.ltb_lt in E; lia |]. clear E.
  rewrite (Hlook 0%nat a eq_refl), Ha.
  replace (Z.max 0 (len p + Z.of_nat 0)) with (len p) by lia.
  replace (Z.to_nat (len p)) with (length p) by (unfold len; lia).
  rewrite drop_app_length.
  destruct (DecodeRuneInString [a; b]) as [r size].
  by replace (len p + size =? len p + 2) with (size =? 2) by (zcase; lia).
Qed.

Lemma DecodeLast_3 p a b c :
  (byteval c <? 0x80) = false -> RuneStart (byteval b) = false ->
  RuneStart (byteval a) = true ->
  DecodeLastRuneInString (p ++ [a; b; c])
  = (let '(r, size) := DecodeRuneInString [a; b; c] in
     if negb (size =? 3) then (RuneError, 1) else (r, size)).
Proof.
  intros Hc Hb Ha. unfold DecodeLastRuneInString.
  assert (len (p ++ [a; b; c]) = len p + 3) as -> by (rewrite len_app; done).
  pose proof (len_nonneg p) as Hp.
  destruct (len p + 3 =? 0) eqn:E; [apply Z.eqb_eq in E; lia |]. clear E.
  assert (forall i x, [a; b; c] !! i = Some x ->
            (p ++ [a; b; c]) !! Z.to_nat (len p + Z.of_nat i) = Some x) as Hlook.
  { intros i x Hx. replace (Z.to_nat (len p + Z.of_nat i)) with (length p + i)%nat
      by (unfold len; lia).
    by rewrite lookup_app_r, Nat.add_comm, Nat.add_sub by lia. }
  replace (len p + 3 - 1) with (len p + Z.of_nat 2) by lia.
  rewrite (Hlook 2%nat c eq_refl), Hc.
  replace (len p + 3 - 2) with (len p + Z.of_nat 1) by lia.
  cbn [find_start].
  destruct (len p + Z.of_nat 1 <? Z.max 0 (len p + 3 - 4)) eqn:E;
    [apply Z.ltb_lt in E; lia |]. clear E.
  rewrite (Hlook 1%nat b eq_refl), Hb.
  replace (len p + Z.of_nat 1 - 1) with (len p + Z.of_nat 0) by lia.
  destruct (len p + Z.of_nat 0 <? Z.max 0 (len p + 3 - 4)) eqn:E;
    [apply Z.ltb_lt in E; lia |]. clear E.
  rewrite (Hlook 0%nat a eq_refl), Ha.
  replace (Z.max 0 (len p + Z.of_nat 0)) with (len p) by lia.
  replace (Z.to_nat (len p)) with (length p) by (unfold len; lia).
  rewrite drop_app_length.
  destruct (DecodeRuneInString [a; b; c]) as [r size].
  by replace (len p + size =? len p + 3) with (size =? 3) by (zcase; lia).
Qed.

Lemma DecodeLast_EncodeRune_space p r :
  IsSpace r = true ->
  DecodeLastRuneInString (p ++ EncodeRune r) = (r, len (EncodeRune r)).
Proof.
  intros H. apply IsSpace_spaceRunes in H. unfold spaceRunes in H. cbn [In] in H.
  repeat (destruct H as [<- | H];
    [match goal with
     | |- context [EncodeRune ?v] =>
         let enc := eval vm_compute in (EncodeRune v) in
         change (EncodeRune v) with enc
     end;
     first [ rewrite DecodeLast_byte by (vm_compute; reflexivity)
           | rewrite DecodeLast_2 by (vm_compute; reflexivity)
           | rewrite DecodeLast_3 by (vm_compute; reflexivity) ];
     vm_compute; reflexivity |]).
  done.
Qed.

(** A white-space rune is the last rune only of a string that ends
    with its encoding. *)
Lemma DecodeLast_space s r size :
  DecodeLastRuneInString s = (r, size) -> IsSpace r = true ->
  exists p, s = p ++ EncodeRune r /\ size = len (EncodeRune r).
Proof.
  unfold DecodeLastRuneInString.
  destruct (len s =? 0) eqn:E0; [by intros [= <- <-] |].
  apply Z.eqb_neq in E0. pose proof (len_nonneg s) as Hs0.
  destruct (s !! Z.to_nat (len s - 1)) as [b |] eqn:Eb; [| by intros [= <- <-]].
  destruct (byteval b <? 0x80) eqn:E1.
  { intros [= <- <-] _. apply Z.ltb_lt in E1. rewrite EncodeRune_byte by done.
    exists (take (Z.to_nat (len s - 1)) s). split; [| done].
    rewrite <- (take_drop (Z.to_nat (len s - 1)) s) at 1. f_equal.
    rewrite (drop_S _ _ _ Eb), drop_ge by (unfold len in *; lia). done. }
  set (start := Z.max 0 _).
  destruct (DecodeRuneInString (drop (Z.to_nat start) s)) as [r' size'] eqn:Ed.
  destruct (start + size' =? len s) eqn:Ee; cbn [negb]; [| by intros [= <- <-]].
  apply Z.eqb_eq in Ee. intros [= <- <-] Hs.
  destruct (DecodeRune_space _ _ _ Ed Hs) as (rest & Hrest & Hsize).
  exists (take (Z.to_nat start) s). split; [| done].
  assert (rest = []) as Hnil.
  { apply (f_equal length) in Hrest. rewrite length_drop, length_app in Hrest.
    assert (0 <= start) by (unfold start; lia).
    unfold len in *. destruct rest; [done | cbn [length] in Hrest; lia]. }
  rewrite Hnil, app_nil_r in Hrest.
  by rewrite <- Hrest, take_drop.
Qed.

(** ** [TrimSpace] removes white space, and only white space *)

Lemma whiteSpace_nil : whiteSpace [].
Proof. by exists []. Qed.

Lemma whiteSpace_cons r pad :
  IsSpace r = true -> whiteSpace pad -> whiteSpace (EncodeRune r ++ pad).
Proof.
  intros Hr (rs & Hrs & ->). exists (r :: rs). split; [by constructor | done].
Qed.

Lemma whiteSpace_snoc pad r :
  whiteSpace pad -> IsSpace r = true -> whiteSpace (pad ++ EncodeRune r).
Proof.
  intros (rs & Hrs & ->) Hr. exists (rs ++ [r]). split.
  - apply Forall_app. split; [done | by constructor].
  - rewrite map_app, concat_app. cbn. by rewrite app_nil_r.
Qed.

Lemma trim_left_from_skip pre rest :
  trim_left_from (pre ++ rest) (length pre) = trim_left_from rest O.
Proof. induction pre as [| a pre IH]; [done | by cbn]. Qed.

Lemma trim_right_from_skip pre rest :
  trim_right_from (pre ++ rest) (length pre) = trim_right_from rest O.
Proof. induction pre as [| a pre IH]; [done | by cbn]. Qed.

(** What [TrimLeftFunc] drops is white space. *)
Lemma trim_left_from_whiteSpace s :
  exists l, whiteSpace l /\ s = l ++ trim_left_from s O.
Proof.
  remember (length s) as n eqn:Hn. revert s Hn.
  induction n as [n IH] using lt_wf_ind. intros s Hn.
  destruct s as [| b s]; [exists []; split; [apply whiteSpace_nil | done] |].
  cbn [trim_left_from].
  destruct (DecodeRuneInString (b :: s)) as [r size] eqn:Ed.
  destruct (IsSpace r) eqn:Es; [| exists []; split; [apply whiteSpace_nil | done]].
  destruct (DecodeRune_space _ _ _ Ed Es) as (rest & Hrest & Hsize).
  destruct (EncodeRune_cons r) as (c & pre & Henc).
  rewrite Henc in Hrest, Hsize. cbn [app] in Hrest. inversion Hrest; subst c s.
  replace (Z.to_nat size - 1)%nat with (length pre)
    by (rewrite Hsize; unfold len; cbn [length]; lia).
  rewrite trim_left_from_skip.
  destruct (IH (length rest)) with (s := rest) as (l & Hl & Hs);
    [subst n; cbn [length]; rewrite length_app; lia | done |].
  exists (EncodeRune r ++ l). split; [by apply whiteSpace_cons |].
  rewrite Henc. cbn [app]. rewrite <- app_assoc. by rewrite <- Hs.
Qed.

(** What [TrimRightFunc] drops is white space. *)
Lemma trim_right_from_whiteSpace rs :
  exists pad, whiteSpace pad /\ rev rs = rev (trim_right_from rs O) ++ pad.
Proof.
  remember (length rs) as n eqn:Hn. revert rs Hn.
  induction n as [n IH] using lt_wf_ind. intros rs Hn.
  destruct rs as [| c rs];
    [exists []; split; [apply whiteSpace_nil | done] |].
  cbn [trim_right_from].
  destruct (DecodeLastRuneInString (rev (c :: rs))) as [r size] eqn:Ed.
  destruct (IsSpace r) eqn:Es;
    [| exists []; split; [apply whiteSpace_nil | by rewrite app_nil_r]].
  destruct (DecodeLast_space _ _ _ Ed Es) as (p & Hp & Hsize).
  assert (c :: rs = rev (EncodeRune r) ++ rev p) as Hrs.
  { rewrite <- rev_app_distr, <- Hp. by rewrite rev_involutive. }
  destruct (EncodeRune_cons r) as (c' & pre' & Henc).
  destruct (rev (EncodeRune r)) as [| c0 pre] eqn:Hrev.
  { apply (f_equal length) in Hrev. rewrite length_rev, Henc in Hrev. done. }
  cbn [app] in Hrs. inversion Hrs; subst c0 rs.
  assert (length pre = (Z.to_nat size - 1)%nat) as <-.
  { apply (f_equal length) in Hrev. rewrite length_rev in Hrev.
    cbn [length] in Hrev. rewrite Hsize. unfold len. lia. }
  rewrite trim_right_from_skip.
  destruct (IH (length (rev p))) with (rs := rev p) as (pad & Hpad & Hs);
    [subst n; cbn [length]; rewrite length_app; lia | done |].
  rewrite rev_involutive in Hs.
  exists (pad ++ EncodeRune r). split; [by apply whiteSpace_snoc |].
  rewrite Hp. rewrite Hs at 1. by rewrite <- app_assoc.
Qed.

(** [TrimSpace] removes a run of white space from each end and nothing
    else. *)
Lemma TrimSpace_whiteSpace s :
  exists l r, whiteSpace l /\ whiteSpace r /\ s = l ++ TrimSpace s ++ r.
Proof.
  unfold TrimSpace.
  destruct (trim_left_from_whiteSpace s) as (l & Hl & Hs).
  destruct (trim_right_from_whiteSpace (rev (trim_left_from s O))) as (r & Hr & Ht).
  rewrite rev_involutive in Ht. exists l, r. by rewrite <- Ht.
Qed.

Lemma trim_left_from_space r rest :
  IsSpace r = true ->
  trim_left_from (EncodeRune r ++ rest) O = trim_left_from rest O.
Proof.
  intros Hr. pose proof (DecodeRune_EncodeRune_space r rest Hr) as Hd.
  destruct (EncodeRune_cons r) as (c & pre & Henc). rewrite Henc in *.
  cbn [app] in *. cbn [trim_left_from]. rewrite Hd, Hr.
  replace (Z.to_nat (len (c :: pre)) - 1)%nat with (length pre)
    by (unfold len; cbn [length]; lia).
  apply trim_left_from_skip.
Qed.

Lemma trim_left_from_pad rs rest :
  Forall (fun r => IsSpace r = true) rs ->
  trim_left_from (concat (map EncodeRune rs) ++ rest) O = trim_left_from rest O.
Proof.
  induction 1 as [| r rs Hr _ IH]; [done |].
  cbn [map concat]. by rewrite <- app_assoc, trim_left_from_space.
Qed.

Lemma trim_left_from_graphic a rest :
  graphic a = true -> trim_left_from (a :: rest) O = a :: rest.
Proof.
  unfold graphic. intros [Ha Hs]%andb_true_iff. apply negb_true_iff in Hs.
  cbn [trim_left_from]. unfold DecodeRuneInString. cbn [map].
  by rewrite Ha, Hs.
Qed.

Lemma trim_right_from_space r rs :
  IsSpace r = true ->
  trim_right_from (rev (EncodeRune r) ++ rs) O = trim_right_from rs O.
Proof.
  intros Hr. pose proof (DecodeLast_EncodeRune_space (rev rs) r Hr) as Hd.
  destruct (EncodeRune_cons r) as (c' & pre' & Henc).
  destruct (rev (EncodeRune r)) as [| c pre] eqn:Hrev.
  { apply (f_equal length) in Hrev. rewrite length_rev, Henc in Hrev. done. }
  assert (rev (c :: pre ++ rs) = rev rs ++ EncodeRune r) as Hrs.
  { change (c :: pre ++ rs) with ((c :: pre) ++ rs).
    by rewrite rev_app_distr, <- Hrev, rev_involutive. }
  cbn [app trim_right_from]. rewrite Hrs, Hd, Hr.
  replace (Z.to_nat (len (EncodeRune r)) - 1)%nat with (length pre).
  - apply trim_right_from_skip.
  - apply (f_equal length) in Hrev. rewrite length_rev in Hrev.
    cbn [length] in Hrev. unfold len. lia.
Qed.

Lemma trim_right_from_pad rs text :
  Forall (fun r => IsSpace r = true) rs ->
  trim_right_from (rev (text ++ concat (map EncodeRune rs))) O
  = trim_right_from (rev text) O.
Proof.
  induction rs as [| r rs IH] using rev_ind; intros Hrs.
  - cbn. by rewrite app_nil_r.
  - apply Forall_app in Hrs as [Hrs Hr]. inversion Hr; subst.
    rewrite map_app, concat_app. cbn [map concat]. rewrite app_nil_r, app_assoc.
    rewrite rev_app_distr, trim_right_from_space by done. by apply IH.
Qed.

Lemma trim_right_from_graphic z rs :
  graphic z = true -> trim_right_from (z :: rs) O = z :: rs.
Proof.
  unfold graphic. intros [Hz Hs]%andb_true_iff. apply negb_true_iff in Hs.
  cbn [trim_right_from rev]. apply Z.ltb_lt in Hz.
  by rewrite DecodeLast_byte, Hs.
Qed.

(** Text with no white space at its ends, white space around it:
    [TrimSpace] gives the text. *)
Lemma TrimSpace_surrounded l core r :
  whiteSpace l -> whiteSpace r -> solid core -> TrimSpace (l ++ core ++ r) = core.
Proof.
  intros (ls & Hls & ->) (rs & Hrs & ->) [(a & Ha & Hga) (z & Hz & Hgz)].
  unfold TrimSpace. rewrite trim_left_from_pad by done.
  destruct core as [| a' core]; [done |]. cbn in Ha. inversion Ha; subst a'.
  cbn [app]. rewrite trim_left_from_graphic by done.
  change (a :: core ++ concat (map EncodeRune rs))
    with ((a :: core) ++ concat (map EncodeRune rs)).
  rewrite trim_right_from_pad by done.
  apply last_Some in Hz as [front Hfront]. rewrite Hfront.
  rewrite rev_app_distr. cbn [rev app].
  rewrite trim_right_from_graphic by done.
  cbn [rev]. by rewrite rev_involutive.
Qed.

(** C4: for every accumulator, [ExecuteCommand] trims the white space
    around it: what [TrimSpace] removes is a run of white-space runes
    at each end and nothing else, and of text without white space at
    its ends, white space around it, the text is what is left.  It
    clears the accumulator, and then: "w" saves and returns false; "q"
    returns true when the buffer is not dirty, and false, with nothing
    written and nothing changed, when it is; "q!" returns true; "wq"
    saves and returns true whatever [os.WriteFile] answers; anything
    else changes nothing and returns false. *)
Theorem C4_ExecuteCommand e werr :
  let cmd := TrimSpace (command e) in
  let cleared := with_command e [] in
  let saved := Editor_SaveFile cleared werr in
  (exists l r, whiteSpace l /\ whiteSpace r /\ command e = l ++ cmd ++ r) /\
  (forall l core r,
     whiteSpace l -> whiteSpace r -> solid core ->
     command e = l ++ core ++ r -> cmd = core) /\
  command (fst (fst (ExecuteCommand e werr))) = [] /\
  (cmd = str "w" ->
   ExecuteCommand e werr = (fst (fst saved), snd (fst saved), false)) /\
  (cmd = str "q" ->
   ExecuteCommand e werr = (cleared, [], negb (dirty (buffer e)))) /\
  (cmd = str "q!" -> ExecuteCommand e werr = (cleared, [], true)) /\
  (cmd = str "wq" ->
   ExecuteCommand e werr = (fst (fst saved), snd (fst saved), true)) /\
  (cmd <> str "w" -> cmd <> str "q" -> cmd <> str "q!" -> cmd <> str "wq" ->
   ExecuteCommand e werr = (cleared, [], false)).
Proof.
  intros cmd cleared saved.
  split; [apply TrimSpace_whiteSpace |].
  split.
  { intros l core r Hl Hr Hcore Hcmd. unfold cmd. rewrite Hcmd.
    by apply TrimSpace_surrounded. }
  assert (command (fst (fst saved)) = []) as Hsaved.
  { unfold saved, Editor_SaveFile.
    by destruct (SaveFile (buffer cleared) werr) as [[b calls] err]. }
  unfold ExecuteCommand. fold cmd cleared saved.
  split.
  { destruct saved as [[e' calls] err]. cbn [fst] in Hsaved.
    repeat (destruct (string_eqb _ _)); try destruct (negb _); done. }
  repeat split.
  - intros ->. cbn. by destruct saved as [[? ?] ?].
  - intros ->. cbn. unfold IsDirty. by destruct (dirty (buffer e)).
  - by intros ->.
  - intros ->. cbn. by destruct saved as [[? ?] ?].
  - intros H1 H2 H3 H4.
    apply string_eqb_neq in H1, H2, H3, H4. by rewrite H1, H2, H3, H4.
Qed.

Lemma C4_ExecuteCommand_witness :
  ExecuteCommand (typingSaved " q ") None = (typingSaved "", [], true) /\
  ExecuteCommand (typing " q ") None = (typing "", [], false) /\
  ExecuteCommand
    (with_command (typing "") (EncodeRune 0xA0 ++ str "wq" ++ [byte_of 9; LF]))
    (Some ErrOther)
  = (typing "", [ {| w_name := str "f"; w_data := str "ab" |} ], true) /\
  ExecuteCommand (typing "w q") None = (typing "", [], false).
Proof.
  assert (forall word, In word ["q"; "wq"]%string -> solid (str word)) as Hsolid.
  { intros word Hin. cbn [In] in Hin.
    destruct Hin as [<- | [<- | []]]; split; eexists; split; reflexivity. }
  assert (whiteSpace (str " ")) as Hblank
    by (exists [0x20]; split; [by repeat constructor | reflexivity]).
  split; [| split; [| split]].
  - destruct (C4_ExecuteCommand (typingSaved " q ") None) as (_ & Htrim & _ & _ & Hq & _).
    rewrite Hq; [reflexivity |].
    apply (Htrim (str " ") (str "q") (str " ")); [done | done | | reflexivity].
    apply Hsolid. cbn. tauto.
  - destruct (C4_ExecuteCommand (typing " q ") None) as (_ & Htrim & _ & _ & Hq & _).
    rewrite Hq; [reflexivity |].
    apply (Htrim (str " ") (str "q") (str " ")); [done | done | | reflexivity].
    apply Hsolid. cbn. tauto.
  - destruct (C4_ExecuteCommand
                (with_command (typing "") (EncodeRune 0xA0 ++ str "wq" ++ [byte_of 9; LF]))
                (Some ErrOther)) as (_ & Htrim & _ & _ & _ & _ & Hwq & _).
    rewrite Hwq; [reflexivity |].
    apply (Htrim (EncodeRune 0xA0) (str "wq") [byte_of 9; LF]).
    + exists [0xA0]. split; [by repeat constructor | reflexivity].
    + exists [0x09; 0x0A]. split; [by repeat constructor | reflexivity].
    + apply Hsolid. cbn. tauto.
    + reflexivity.
  - destruct (C4_ExecuteCommand (typing "w q") None) as (_ & _ & _ & _ & _ & _ & _ & Hother).
    rewrite Hother; [reflexivity | | | |]; vm_compute; discriminate.
Defined.

(** * Deleting a selection *)

Lemma textOf_app l1 l2 : textOf (l1 ++ l2) = textOf l1 ++ textOf l2.
Proof.
  induction l1 as [| l l1 IH]; [done |]. cbn. by rewrite IH, <- app_assoc.
Qed.

(** The text before a position, and the text from it on. *)
Lemma textOf_before ls p x :
  0 <= Line p -> ls !! Z.to_nat (Line p) = Some x -> 0 <= Col p <= len x ->
  take (offsetOf ls p) (textOf ls)
  = textOf (take (Z.to_nat (Line p)) ls) ++ take (Z.to_nat (Col p)) x.
Proof.
  intros Hl Hx Hc. unfold offsetOf.
  rewrite <- (take_drop_middle ls _ x Hx) at 2.
  rewrite textOf_app, take_app_add. cbn [textOf].
  rewrite take_app_le by (unfold len in Hc; lia). done.
Qed.

Lemma textOf_from ls p x :
  0 <= Line p -> ls !! Z.to_nat (Line p) = Some x -> 0 <= Col p <= len x ->
  drop (offsetOf ls p) (textOf ls)
  = drop (Z.to_nat (Col p)) x ++ LF :: textOf (drop (S (Z.to_nat (Line p))) ls).
Proof.
  intros Hl Hx Hc. unfold offsetOf.
  rewrite <- (take_drop_middle ls _ x Hx) at 2.
  rewrite textOf_app, drop_app_add. cbn [textOf].
  rewrite drop_app_le by (unfold len in Hc; lia). done.
Qed.

Lemma textOf_take_le ls n m :
  (n <= m)%nat -> (length (textOf (take n ls)) <= length (textOf (take m ls)))%nat.
Proof.
  intros Hnm. replace (take n ls) with (take n (take m ls))
    by (rewrite take_take; f_equal; lia).
  rewrite <- (take_drop n (take m ls)) at 2.
  rewrite textOf_app, length_app. lia.
Qed.

(** C5: on a selection whose normalized ends are in the buffer,
    [DeleteSelection] returns [Start()], marks the buffer dirty, and
    leaves the lines with the range from [Start()] up to [End()]
    removed: on one line, the columns from the start column up to the
    end column spliced out; over several lines, the start line replaced
    by its prefix before the start column joined to the suffix of the end
    line from the end column, and the lines after it through the end
    line removed.  On the text of the buffer this is the removal of
    exactly the bytes from the offset of [Start()] up to the offset of
    [End()]. *)
Theorem C5_DeleteSelection b sel :
  inBuffer b (Start sel) -> inBuffer b (End sel) ->
  let ls' := removeRange (lines b) (Start sel) (End sel) in
  let from := offsetOf (lines b) (Start sel) in
  let upto := offsetOf (lines b) (End sel) in
  DeleteSelection b sel
  = Done ({| lines := ls'; filename := filename b; dirty := true |}, Start sel) /\
  (from <= upto)%nat /\
  textOf ls' = take from (textOf (lines b)) ++ drop upto (textOf (lines b)).
Proof.
  intros Hs He ls' from upto.
  split; [by rewrite DeleteSelection_in_range |].
  destruct Hs as [Hsl Hsc], He as [Hel Hec]. unfold lineLength in *.
  pose proof (GetLine_lookup b _ Hsl) as Hxs.
  pose proof (GetLine_lookup b _ Hel) as Hxe.
  set (xs := GetLine b (Line (Start sel))) in *.
  set (xe := GetLine b (Line (End sel))) in *.
  split.
  - (* the range is well formed *)
    unfold from, upto, offsetOf.
    destruct (Start_End_ordered sel) as [Hlt | [Heq Hcol]].
    + pose proof (textOf_take_le (lines b) (S (Z.to_nat (Line (Start sel))))
                    (Z.to_nat (Line (End sel)))) as Hle.
      rewrite (take_S_r _ _ xs Hxs), textOf_app, length_app in Hle.
      cbn [textOf] in Hle. rewrite length_app in Hle. cbn [length] in Hle.
      unfold len in Hsc. lia.
    + rewrite Heq. lia.
  - (* the text *)
    unfold from, upto.
    rewrite (textOf_before _ _ xs), (textOf_from _ _ xe) by (done || lia).
    unfold ls', removeRange.
    rewrite (lineAt_GetLine b (Line (Start sel))),
            (lineAt_GetLine b (Line (End sel))) by lia.
    fold xs xe. unfold LineCount, len in Hsl, Hel.
    destruct (Line (Start sel) =? Line (End sel)) eqn:E.
    + apply Z.eqb_eq in E. rewrite insert_take_drop by lia.
      rewrite textOf_app. cbn [textOf]. rewrite <- E.
      by rewrite <- !app_assoc.
    + rewrite textOf_app. cbn [app textOf].
      replace (Z.to_nat (Line (End sel)) + 1)%nat
        with (S (Z.to_nat (Line (End sel)))) by lia.
      by rewrite <- !app_assoc.
Qed.

(** The scenario of the specification: "ab", "cd" with {0,1}-{1,1}
    selected becomes "ad", and the position returned is {0,1}. *)
Lemma C5_DeleteSelection_witness :
  DeleteSelection twoLines {| Anchor := at_ 0 1; Head := at_ 1 1 |}
  = Done ({| lines := [str "ad"]; filename := []; dirty := true |}, at_ 0 1).
Proof.
  destruct (C5_DeleteSelection twoLines {| Anchor := at_ 0 1; Head := at_ 1 1 |})
    as (H & _).
  - unfold inBuffer, lineLength, LineCount; cbn; eval_len; lia.
  - unfold inBuffer, lineLength, LineCount; cbn; eval_len; lia.
  - rewrite H. reflexivity.
Defined.

(** * Setting the mode again *)

(** C6, as stated, fails: after [SelectLine] in Normal mode (a reachable
    state) the line is selected; [SetMode] with the current mode,
    Normal, collapses that selection to the cursor. *)
Lemma C6_counterexample :
  reachable lineSelected /\
  selection lineSelected = {| Anchor := at_ 0 0; Head := at_ 0 1 |} /\
  selection (SetMode lineSelected (mode lineSelected))
  = {| Anchor := at_ 0 1; Head := at_ 0 1 |} /\
  selection (SetMode lineSelected (mode lineSelected)) <> selection lineSelected.
Proof.
  split; [apply lineSelected_reachable |]. repeat split. discriminate.
Qed.

(** C6, amended: [SetMode] with the mode the editor is already in leaves
    the cursor, the buffer and the mode (and the accumulator and the
    clipboard) unchanged; the selection is unchanged exactly when the
    mode is Visual or the selection is already the point at the cursor,
    and is otherwise collapsed to the cursor. *)
Theorem C6_SetMode_same_mode e :
  let e' := SetMode e (mode e) in
  cursor e' = cursor e /\ buffer e' = buffer e /\ mode e' = mode e /\
  command e' = command e /\ clipboard e' = clipboard e /\
  selection e' = (if Mode_eqb (mode e) ModeVisual
                  then selection e else NewSelection (cursor e)) /\
  (selection e' = selection e <->
   mode e = ModeVisual \/ selection e = NewSelection (cursor e)).
Proof.
  unfold SetMode. destruct (mode e) eqn:Hm; cbn; repeat split; auto;
    try (intros [? | ?]; congruence).
Qed.

Lemma C6_SetMode_same_mode_witness :
  selection (SetMode (SetMode lineSelected ModeVisual) ModeVisual)
  = selection lineSelected.
Proof.
  apply (C6_SetMode_same_mode (SetMode lineSelected ModeVisual)).
  left. reflexivity.
Defined.

(** * Deleting a character *)

(** C8, as stated, fails: on the line "ab", at column 5 of line 0 (an
    in-range line and a column > 0) [DeleteChar] removes nothing and
    returns the position unchanged, not {0, 4}. *)
Lemma C8_counterexample :
  0 <= Line (at_ 0 5) < LineCount oneLine /\ Col (at_ 0 5) > 0 /\
  DeleteChar oneLine (at_ 0 5) = Done (oneLine, at_ 0 5) /\
  at_ 0 5 <> {| Line := 0; Col := 5 - 1 |}.
Proof.
  unfold LineCount. cbn. eval_len. repeat split; try lia. discriminate.
Qed.

(** C8, amended: at a position whose line is in range, [DeleteChar]
    with 0 < col <= len(line) removes the character before the column
    and returns {line, col-1}; with col = 0 and line > 0 it appends the
    line to the previous one, removes it, and returns {line-1, length of
    the previous line before the merge}; at col = 0 of line 0, and at
    any column below 0 or above len(line), it changes nothing and
    returns the position. *)
Theorem C8_DeleteChar b pos :
  0 <= Line pos < LineCount b ->
  let n := Z.to_nat (Line pos) in
  let line := GetLine b (Line pos) in
  let prevLine := GetLine b (Line pos - 1) in
  (0 < Col pos <= len line ->
   DeleteChar b pos =
   Done ({| lines := <[n := take (Z.to_nat (Col pos) - 1) line
                          ++ drop (Z.to_nat (Col pos)) line]> (lines b);
            filename := filename b; dirty := true |},
         {| Line := Line pos; Col := Col pos - 1 |})) /\
  (Col pos = 0 -> 0 < Line pos ->
   DeleteChar b pos =
   Done ({| lines := take (n - 1) (lines b) ++ [prevLine ++ line] ++ drop (n + 1) (lines b);
            filename := filename b; dirty := true |},
         {| Line := Line pos - 1; Col := len prevLine |})) /\
  (Col pos = 0 -> Line pos = 0 -> DeleteChar b pos = Done (b, pos)) /\
  (Col pos < 0 \/ len line < Col pos -> DeleteChar b pos = Done (b, pos)).
Proof.
  intros Hl n line prevLine. repeat split.
  - intros Hc. rewrite DeleteChar_char by done. unfold touch. fold line n.
    by replace (Z.to_nat (Col pos - 1)) with (Z.to_nat (Col pos) - 1)%nat by lia.
  - intros Hc Hl0. rewrite DeleteChar_merge by lia. unfold touch.
    fold line prevLine n. by replace (S n) with (n + 1)%nat by lia.
  - intros Hc Hl0. apply DeleteChar_noop; [done | lia | lia].
  - intros Hc. pose proof (len_nonneg line).
    apply DeleteChar_noop; [done | fold line; lia | lia].
Qed.

Lemma C8_DeleteChar_witness :
  DeleteChar twoLines (at_ 1 1)
  = Done ({| lines := [str "ab"; str "d"]; filename := []; dirty := true |}, at_ 1 0) /\
  DeleteChar twoLines (at_ 1 0)
  = Done ({| lines := [str "abcd"]; filename := []; dirty := true |}, at_ 0 2) /\
  DeleteChar twoLines (at_ 0 0) = Done (twoLines, at_ 0 0) /\
  DeleteChar twoLines (at_ 0 5) = Done (twoLines, at_ 0 5).
Proof.
  assert (forall l, 0 <= l < 2 -> 0 <= Line (at_ l 0) < LineCount twoLines) as Hl
    by (intros; unfold LineCount; cbn; eval_len; lia).
  split; [| split; [| split]].
  - destruct (C8_DeleteChar twoLines (at_ 1 1)) as (H & _).
    + apply (Hl 1). lia.
    + rewrite H; [reflexivity |]. cbn. eval_len. lia.
  - destruct (C8_DeleteChar twoLines (at_ 1 0)) as (_ & H & _).
    + apply (Hl 1). lia.
    + rewrite H; [reflexivity | reflexivity | cbn; lia].
  - destruct (C8_DeleteChar twoLines (at_ 0 0)) as (_ & _ & H & _).
    + apply (Hl 0). lia.
    + apply H; reflexivity.
  - destruct (C8_DeleteChar twoLines (at_ 0 5)) as (_ & _ & _ & H).
    + apply (Hl 0). lia.
    + apply H. right. cbn. eval_len. lia.
Defined.

(** * Forward word motion *)

(** The test of the source is the class [A-Za-z0-9_]. *)
Lemma isAlphaNum_isWordChar ch : isAlphaNum ch = isWordChar ch.
Proof.
  destruct ch as [[] [] [] [] [] [] [] []]; vm_compute; reflexivity.
Qed.

Lemma runLength_agree p q s :
  (forall ch, p ch = q ch) -> runLength p s = runLength q s.
Proof.
  intros Hpq. induction s as [| ch s IH]; [done |].
  cbn. rewrite Hpq, IH. done.
Qed.

(** Once in a word, the loop runs to the end of the word. *)
Lemma wordForwardLoop_inWord rest col :
  wordForwardLoop rest col true = col + Z.of_nat (runLength isAlphaNum rest).
Proof.
  revert col. induction rest as [| ch rest IH]; intros col; cbn.
  - lia.
  - destruct (isAlphaNum ch); cbn; [rewrite IH |]; lia.
Qed.

(** Before a word, it first passes the non-word characters. *)
Lemma wordForwardLoop_scan rest col :
  let gap := runLength (fun ch => negb (isAlphaNum ch)) rest in
  wordForwardLoop rest col false
  = col + Z.of_nat gap + Z.of_nat (runLength isAlphaNum (drop gap rest)).
Proof.
  revert col. induction rest as [| ch rest IH]; intros col; cbn.
  - lia.
  - destruct (isAlphaNum ch) eqn:Hch; cbn.
    + rewrite wordForwardLoop_inWord, Hch. lia.
    + rewrite IH. lia.
Qed.

Lemma wordForwardLoop_wordScan line col :
  0 <= col ->
  wordForwardLoop (drop (Z.to_nat col) line) col false = wordScan line col.
Proof.
  intros Hc. rewrite wordForwardLoop_scan. unfold wordScan. cbn zeta.
  set (rest := drop (Z.to_nat col) line).
  rewrite (runLength_agree (fun ch => negb (isAlphaNum ch))
                           (fun ch => negb (isWordChar ch)))
    by (intros; by rewrite isAlphaNum_isWordChar).
  by rewrite (runLength_agree isAlphaNum isWordChar)
    by apply isAlphaNum_isWordChar.
Qed.

(** C7: from a cursor column [col >= 0], [MoveWordForward] scans the
    line from [col], passes the non-word characters there and then the
    word characters ([A-Za-z0-9_]) that follow, and stops at the first
    non-word character after the word or at the end of the line; when
    the column did not change and a following line exists, the target is
    {line+1, 0} instead.  The cursor is set there, re-clamped, and the
    selection follows it. *)
Theorem C7_MoveWordForward e :
  0 <= Col (cursor e) ->
  MoveWordForward e
  = Done (trackSelection (clampCursor (with_cursor e (wordForwardTarget e)))).
Proof.
  intros Hc. unfold MoveWordForward, wordForwardTarget.
  set (line := GetLine (buffer e) (Line (cursor e))).
  assert ((if Col (cursor e) <? len line
           then slice_from line (Col (cursor e)) else Done [])
          = Done (drop (Z.to_nat (Col (cursor e))) line)) as ->.
  { destruct (Col (cursor e) <? len line) eqn:E.
    - apply Z.ltb_lt in E. apply slice_from_in_range. lia.
    - apply Z.ltb_ge in E. rewrite drop_ge; [done |]. unfold len in E. lia. }
  cbn [bind]. rewrite wordForwardLoop_wordScan by done.
  replace (Line (cursor e) <? LineCount (buffer e) - 1)
    with (Line (cursor e) + 1 <? LineCount (buffer e)); [done |].
  zcase; lia.
Qed.

(** The scenario of the specification: on the single line "abc" in
    Normal mode, cursor at {0,2}, the scan reaches column 3, there is no
    following line, and the clamp brings the cursor back to {0,2}. *)
Lemma C7_MoveWordForward_witness :
  wordScan (str "abc") 2 = 3 /\ MoveWordForward onLastChar = Done onLastChar.
Proof.
  split; [reflexivity |].
  rewrite (C7_MoveWordForward onLastChar).
  - reflexivity.
  - cbn. lia.
Defined.

(** * Loading then saving *)

Lemma has_prefix_app p s : has_prefix p s = true -> s = p ++ drop (length p) s.
Proof.
  revert s. induction p as [| a p IH]; intros s H; [done |].
  destruct s as [| b s]; [discriminate |]. cbn in H.
  apply andb_prop in H as [Hab Hp]. apply Ascii.eqb_eq in Hab. subst b.
  cbn. f_equal. by apply IH.
Qed.

(** Passing over [skip] bytes is dropping them. *)
Lemma split_from_skip sep s skip cur :
  split_from sep s skip cur = split_from sep (drop skip s) O cur.
Proof.
  revert skip. induction s as [| c s IH]; intros skip.
  - by rewrite drop_nil.
  - destruct skip; [done |]. cbn. apply IH.
Qed.

Lemma Join_cons x rest sep :
  1 <= len rest -> Join (x :: rest) sep = x ++ sep ++ Join rest sep.
Proof. destruct rest; [unfold len; cbn; lia | done]. Qed.

Lemma Join_split_from sep n :
  sep <> [] ->
  forall s cur, (length s <= n)%nat -> Join (split_from sep s O cur) sep = cur ++ s.
Proof.
  intros Hsep. induction n as [| n IH]; intros s cur Hn.
  { destruct s; [| cbn in Hn; lia]. cbn. by rewrite app_nil_r. }
  destruct s as [| c s]; [cbn; by rewrite app_nil_r |].
  cbn [split_from]. destruct (has_prefix sep (c :: s)) eqn:Hp.
  - rewrite Join_cons by apply split_from_nonempty.
    rewrite split_from_skip.
    rewrite IH by (rewrite length_drop; cbn in Hn; lia).
    apply has_prefix_app in Hp. rewrite Hp at 1.
    destruct sep as [| a sep']; [done |]. cbn [length drop app].
    by replace (S (length sep') - 1)%nat with (length sep') by lia.
  - rewrite IH by (cbn in Hn; lia). by rewrite <- app_assoc.
Qed.

(** Joining what [Split] cut gives the string back. *)
Lemma Join_Split s sep : sep <> [] -> Join (Split s sep) sep = s.
Proof. intros Hsep. unfold Split. by rewrite (Join_split_from sep (length s)). Qed.

(** C9: [SaveFile] right after [LoadFile] of a file that was read with
    content [text] hands [os.WriteFile] the same path and the content
    [text] with each CRLF replaced by LF: the lines of the buffer, joined
    with LF, are the normalized content (the empty content being the one
    empty line). *)
Theorem C9_load_save_round_trip b name text werr :
  name <> [] ->
  let loaded := fst (LoadFile b name (ReadOk text)) in
  let normalized := ReplaceAll text [CR; LF] [LF] in
  Join (lines loaded) [LF] = normalized /\
  snd (fst (SaveFile loaded werr)) = [ {| w_name := name; w_data := normalized |} ].
Proof.
  intros Hname loaded normalized.
  assert (Join (lines loaded) [LF] = normalized) as HJ.
  { unfold loaded, LoadFile. cbn [fst lines].
    destruct (string_eqb text []) eqn:E.
    - apply string_eqb_eq in E. by subst.
    - by apply Join_Split. }
  split; [done |].
  unfold SaveFile. apply string_eqb_neq in Hname.
  assert (filename loaded = name) as -> by done.
  rewrite Hname, HJ. by destruct werr.
Qed.

Lemma C9_load_save_round_trip_witness :
  snd (fst (SaveFile (fst (LoadFile NewBuffer (str "f")
                             (ReadOk (str "a" ++ [CR; LF] ++ str "b" ++ [LF]))))
                     None))
  = [ {| w_name := str "f"; w_data := str "a" ++ [LF] ++ str "b" ++ [LF] |} ].
Proof.
  apply (C9_load_save_round_trip NewBuffer (str "f")
           (str "a" ++ [CR; LF] ++ str "b" ++ [LF]) None).
  discriminate.
Defined.

(** * Yanking *)

Lemma selectedPiece_returns b start end_ i :
  0 <= Col start -> exists piece, selectedPiece b start end_ i = Done piece.
Proof.
  intros Hc. unfold selectedPiece.
  set (line := GetLine b i). pose proof (len_nonneg line).
  destruct (i =? Line start).
  - destruct (Col start <? len line) eqn:E; cbn [bind]; [| eauto].
    apply Z.ltb_lt in E. rewrite slice_from_in_range by lia. cbn [bind]. eauto.
  - destruct (i =? Line end_); [| eauto].
    destruct ((Col end_ >? 0) && (Col end_ <=? len line)) eqn:E; [| eauto].
    rewrite slice_to_in_range; [eauto |]. zcase; lia.
Qed.

Lemma selectedLoop_returns b start end_ n :
  0 <= Col start ->
  forall i result, exists text, selectedLoop b start end_ n i result = Done text.
Proof.
  intros Hc. induction n as [| n IH]; intros i result; cbn [selectedLoop]; [eauto |].
  destruct ((i <=? Line end_) && (i <? len (lines b))); [| eauto].
  destruct (selectedPiece_returns b start end_ i Hc) as [piece ->].
  cbn [bind]. apply IH.
Qed.

(** [GetSelectedText] returns on every selection that starts at a
    non-negative column. *)
Lemma GetSelectedText_returns b sel :
  0 <= Col (Start sel) -> exists text, GetSelectedText b sel = Done text.
Proof.
  intros Hc. unfold GetSelectedText.
  destruct (Line (Start sel) =? Line (End sel)) eqn:E.
  - apply Z.eqb_eq in E.
    set (line := GetLine b (Line (Start sel))).
    destruct ((Col (Start sel) >=? len line) || (Col (End sel) >? len line)) eqn:E';
      [eauto |].
    apply slice_in_range; pose proof (Start_End_ordered sel); zcase; lia.
  - by apply selectedLoop_returns.
Qed.

(** C10: in every reachable state [YankSelection] returns, and the state
    it returns differs from the one it was given in the clipboard at
    most: buffer (lines and dirty flag), cursor, selection, mode and
    accumulator are the same; on an empty selection the state is
    returned as it was, clipboard included. *)
Theorem C10_YankSelection_frame e :
  reachable e ->
  (exists text, YankSelection e = Done (with_clipboard e text)) /\
  (IsEmpty (selection e) = true -> YankSelection e = Done e).
Proof.
  intros He. apply reachable_baseInv in He as (_ & _ & Ha & Hh).
  unfold YankSelection. destruct (IsEmpty (selection e)) eqn:E; cbn [negb].
  - split; [| done]. exists (clipboard e). by destruct e.
  - split; [| discriminate].
    destruct (GetSelectedText_returns (buffer e) (selection e)) as [text ->].
    + by apply Start_nonneg.
    + cbn [bind]. eauto.
Qed.

Lemma C10_YankSelection_frame_witness :
  (exists text, YankSelection lineSelected = Done (with_clipboard lineSelected text)) /\
  YankSelection New = Done New.
Proof.
  split.
  - apply (C10_YankSelection_frame lineSelected lineSelected_reachable).
  - apply (C10_YankSelection_frame New reachable_New). reflexivity.
Defined.

(** * Commands return

    A session that never reloads the file keeps the cursor and the
    selection inside the buffer, and there every command returns. *)

Lemma skipSpacesBack_returns line n :
  Z.of_nat n < len line ->
  exists m, skipSpacesBack line n = Done m /\ (m <= n)%nat.
Proof.
  induction n as [| n IH]; intros Hn; cbn [skipSpacesBack]; [eauto |].
  destruct (lookup_lt_is_Some_2 line (S n)) as [ch Hch]; [unfold len in Hn; lia |].
  rewrite (index_lookup line (Z.of_nat (S n)) ch) by (rewrite ?Nat2Z.id; done || lia).
  cbn [bind]. destruct (Ascii.eqb ch " "); [| eauto].
  destruct IH as (m & -> & Hm); [lia |]. eauto.
Qed.

Lemma wordBackLoop_returns line n :
  Z.of_nat n < len line ->
  exists m, wordBackLoop line n = Done m /\ (m <= n)%nat.
Proof.
  induction n as [| n IH]; intros Hn; cbn [wordBackLoop]; [eauto |].
  destruct (lookup_lt_is_Some_2 line n) as [prev Hprev]; [unfold len in Hn; lia |].
  destruct (lookup_lt_is_Some_2 line (S n)) as [cur Hcur]; [unfold len in Hn; lia |].
  rewrite (index_lookup line (Z.of_nat (S n) - 1) prev)
    by (try replace (Z.to_nat (Z.of_nat (S n) - 1)) with n by lia; done || lia).
  rewrite (index_lookup line (Z.of_nat (S n)) cur) by (rewrite ?Nat2Z.id; done || lia).
  cbn [bind]. destruct (negb (isAlphaNum prev) && isAlphaNum cur); [eauto |].
  destruct IH as (m & -> & Hm); [lia |]. eauto.
Qed.

Lemma wordStart_returns line n :
  Z.of_nat n <= len line -> exists m, wordStart line n = Done m.
Proof.
  induction n as [| n IH]; intros Hn; cbn [wordStart]; [eauto |].
  destruct (lookup_lt_is_Some_2 line n) as [ch Hch]; [unfold len in Hn; lia |].
  rewrite (index_lookup line (Z.of_nat (S n) - 1) ch)
    by (try replace (Z.to_nat (Z.of_nat (S n) - 1)) with n by lia; done || lia).
  cbn [bind]. destruct (isAlphaNum ch); [| eauto]. apply IH. lia.
Qed.

Lemma MoveWordForward_returns e :
  0 <= Col (cursor e) -> exists e', MoveWordForward e = Done e'.
Proof.
  intros Hc. unfold MoveWordForward.
  destruct (Col (cursor e) <? len _) eqn:E; cbn [bind]; [| eauto].
  apply Z.ltb_lt in E. rewrite slice_from_in_range by lia. cbn [bind]. eauto.
Qed.

Lemma wrap64_fits z : - 2 ^ 63 <= z < 2 ^ 63 -> wrap64 z = z.
Proof. intros Hz. unfold wrap64. rewrite Z.mod_small; lia. Qed.

Lemma MoveWordBackward_returns e :
  0 <= Col (cursor e) <= lineLength (buffer e) (cursor e) ->
  Col (cursor e) < 2 ^ 63 ->
  exists e', MoveWordBackward e = Done e'.
Proof.
  unfold lineLength. intros Hc Hfit. unfold MoveWordBackward.
  destruct (Col (cursor e) =? 0).
  { destruct (Line (cursor e) >? 0); cbn [bind]; eauto. }
  set (line := GetLine (buffer e) (Line (cursor e))) in *.
  rewrite wrap64_fits by lia.
  destruct (Col (cursor e) - 1 >? 0) eqn:E; cbn [bind]; [| eauto].
  rewrite Z.gtb_ltb in E. apply Z.ltb_lt in E.
  destruct (skipSpacesBack_returns line (Z.to_nat (Col (cursor e) - 1)))
    as (c1 & -> & Hc1); [lia |]. cbn [bind].
  destruct (wordBackLoop_returns line c1) as (c2 & -> & Hc2); [lia |].
  cbn [bind]. eauto.
Qed.

Lemma SelectWord_returns e :
  0 <= Col (cursor e) -> exists e', SelectWord e = Done e'.
Proof.
  intros Hc. unfold SelectWord.
  set (line := GetLine (buffer e) (Line (cursor e))).
  destruct (Col (cursor e) >=? len line) eqn:E; [eauto |].
  rewrite Z.geb_leb in E. apply Z.leb_gt in E.
  destruct (lookup_lt_is_Some_2 line (Z.to_nat (Col (cursor e)))) as [ch Hch];
    [unfold len in E; lia |].
  rewrite (index_lookup line _ ch) by done. cbn [bind].
  destruct (negb (isAlphaNum ch)); [eauto |].
  destruct (wordStart_returns line (Z.to_nat (Col (cursor e)))) as [start ->]; [lia |].
  cbn [bind]. rewrite slice_from_in_range by lia. cbn [bind]. eauto.
Qed.

Lemma insertRunes_returns rs b pos :
  nonneg pos -> exists r, insertRunes b pos rs = Done r.
Proof.
  revert b pos. induction rs as [| ch rs IH]; intros b pos Hp; cbn; [eauto |].
  destruct (InsertChar_returns b pos ch Hp) as [[b1 pos1] H1]. rewrite H1. cbn.
  apply IH. by apply InsertChar_keeps in H1 as (_ & ? & _).
Qed.

Lemma pasteLines_returns ls b pos :
  nonneg pos -> exists r, pasteLines b pos ls = Done r.
Proof.
  revert b pos. induction ls as [| line ls IH]; intros b pos Hp; cbn; [eauto |].
  destruct (insertRunes_returns (runes line) b pos Hp) as [[b1 pos1] H1].
  rewrite H1. cbn. destruct ls as [| line' ls']; [eauto |].
  apply insertRunes_keeps in H1 as (_ & Hp1 & _); [| done].
  destruct (InsertNewline_returns b1 pos1 Hp1) as [[b2 pos2] H2]. rewrite H2. cbn.
  apply IH. by apply InsertNewline_keeps in H2 as (_ & ? & _).
Qed.

(** The start of a removed range is inside what is left. *)
Lemma removeRange_start b start end_ :
  inBuffer b start -> inBuffer b end_ ->
  inBuffer (touch b (removeRange (lines b) start end_)) start.
Proof.
  intros [Hsl Hsc] [Hel Hec]. unfold lineLength in *.
  split; [unfold LineCount in *; cbn [lines touch];
          pose proof (removeRange_len (lines b) start end_ Hsl);
          unfold removeRange in *; destruct (_ =? _);
          [by rewrite len_insert | ] |].
  - clear H. rewrite !len_app, len_singleton, len_take.
    pose proof (len_nonneg (drop (Z.to_nat (Line end_) + 1) (lines b))). lia.
  - unfold lineLength, removeRange.
    rewrite (lineAt_GetLine b (Line start)), (lineAt_GetLine b (Line end_)) by lia.
    destruct (Line start =? Line end_) eqn:E.
    + rewrite GetLine_touch_insert by lia. rewrite Z.eqb_refl.
      rewrite len_app, len_take.
      pose proof (len_nonneg (drop (Z.to_nat (Col end_)) (GetLine b (Line end_)))).
      lia.
    + cbn [app]. rewrite GetLine_touch_middle
        by (rewrite len_take; unfold LineCount in Hsl; lia).
      rewrite len_app, len_take.
      pose proof (len_nonneg (drop (Z.to_nat (Col end_)) (GetLine b (Line end_)))).
      lia.
Qed.

Lemma tracked_selection e :
  inBuffer (buffer e) (cursor e) -> inBuffer (buffer e) (Anchor (selection e)) ->
  inBuffer (buffer (trackSelection e)) (Anchor (selection (trackSelection e))) /\
  inBuffer (buffer (trackSelection e)) (Head (selection (trackSelection e))).
Proof. unfold trackSelection. by destruct (Mode_eqb _ _). Qed.

Lemma reclamped_selection e :
  1 <= LineCount (buffer e) -> inBuffer (buffer e) (Anchor (selection e)) ->
  let e' := trackSelection (clampCursor e) in
  inBuffer (buffer e') (Anchor (selection e')) /\
  inBuffer (buffer e') (Head (selection e')).
Proof.
  intros Hn Ha. apply tracked_selection; [| done].
  by apply cursorInv_inBuffer, clampCursor_cursorInv.
Qed.

(** Every command but [LoadFile] keeps both ends of the selection
    inside the buffer. *)
Lemma perform_selection e c e' :
  consistent e -> isLoadFile c = false -> perform e c = Done e' ->
  inBuffer (buffer e') (Anchor (selection e')) /\
  inBuffer (buffer e') (Head (selection e')).
Proof.
  intros (Hc & Ha & Hh) Hload H.
  pose proof (perform_inBuffer e c e' Hload Hc H) as Hc'.
  destruct (inBuffer_nonneg _ _ Hc) as [Hcn Hn].
  destruct c; cbn [perform] in H; try discriminate Hload.
  - (* SaveFile *)
    inversion H; subst; clear H. unfold Editor_SaveFile in *.
    pose proof (SaveFile_lines (buffer e) werr) as Hl.
    destruct (SaveFile (buffer e) werr) as [[b calls] err]. cbn in *.
    split; by apply (inBuffer_agree (buffer e)).
  - (* SetMode *)
    inversion H; subst; clear H. unfold SetMode. by destruct (negb _).
  - inversion H; subst; clear H. by apply reclamped_selection.
  - inversion H; subst; clear H. by apply reclamped_selection.
  - (* MoveToLineStart *)
    inversion H; subst; clear H. apply tracked_selection; [| done].
    unfold inBuffer, lineLength in *. cbn. lia.
  - (* MoveToLineEnd *)
    inversion H; subst; clear H. apply tracked_selection; [| done].
    unfold inBuffer, lineLength in *. cbn [with_cursor buffer cursor Line Col].
    destruct (Mode_eqb _ _); cbn [andb]; zcase; lia.
  - apply MoveWordForward_shape in H as [c ->]. by apply reclamped_selection.
  - apply MoveWordBackward_shape in H as [c ->]. by apply reclamped_selection.
  - (* SelectLine *)
    inversion H; subst; clear H. unfold inBuffer, lineLength in *. cbn. lia.
  - (* SelectWord *)
    apply SelectWord_shape in H as [-> | (start & end_ & H0 & H1 & H2 & ->)]; [done |].
    unfold inBuffer, lineLength in *. cbn. lia.
  - (* DeleteSelection *)
    unfold Editor_DeleteSelection in H.
    destruct (negb (IsEmpty (selection e))); [| by inversion H; subst].
    returned H. inversion H; subst; clear H.
    pose proof (DeleteSelection_guard _ _ _ Hr) as [Hs He].
    rewrite DeleteSelection_in_range in Hr by done. inversion Hr; subst; clear Hr.
    cbn. split; by apply removeRange_start.
  - (* YankSelection *)
    unfold YankSelection in H. destruct (negb _); [| by inversion H; subst].
    returned H. by inversion H; subst.
  - (* Paste *)
    unfold Paste in H. destruct (string_eqb _ _); [by inversion H; subst |].
    returned H. by inversion H; subst.
  - (* InsertChar *)
    unfold Editor_InsertChar in H. returned H. by inversion H; subst.
  - (* InsertNewline *)
    unfold Editor_InsertNewline in H. returned H. by inversion H; subst.
  - (* Backspace *)
    unfold Backspace in H. returned H. inversion H; subst; clear H.
    destruct r as [b' pos'].
    apply DeleteChar_keeps in Hr as (_ & _ & Hi); [| done | done].
    cbn. split; by apply Hi.
  - by inversion H; subst.
  - inversion H; subst; clear H. unfold BackspaceCommand. by destruct (_ >? _).
  - by inversion H; subst.
  - (* ExecuteCommand *)
    inversion H; subst; clear H.
    destruct (ExecuteCommand_frame e werr) as (Hl & _ & Hsel & _).
    rewrite Hsel. split; by apply (inBuffer_agree (buffer e)).
Qed.

(** From a state without stale coordinates, whose cursor column fits an
    [int], no command but [LoadFile] panics. *)
Lemma perform_returns e c :
  consistent e -> Col (cursor e) < 2 ^ 63 -> isLoadFile c = false ->
  exists e', perform e c = Done e'.
Proof.
  intros Hcons Hfit Hload.
  destruct Hcons as (Hc & Ha & Hh).
  destruct (inBuffer_nonneg _ _ Hc) as [[Hl0 Hc0] Hn].
  destruct c; cbn [perform]; eauto; try discriminate Hload.
  - by apply MoveWordForward_returns.
  - apply MoveWordBackward_returns; [apply Hc | done].
  - by apply SelectWord_returns.
  - unfold Editor_DeleteSelection. destruct (negb _); [| eauto].
    rewrite DeleteSelection_in_range; [cbn [bind]; eauto | |].
    + by destruct (Start_cases (selection e)) as [-> | ->].
    + by destruct (End_cases (selection e)) as [-> | ->].
  - unfold YankSelection. destruct (negb _); [| eauto].
    destruct (GetSelectedText_returns (buffer e) (selection e)) as [text ->].
    + destruct (Start_cases (selection e)) as [-> | ->]; [apply Ha | apply Hh].
    + cbn [bind]. eauto.
  - unfold Paste. destruct (string_eqb _ _); [eauto |].
    destruct (len _ =? 1).
    + destruct (insertRunes_returns (runes (clipboard e)) (buffer e) (cursor e))
        as [r ->]; [done |]. cbn [bind]. eauto.
    + destruct (pasteLines_returns (Split (clipboard e) [LF]) (buffer e) (cursor e))
        as [r ->]; [done |]. cbn [bind]. eauto.
  - unfold Editor_InsertChar.
    destruct (InsertChar_returns (buffer e) (cursor e) ch) as [r ->]; [done |].
    cbn [bind]. eauto.
  - unfold Editor_InsertNewline.
    destruct (InsertNewline_returns (buffer e) (cursor e)) as [r ->]; [done |].
    cbn [bind]. eauto.
  - unfold Backspace.
    destruct (DeleteChar_returns (buffer e) (cursor e)) as [r ->]; [done |].
    cbn [bind]. eauto.
Qed.

(** From a state without stale coordinates, whose cursor column fits an
    [int], every command but [LoadFile] returns, in a state without
    stale coordinates. *)
Theorem perform_consistent e c :
  consistent e -> Col (cursor e) < 2 ^ 63 -> isLoadFile c = false ->
  exists e', perform e c = Done e' /\ consistent e'.
Proof.
  intros Hcons Hfit Hload.
  destruct (perform_returns e c Hcons Hfit Hload) as [e' H].
  exists e'. split; [done |].
  destruct (perform_selection e c e' Hcons Hload H) as [Ha' Hh'].
  destruct Hcons as (Hc & _ & _).
  split; [by apply (perform_inBuffer e c) | done].
Qed.

Lemma New_consistent : consistent New.
Proof.
  unfold consistent, inBuffer, lineLength, LineCount. cbn. eval_len. lia.
Qed.

(** * Further properties of selections *)

Lemma Position_eq p q : Line p = Line q -> Col p = Col q -> p = q.
Proof. destruct p, q. cbn. by intros -> ->. Qed.

(** [Start] and [End] are the two ends of the selection, in document
    order, whichever way the selection was made. *)
Theorem Start_End_normalize s :
  posLe (Start s) (End s) /\
  ((Start s = Anchor s /\ End s = Head s) \/ (Start s = Head s /\ End s = Anchor s)) /\
  Start (reversed s) = Start s /\ End (reversed s) = End s.
Proof.
  unfold posLe, Start, End, reversed. cbn [Anchor Head].
  destruct s as [[al ac] [hl hc]]. cbn [Anchor Head Line Col].
  zcase; repeat split; auto; try lia;
    try (right; split; [done |]); try (apply Position_eq; cbn; lia).
Qed.

(** [Contains] is being between [Start] and [End] in document order,
    both ends included. *)
Theorem Contains_between s p :
  Contains s p = true <-> posLe (Start s) p /\ posLe p (End s).
Proof.
  unfold Contains, posLe.
  generalize (Start_End_ordered s).
  generalize (Start s) (End s). intros [sl sc] [el ec]. cbn [Line Col].
  destruct p as [pl pc]. cbn [Line Col]. intros Hord.
  zcase; split; intros H; try done; try lia.
Qed.

(** * Clamping twice *)

Lemma clampCursor_empty e :
  lines (buffer e) = [] -> cursor (clampCursor e) = {| Line := 0; Col := 0 |}.
Proof.
  intros Hnil. unfold clampCursor, LineCount, GetLine.
  cbn [with_cursor cursor]. rewrite Hnil. change (len (@nil gostring)) with 0.
  assert ((if (if (if Line (cursor e) <? 0 then 0 else Line (cursor e)) >=? 0
                then 0 - 1 else if Line (cursor e) <? 0 then 0 else Line (cursor e)) <? 0
           then 0
           else if (if Line (cursor e) <? 0 then 0 else Line (cursor e)) >=? 0
                then 0 - 1 else if Line (cursor e) <? 0 then 0 else Line (cursor e)) = 0)
    as -> by (zcase; lia).
  cbn [Z.ltb Z.geb Z.compare orb]. change (len (@nil ascii)) with 0.
  rewrite andb_false_r. f_equal. zcase; lia.
Qed.

(** [clampCursor] is idempotent, on any buffer. *)
Theorem clampCursor_idempotent e : clampCursor (clampCursor e) = clampCursor e.
Proof.
  assert (cursor (clampCursor (clampCursor e)) = cursor (clampCursor e)) as Hc.
  { destruct (Z.le_gt_cases 1 (LineCount (buffer e))) as [Hn | Hn].
    - apply clampCursor_id. by apply clampCursor_cursorInv.
    - assert (lines (buffer e) = []) as Hnil.
      { unfold LineCount, len in Hn. destruct (lines (buffer e)); [done | cbn in Hn; lia]. }
      by rewrite !clampCursor_empty. }
  unfold clampCursor at 1. unfold clampCursor at 1 in Hc.
  cbn [with_cursor cursor] in Hc. rewrite Hc.
  by destruct (clampCursor e).
Qed.

(** * What a command leaves alone *)

Lemma touched_refl b : touched b b.
Proof. by left. Qed.

Lemma touched_touch b ls : touched b (touch b ls).
Proof. right. eauto. Qed.

Lemma touched_trans b1 b2 b3 : touched b1 b2 -> touched b2 b3 -> touched b1 b3.
Proof.
  intros [-> | [l2 ->]] [-> | [l3 ->]]; try (by left); right; eauto.
Qed.

Lemma touched_keeps b b' :
  touched b b' ->
  filename b' = filename b /\ (dirty b' = false -> dirty b = false /\ b' = b).
Proof. intros [-> | [ls ->]]; cbn; split; auto; discriminate. Qed.

Lemma InsertChar_touched b pos ch b' pos' :
  InsertChar b pos ch = Done (b', pos') -> touched b b'.
Proof.
  unfold InsertChar. intros H. destruct (Line pos >=? _).
  - inversion H. apply touched_refl.
  - returned H. inversion H. apply touched_touch.
Qed.

Lemma InsertNewline_touched b pos b' pos' :
  InsertNewline b pos = Done (b', pos') -> touched b b'.
Proof.
  unfold InsertNewline. intros H. destruct (Line pos >=? _).
  - inversion H. apply touched_refl.
  - returned H. inversion H. apply touched_touch.
Qed.

Lemma DeleteChar_touched b pos b' pos' :
  DeleteChar b pos = Done (b', pos') -> touched b b'.
Proof.
  unfold DeleteChar. intros H. destruct (Line pos >=? _).
  { inversion H. apply touched_refl. }
  returned H. destruct (_ && _).
  { returned H. inversion H. apply touched_touch. }
  destruct (_ && _).
  { returned H. inversion H. apply touched_touch. }
  inversion H. apply touched_refl.
Qed.

Lemma DeleteSelection_touched b sel b' pos' :
  DeleteSelection b sel = Done (b', pos') -> touched b b'.
Proof.
  unfold DeleteSelection. intros H. destruct (_ =? _).
  - returned H. inversion H. apply touched_touch.
  - returned H. inversion H. apply touched_touch.
Qed.

Lemma insertRunes_touched rs b pos b' pos' :
  insertRunes b pos rs = Done (b', pos') -> touched b b'.
Proof.
  revert b pos. induction rs as [| ch rs IH]; intros b pos H; cbn in H.
  - inversion H. apply touched_refl.
  - returned H. destruct r as [b1 pos1]. cbn [fst snd] in H.
    apply InsertChar_touched in Hr. apply IH in H. by apply (touched_trans b b1).
Qed.

Lemma pasteLines_touched ls b pos b' pos' :
  pasteLines b pos ls = Done (b', pos') -> touched b b'.
Proof.
  revert b pos. induction ls as [| line ls IH]; intros b pos H; cbn in H.
  - inversion H. apply touched_refl.
  - returned H. destruct r as [b1 pos1]. cbn [fst snd] in H.
    apply insertRunes_touched in Hr.
    destruct ls as [| line' ls'].
    + by inversion H; subst.
    + returned H. destruct r as [b2 pos2]. cbn [fst snd] in H.
      apply InsertNewline_touched in Hr0. apply IH in H.
      apply (touched_trans b b1); [done |]. by apply (touched_trans b1 b2).
Qed.

(** The frame of every command: the mode is changed by [SetMode] alone,
    the clipboard by [YankSelection] alone, the accumulator by the
    command-line methods alone, the file name by [LoadFile] alone; the
    lines are changed only by the editing commands and [LoadFile]; and a
    dirty buffer is made clean only by the methods that do I/O. *)
Theorem perform_frame e c e' :
  perform e c = Done e' ->
  mode e' = match c with CSetMode m => m | _ => mode e end /\
  (c <> CYankSelection -> clipboard e' = clipboard e) /\
  (editsCommandLine c = false -> command e' = command e) /\
  (isLoadFile c = false -> filename (buffer e') = filename (buffer e)) /\
  (editsText c = false -> lines (buffer e') = lines (buffer e)) /\
  (doesIO c = false -> dirty (buffer e') = false -> buffer e' = buffer e).
Proof.
  intros H. destruct c; cbn [perform] in H;
    cbn [editsCommandLine isLoadFile editsText doesIO].
  - (* LoadFile *)
    inversion H; subst; clear H. unfold Editor_LoadFile.
    destruct (LoadFile _ _ _) as [b err]. cbn. repeat split; auto; discriminate.
  - (* SaveFile *)
    inversion H; subst; clear H. unfold Editor_SaveFile.
    pose proof (SaveFile_lines (buffer e) werr) as Hl.
    assert (filename (fst (fst (SaveFile (buffer e) werr))) = filename (buffer e)) as Hf.
    { unfold SaveFile. destruct (string_eqb _ _); [done |]. by destruct werr. }
    destruct (SaveFile (buffer e) werr) as [[b calls] err].
    cbn in *. repeat split; auto; discriminate.
  - (* SetMode *)
    inversion H; subst; clear H. unfold SetMode.
    destruct (negb _); cbn; repeat split; auto.
  - inversion H; subst; clear H. unfold MoveCursor.
    match goal with |- context [trackSelection ?x] =>
      destruct (trackSelection_frame x) as (-> & _ & -> & -> & ->) end.
    cbn. repeat split; auto.
  - inversion H; subst; clear H. unfold MoveCursorTo.
    match goal with |- context [trackSelection ?x] =>
      destruct (trackSelection_frame x) as (-> & _ & -> & -> & ->) end.
    cbn. repeat split; auto.
  - inversion H; subst; clear H. unfold MoveToLineStart.
    match goal with |- context [trackSelection ?x] =>
      destruct (trackSelection_frame x) as (-> & _ & -> & -> & ->) end.
    cbn. repeat split; auto.
  - inversion H; subst; clear H. unfold MoveToLineEnd.
    match goal with |- context [trackSelection ?x] =>
      destruct (trackSelection_frame x) as (-> & _ & -> & -> & ->) end.
    cbn. repeat split; auto.
  - apply MoveWordForward_shape in H as [c ->].
    match goal with |- context [trackSelection ?x] =>
      destruct (trackSelection_frame x) as (-> & _ & -> & -> & ->) end.
    cbn. repeat split; auto.
  - apply MoveWordBackward_shape in H as [c ->].
    match goal with |- context [trackSelection ?x] =>
      destruct (trackSelection_frame x) as (-> & _ & -> & -> & ->) end.
    cbn. repeat split; auto.
  - inversion H; subst; clear H. cbn. repeat split; auto.
  - apply SelectWord_shape in H as [-> | (start & end_ & H0 & H1 & H2 & ->)];
      cbn; repeat split; auto.
  - (* DeleteSelection *)
    unfold Editor_DeleteSelection in H.
    destruct (negb _); [| inversion H; subst; repeat split; auto].
    returned H. inversion H; subst; clear H. destruct r as [b' pos'].
    apply DeleteSelection_touched, touched_keeps in Hr as [Hf Hd].
    cbn. repeat split; auto; try discriminate. intros _ Hdirty. by apply Hd.
  - (* YankSelection *)
    unfold YankSelection in H.
    destruct (negb _); [| inversion H; subst; repeat split; auto].
    returned H. inversion H; subst; clear H. cbn. repeat split; auto. congruence.
  - (* Paste *)
    unfold Paste in H.
    destruct (string_eqb _ _); [inversion H; subst; repeat split; auto; discriminate |].
    returned H. inversion H; subst; clear H. destruct r as [b' pos'].
    assert (touched (buffer e) b') as Ht.
    { destruct (len _ =? 1);
        [by apply insertRunes_touched in Hr | by apply pasteLines_touched in Hr]. }
    apply touched_keeps in Ht as [Hf Hd].
    cbn. repeat split; auto; try discriminate. intros _ Hdirty. by apply Hd.
  - (* InsertChar *)
    unfold Editor_InsertChar in H. returned H. inversion H; subst; clear H.
    destruct r as [b' pos'].
    apply InsertChar_touched, touched_keeps in Hr as [Hf Hd].
    cbn. repeat split; auto; try discriminate. intros _ Hdirty. by apply Hd.
  - (* InsertNewline *)
    unfold Editor_InsertNewline in H. returned H. inversion H; subst; clear H.
    destruct r as [b' pos'].
    apply InsertNewline_touched, touched_keeps in Hr as [Hf Hd].
    cbn. repeat split; auto; try discriminate. intros _ Hdirty. by apply Hd.
  - (* Backspace *)
    unfold Backspace in H. returned H. inversion H; subst; clear H.
    destruct r as [b' pos'].
    apply DeleteChar_touched, touched_keeps in Hr as [Hf Hd].
    cbn. repeat split; auto; try discriminate. intros _ Hdirty. by apply Hd.
  - inversion H; subst; clear H. cbn. repeat split; auto; discriminate.
  - inversion H; subst; clear H. unfold BackspaceCommand.
    destruct (_ >? _); cbn; repeat split; auto; discriminate.
  - inversion H; subst; clear H. cbn. repeat split; auto; discriminate.
  - (* ExecuteCommand *)
    inversion H; subst; clear H.
    destruct (ExecuteCommand_frame e werr) as (Hl & Hcur & Hsel & Hm & Hclip).
    assert (filename (buffer (fst (fst (ExecuteCommand e werr)))) = filename (buffer e))
      as Hf.
    { unfold ExecuteCommand, Editor_SaveFile, SaveFile.
      repeat (destruct (string_eqb _ _); cbn; try done); destruct werr; cbn;
        try done; by destruct (negb _). }
    repeat split; auto; discriminate.
Qed.

Lemma perform_frame_witness :
  let e' := MoveCursor New 0 1 in
  mode e' = ModeNormal /\ clipboard e' = [] /\ command e' = [] /\
  filename (buffer e') = [] /\ lines (buffer e') = [ [] ] /\ buffer e' = NewBuffer.
Proof.
  destruct (perform_frame New (CMoveCursor 0 1) (MoveCursor New 0 1) eq_refl)
    as (Hm & Hc & Ha & Hf & Hl & Hd).
  split; [exact Hm |].
  split; [apply Hc; discriminate |].
  split; [apply Ha; reflexivity |].
  split; [apply Hf; reflexivity |].
  split; [apply Hl; reflexivity |].
  apply Hd; reflexivity.
Defined.

(** * Movement and the selection *)

Lemma trackSelection_result e :
  cursor (trackSelection e) = cursor e /\
  selection (trackSelection e)
  = match mode e with
    | ModeVisual => {| Anchor := Anchor (selection e); Head := cursor e |}
    | _ => NewSelection (cursor e)
    end.
Proof. unfold trackSelection. by destruct (mode e). Qed.

(** After a movement command the head of the selection is the cursor;
    in Visual mode the anchor stays where it was, in every other mode
    the selection is the empty selection at the cursor.  The buffer is
    not touched. *)
Theorem movement_tracks_selection e c e' :
  isMovement c = true -> perform e c = Done e' ->
  buffer e' = buffer e /\
  Head (selection e') = cursor e' /\
  Anchor (selection e')
  = match mode e with ModeVisual => Anchor (selection e) | _ => cursor e' end.
Proof.
  intros Hmove H.
  assert (exists e1, e' = trackSelection e1 /\ buffer e1 = buffer e /\
                     mode e1 = mode e /\ selection e1 = selection e)
    as (e1 & -> & Hb & Hm & Hs).
  { destruct c; cbn [perform isMovement] in H, Hmove; try discriminate Hmove.
    - inversion H. eexists. split; [reflexivity | done].
    - inversion H. eexists. split; [reflexivity | done].
    - inversion H. eexists. split; [reflexivity | done].
    - inversion H. eexists. split; [reflexivity | done].
    - apply MoveWordForward_shape in H as [p ->]. eexists. split; [reflexivity | done].
    - apply MoveWordBackward_shape in H as [p ->]. eexists. split; [reflexivity | done]. }
  destruct (trackSelection_frame e1) as (Hb' & _).
  destruct (trackSelection_result e1) as [Hc' Hs'].
  rewrite Hb', Hb, Hc', Hs', Hm, Hs. by destruct (mode e).
Qed.

Lemma movement_tracks_selection_witness :
  selection (MoveCursor (SetMode lineSelected ModeVisual) 0 (-1))
  = {| Anchor := at_ 0 0; Head := at_ 0 0 |}.
Proof.
  destruct (movement_tracks_selection (SetMode lineSelected ModeVisual)
              (CMoveCursor 0 (-1))
              (MoveCursor (SetMode lineSelected ModeVisual) 0 (-1))
              eq_refl eq_refl) as (_ & Hh & Ha).
  destruct (selection (MoveCursor (SetMode lineSelected ModeVisual) 0 (-1)))
    as [a h] eqn:E.
  cbn [Anchor Head] in Hh, Ha. rewrite Hh, Ha. reflexivity.
Defined.

(** * Undoing an insertion *)

(** [DeleteChar] undoes [InsertChar] of a one-byte rune: at a position
    on a line of the buffer, deleting at the position [InsertChar]
    returned gives back the lines and the (clamped) position. *)
Theorem InsertChar_DeleteChar b pos ch :
  0 <= Line pos < LineCount b -> 0 <= Col pos -> 0 <= ch <= 0x7F ->
  exists b1 pos1 b2,
    InsertChar b pos ch = Done (b1, pos1) /\
    DeleteChar b1 pos1
    = Done (b2, {| Line := Line pos;
                   Col := Z.min (Col pos) (len (GetLine b (Line pos))) |}) /\
    lines b2 = lines b.
Proof.
  intros Hl Hc Hch.
  set (line := GetLine b (Line pos)).
  set (col := Z.min (Col pos) (len line)).
  pose proof (len_nonneg line) as Hlen.
  pose proof (GetLine_lookup b _ Hl) as Hline. fold line in Hline.
  assert (EncodeRune ch = [byte_of ch]) as Henc
    by (unfold EncodeRune; zcase; (done || lia)).
  rewrite InsertChar_in_range by done. fold line col. rewrite Henc.
  set (line1 := take (Z.to_nat col) line ++ [byte_of ch] ++ drop (Z.to_nat col) line).
  set (b1 := touch b (<[Z.to_nat (Line pos) := line1]> (lines b))).
  assert (GetLine b1 (Line pos) = line1) as Hline1.
  { unfold b1. rewrite GetLine_touch_insert by lia. by rewrite Z.eqb_refl. }
  assert (len line1 = len line + 1) as Hlen1.
  { unfold line1. rewrite !len_app, len_singleton, len_take, len_drop. lia. }
  exists b1, {| Line := Line pos; Col := col + 1 |},
    (touch b1 (<[Z.to_nat (Line pos) :=
                 take (Z.to_nat col) line1 ++ drop (Z.to_nat (col + 1)) line1]>
               (lines b1))).
  split; [reflexivity |]. split.
  - rewrite DeleteChar_char.
    + cbn [Line Col]. rewrite Hline1.
      by replace (col + 1 - 1) with col by lia.
    + cbn [Line Col]. unfold b1, LineCount. cbn [lines touch]. by rewrite len_insert.
    + cbn [Line Col]. rewrite Hline1, Hlen1. lia.
  - cbn [lines touch Line Col]. unfold b1. cbn [lines touch].
    rewrite list_insert_insert_eq. apply list_insert_id.
    rewrite Hline. f_equal. unfold line1.
    assert (length (take (Z.to_nat col) line) = Z.to_nat col) as Htl
      by (rewrite length_take; unfold len in *; lia).
    rewrite <- Htl at 1.
    rewrite take_app_length.
    replace (Z.to_nat (col + 1))
      with (length (take (Z.to_nat col) line ++ [byte_of ch]))
      by (rewrite length_app; cbn [length]; lia).
    rewrite (app_assoc _ [byte_of ch]), drop_app_length.
    symmetry. apply take_drop.
Qed.

Lemma InsertChar_DeleteChar_witness :
  exists b1 pos1 b2,
    InsertChar twoLines (at_ 1 1) 120 = Done (b1, pos1) /\
    DeleteChar b1 pos1 = Done (b2, at_ 1 1) /\ lines b2 = lines twoLines.
Proof.
  destruct (InsertChar_DeleteChar twoLines (at_ 1 1) 120)
    as (b1 & pos1 & b2 & H1 & H2 & H3).
  - unfold LineCount. cbn. eval_len. lia.
  - cbn. lia.
  - lia.
  - exists b1, pos1, b2. split; [exact H1 |]. split; [exact H2 | exact H3].
Defined.

(** [DeleteChar] undoes [InsertNewline]: at a position on a line of the
    buffer, deleting at the position [InsertNewline] returned (the start
    of the new line) joins the two halves again. *)
Theorem InsertNewline_DeleteChar b pos :
  0 <= Line pos < LineCount b -> 0 <= Col pos ->
  exists b1 pos1 b2,
    InsertNewline b pos = Done (b1, pos1) /\
    LineCount b1 = LineCount b + 1 /\
    DeleteChar b1 pos1
    = Done (b2, {| Line := Line pos;
                   Col := Z.min (Col pos) (len (GetLine b (Line pos))) |}) /\
    lines b2 = lines b.
Proof.
  intros Hl Hc.
  set (line := GetLine b (Line pos)).
  set (col := Z.to_nat (Z.min (Col pos) (len line))).
  set (n := Z.to_nat (Line pos)).
  pose proof (len_nonneg line) as Hlen.
  pose proof (GetLine_lookup b _ Hl) as Hline. fold line n in Hline.
  rewrite InsertNewline_in_range by done. fold line col n.
  set (ls1 := take n (lines b) ++ [take col line; drop col line] ++ drop (S n) (lines b)).
  set (b1 := touch b ls1).
  assert (length (take n (lines b)) = n) as Htn.
  { rewrite length_take. unfold LineCount, len in Hl. lia. }
  assert (LineCount b1 = LineCount b + 1) as Hcount.
  { unfold b1, LineCount, ls1, len. cbn [lines touch].
    rewrite !length_app, Htn, length_drop. cbn [length].
    unfold LineCount, len in Hl. lia. }
  assert (GetLine b1 (Line pos) = take col line) as Hprev.
  { apply GetLine_of_lookup; [lia |]. unfold b1, ls1. cbn [lines touch]. fold n.
    by apply list_lookup_middle. }
  assert (GetLine b1 (Line pos + 1) = drop col line) as Hcur.
  { apply GetLine_of_lookup; [lia |]. unfold b1, ls1. cbn [lines touch].
    replace (Z.to_nat (Line pos + 1)) with (S n) by lia.
    rewrite lookup_app_r by lia. rewrite Htn.
    by replace (S n - n)%nat with 1%nat by lia. }
  exists b1, {| Line := Line pos + 1; Col := 0 |}, (touch b1 (lines b)).
  split; [reflexivity |]. split; [done |]. split; [| done].
  rewrite DeleteChar_merge by (cbn [Line Col]; lia || done).
  cbn [Line Col]. replace (Line pos + 1 - 1) with (Line pos) by lia.
  rewrite Hprev, Hcur, take_drop.
  assert (len (take col line) = Z.min (Col pos) (len line)) as ->
    by (rewrite len_take; unfold col; lia).
  do 3 f_equal.
  replace (Z.to_nat (Line pos + 1) - 1)%nat with n by lia.
  replace (S (Z.to_nat (Line pos + 1))) with (n + 2)%nat by lia.
  unfold b1, ls1. cbn [lines touch].
  rewrite take_app_le, take_ge by lia.
  replace (n + 2)%nat with (length (take n (lines b)) + 2)%nat by lia.
  rewrite drop_app_add. cbn [drop app].
  by apply take_drop_middle.
Qed.

Lemma InsertNewline_DeleteChar_witness :
  exists b1 pos1 b2,
    InsertNewline twoLines (at_ 0 1) = Done (b1, pos1) /\
    LineCount b1 = 3 /\
    DeleteChar b1 pos1 = Done (b2, at_ 0 1) /\ lines b2 = lines twoLines.
Proof.
  destruct (InsertNewline_DeleteChar twoLines (at_ 0 1))
    as (b1 & pos1 & b2 & H1 & H2 & H3 & H4).
  - unfold LineCount. cbn. eval_len. lia.
  - cbn. lia.
  - exists b1, pos1, b2. split; [exact H1 |]. split; [exact H2 |].
    split; [exact H3 | exact H4].
Defined.

(** * Edits as edits of the text *)

Lemma textOf_insert ls n x y :
  ls !! n = Some x ->
  textOf (<[n := y]> ls) = textOf (take n ls) ++ y ++ LF :: textOf (drop (S n) ls).
Proof.
  intros Hx. rewrite insert_take_drop by (by apply lookup_lt_Some in Hx).
  rewrite textOf_app. cbn [textOf]. done.
Qed.

Lemma offsetOf_le ls p x :
  0 <= Line p -> ls !! Z.to_nat (Line p) = Some x -> 0 <= Col p <= len x ->
  (offsetOf ls p <= length (textOf ls))%nat.
Proof.
  intros Hl Hx Hc. unfold offsetOf.
  rewrite <- (take_drop_middle ls _ x Hx) at 2.
  rewrite textOf_app, length_app. cbn [textOf]. rewrite length_app.
  unfold len in Hc. lia.
Qed.

Lemma EncodeRune_width ch :
  (0 <= ch <= 0x7F /\ EncodeRune ch = [byte_of ch]) \/
  (~ (0 <= ch <= 0x7F) /\ 2 <= len (EncodeRune ch)).
Proof.
  unfold EncodeRune, len.
  destruct ((0 <=? ch) && (ch <=? 0x7F)) eqn:E.
  - left. split; [zcase; lia | done].
  - right. split; [zcase; lia |].
    repeat match goal with |- context [if ?c then _ else _] => destruct c end;
      cbn [length]; lia.
Qed.

(** On the text of the buffer, [InsertChar] at a position inside the
    buffer inserts the UTF-8 encoding of the rune at the offset of the
    position.  The position it returns is one column further, whatever
    the width of the encoding: past the inserted bytes for a rune up to
    U+007F, inside them for any other rune. *)
Theorem InsertChar_text b pos ch :
  inBuffer b pos ->
  let text := textOf (lines b) in
  let off := offsetOf (lines b) pos in
  exists b',
    InsertChar b pos ch = Done (b', {| Line := Line pos; Col := Col pos + 1 |}) /\
    textOf (lines b') = take off text ++ EncodeRune ch ++ drop off text /\
    offsetOf (lines b') {| Line := Line pos; Col := Col pos + 1 |} = (off + 1)%nat /\
    ((0 <= ch <= 0x7F /\ len (EncodeRune ch) = 1) \/
     (~ (0 <= ch <= 0x7F) /\ 1 < len (EncodeRune ch))).
Proof.
  intros [Hl Hc] text off. unfold lineLength in Hc.
  pose proof (GetLine_lookup b _ Hl) as Hx.
  set (x := GetLine b (Line pos)) in *.
  rewrite InsertChar_in_range by lia. fold x.
  replace (Z.min (Col pos) (len x)) with (Col pos) by lia.
  eexists. split; [reflexivity |]. cbn [lines touch]. split; [| split].
  - unfold text, off.
    rewrite (textOf_before _ _ x), (textOf_from _ _ x) by (done || lia).
    rewrite (textOf_insert _ _ x) by done.
    by rewrite <- !app_assoc.
  - unfold off, offsetOf. cbn [Line Col].
    rewrite take_insert_ge by lia. lia.
  - destruct (EncodeRune_width ch) as [[H1 H2] | [H1 H2]]; [left | right].
    + split; [done |]. by rewrite H2.
    + split; [done | lia].
Qed.

Lemma InsertChar_text_witness :
  exists b',
    InsertChar twoLines (at_ 1 1) 233 = Done (b', at_ 1 2) /\
    textOf (lines b')
    = str "ab" ++ [LF] ++ str "c" ++ [byte_of 0xC3; byte_of 0xA9] ++ str "d" ++ [LF].
Proof.
  destruct (InsertChar_text twoLines (at_ 1 1) 233) as (b' & H1 & H2 & _).
  - unfold inBuffer, lineLength, LineCount. cbn. eval_len. lia.
  - exists b'. split; [exact H1 |]. rewrite H2. reflexivity.
Defined.

(** On the text of the buffer, [InsertNewline] at a position inside the
    buffer inserts one line feed at the offset of the position, and the
    position it returns is just after it. *)
Theorem InsertNewline_text b pos :
  inBuffer b pos ->
  let text := textOf (lines b) in
  let off := offsetOf (lines b) pos in
  exists b',
    InsertNewline b pos = Done (b', {| Line := Line pos + 1; Col := 0 |}) /\
    textOf (lines b') = take off text ++ [LF] ++ drop off text /\
    offsetOf (lines b') {| Line := Line pos + 1; Col := 0 |} = (off + 1)%nat.
Proof.
  intros [Hl Hc] text off. unfold lineLength in Hc.
  pose proof (GetLine_lookup b _ Hl) as Hx.
  set (x := GetLine b (Line pos)) in *.
  rewrite InsertNewline_in_range by lia. fold x.
  replace (Z.min (Col pos) (len x)) with (Col pos) by lia.
  eexists. split; [reflexivity |]. cbn [lines touch].
  assert (length (take (Z.to_nat (Line pos)) (lines b)) = Z.to_nat (Line pos)) as Htn.
  { rewrite length_take. unfold LineCount, len in Hl. lia. }
  split.
  - unfold text, off.
    rewrite (textOf_before _ _ x), (textOf_from _ _ x) by (done || lia).
    rewrite textOf_app. cbn [app textOf]. by rewrite <- !app_assoc.
  - unfold off, offsetOf. cbn [Line Col].
    replace (Z.to_nat (Line pos + 1)) with (Z.to_nat (Line pos) + 1)%nat by lia.
    rewrite <- Htn at 1. rewrite take_app_add. cbn [take app].
    rewrite textOf_app. cbn [textOf]. rewrite !length_app, length_take. cbn [length].
    unfold len in Hc. lia.
Qed.

Lemma InsertNewline_text_witness :
  exists b',
    InsertNewline twoLines (at_ 0 1) = Done (b', at_ 1 0) /\
    textOf (lines b') = str "a" ++ [LF] ++ str "b" ++ [LF] ++ str "cd" ++ [LF].
Proof.
  destruct (InsertNewline_text twoLines (at_ 0 1)) as (b' & H1 & H2 & _).
  - unfold inBuffer, lineLength, LineCount. cbn. eval_len. lia.
  - exists b'. split; [exact H1 |]. rewrite H2. reflexivity.
Defined.

(** * The selected text *)

Lemma selectedLoop_past b start end_ n i result :
  Line end_ < i -> selectedLoop b start end_ n i result = Done result.
Proof.
  intros Hi. destruct n; cbn [selectedLoop]; [done |].
  destruct (i <=? Line end_) eqn:E; [apply Z.leb_le in E; lia | done].
Qed.

(** The loop of [GetSelectedText] after the start line: the lines up to
    the end line in full, then the prefix of the end line. *)
Lemma selectedLoop_tail b start end_ :
  inBuffer b end_ ->
  forall n i result,
    Line start < i <= Line end_ -> 0 <= i -> Line end_ - i < Z.of_nat n ->
    selectedLoop b start end_ n i result
    = Done (result
            ++ textOf (take (Z.to_nat (Line end_ - i)) (drop (Z.to_nat i) (lines b)))
            ++ take (Z.to_nat (Col end_)) (GetLine b (Line end_))).
Proof.
  intros [Hel Hec]. unfold lineLength in Hec.
  induction n as [| n IH]; intros i result Hi Hi0 Hn; [lia |].
  cbn [selectedLoop]. unfold LineCount in Hel.
  destruct ((i <=? Line end_) && (i <? len (lines b))) eqn:E; [| zcase; lia].
  clear E. unfold selectedPiece.
  destruct (i =? Line start) eqn:E1; [apply Z.eqb_eq in E1; lia |]. clear E1.
  destruct (i =? Line end_) eqn:E2.
  - apply Z.eqb_eq in E2. subst i.
    assert ((if (Col end_ >? 0) && (Col end_ <=? len (GetLine b (Line end_)))
             then slice_to (GetLine b (Line end_)) (Col end_) else Done [])
            = Done (take (Z.to_nat (Col end_)) (GetLine b (Line end_)))) as ->.
    { destruct ((Col end_ >? 0) && (Col end_ <=? len (GetLine b (Line end_)))) eqn:E.
      - apply slice_to_in_range. lia.
      - assert (Col end_ = 0) as -> by (zcase; lia). done. }
    cbn [bind]. rewrite selectedLoop_past by lia.
    rewrite Z.sub_diag. cbn [Z.to_nat take textOf app]. done.
  - apply Z.eqb_neq in E2. cbn [bind].
    rewrite IH by lia.
    assert (0 <= i < LineCount b) as Hrange by (unfold LineCount; lia).
    pose proof (GetLine_lookup b i Hrange) as Hx.
    rewrite (drop_S (lines b) (GetLine b i) (Z.to_nat i) Hx).
    replace (Z.to_nat (Line end_ - i)) with (S (Z.to_nat (Line end_ - (i + 1)))) by lia.
    replace (Z.to_nat (i + 1)) with (S (Z.to_nat i)) by lia.
    cbn [take textOf]. by rewrite <- !app_assoc.
Qed.

(** [GetSelectedText] on a selection whose ends are inside the buffer
    returns exactly the bytes of the text from the offset of [Start()]
    up to the offset of [End()], the line feeds between the lines
    included; they are the bytes [DeleteSelection] removes. *)
Theorem GetSelectedText_text b sel :
  inBuffer b (Start sel) -> inBuffer b (End sel) ->
  let text := textOf (lines b) in
  let from := offsetOf (lines b) (Start sel) in
  let upto := offsetOf (lines b) (End sel) in
  exists selected,
    GetSelectedText b sel = Done selected /\
    selected = take (upto - from) (drop from text) /\
    text = take from text ++ selected ++ drop upto text.
Proof.
  intros Hs He text from upto.
  assert (GetSelectedText b sel = Done (take (upto - from) (drop from text))) as Hsel.
  { destruct Hs as [Hsl Hsc]. pose proof He as [Hel Hec]. unfold lineLength in *.
    pose proof (GetLine_lookup b _ Hsl) as Hxs.
    pose proof (GetLine_lookup b _ Hel) as Hxe.
    set (xs := GetLine b (Line (Start sel))) in *.
    set (xe := GetLine b (Line (End sel))) in *.
    unfold text, from. rewrite (textOf_from _ _ xs) by (done || lia).
    fold from. unfold GetSelectedText.
    destruct (Line (Start sel) =? Line (End sel)) eqn:E.
    - (* on one line *)
      apply Z.eqb_eq in E.
      destruct (Start_End_ordered sel) as [Hlt | [_ Hcol]]; [lia |].
      assert (xe = xs) as Hxexs by (unfold xe, xs; by rewrite E).
      rewrite Hxexs in Hec.
      assert ((upto - from)%nat = (Z.to_nat (Col (End sel)) - Z.to_nat (Col (Start sel)))%nat)
        as -> by (unfold upto, from, offsetOf; rewrite E; lia).
      fold xs.
      rewrite take_app_le by (rewrite length_drop; unfold len in *; lia).
      destruct ((Col (Start sel) >=? len xs) || (Col (End sel) >? len xs)) eqn:E'.
      + assert (Col (Start sel) = len xs) by (zcase; lia).
        rewrite drop_ge by (unfold len in *; lia). by rewrite take_nil.
      + unfold slice. destruct (_ && _) eqn:E''; [| zcase; lia].
        do 2 f_equal. lia.
    - (* over several lines *)
      apply Z.eqb_neq in E.
      destruct (Start_End_ordered sel) as [Hlt | [Heq _]]; [| lia].
      replace (Z.to_nat (Line (End sel) - Line (Start sel) + 1))
        with (S (Z.to_nat (Line (End sel) - Line (Start sel)))) by lia.
      cbn [selectedLoop]. unfold LineCount in Hsl, Hel.
      destruct ((Line (Start sel) <=? Line (End sel))
                && (Line (Start sel) <? len (lines b))) eqn:E'; [| zcase; lia].
      clear E'. unfold selectedPiece. rewrite Z.eqb_refl. fold xs.
      assert ((if Col (Start sel) <? len xs
               then slice_from xs (Col (Start sel)) else Done [])
              = Done (drop (Z.to_nat (Col (Start sel))) xs)) as ->.
      { destruct (Col (Start sel) <? len xs) eqn:E'.
        - apply slice_from_in_range. lia.
        - apply Z.ltb_ge in E'. rewrite drop_ge; [done |]. unfold len in *. lia. }
      cbn [bind app].
      rewrite (selectedLoop_tail b (Start sel) (End sel) He) by lia.
      f_equal. fold xe.
      set (n := Z.to_nat (Line (Start sel))).
      set (k := Z.to_nat (Line (End sel) - (Line (Start sel) + 1))).
      set (middle := take k (drop (S n) (lines b))).
      replace (Z.to_nat (Line (Start sel) + 1)) with (S n) by lia.
      fold middle.
      assert (length middle = k) as Hmid.
      { unfold middle. rewrite length_take, length_drop. unfold len in *. lia. }
      assert (drop (S n) (lines b) = middle ++ xe :: drop (S (Z.to_nat (Line (End sel)))) (lines b))
        as Hrest.
      { unfold middle. rewrite <- (take_drop k (drop (S n) (lines b))) at 1.
        f_equal. rewrite drop_drop.
        replace (S n + k)%nat with (Z.to_nat (Line (End sel))) by lia.
        by apply drop_S. }
      assert (take (Z.to_nat (Line (End sel))) (lines b)
              = take n (lines b) ++ xs :: middle) as Htake.
      { rewrite <- (take_drop_middle (lines b) n xs Hxs) at 1.
        replace (Z.to_nat (Line (End sel))) with (length (take n (lines b)) + S k)%nat
          by (rewrite length_take; unfold len in *; lia).
        rewrite take_app_add. cbn [take]. done. }
      assert ((upto - from)%nat
              = (length (drop (Z.to_nat (Col (Start sel))) xs ++ LF :: textOf middle)
                 + Z.to_nat (Col (End sel)))%nat) as ->.
      { unfold upto, from, offsetOf. fold n. rewrite Htake, textOf_app.
        cbn [textOf]. rewrite !length_app. cbn [length].
        rewrite length_drop. unfold len in *. lia. }
      rewrite Hrest, textOf_app. cbn [textOf].
      replace (drop (Z.to_nat (Col (Start sel))) xs
               ++ LF :: textOf middle
               ++ xe ++ LF :: textOf (drop (S (Z.to_nat (Line (End sel)))) (lines b)))
        with ((drop (Z.to_nat (Col (Start sel))) xs ++ LF :: textOf middle)
              ++ xe ++ LF :: textOf (drop (S (Z.to_nat (Line (End sel)))) (lines b)))
        by (by rewrite <- app_assoc).
      rewrite take_app_add, take_app_le by (unfold len in *; lia).
      by rewrite <- !app_assoc. }
  eexists. split; [exact Hsel |]. split; [reflexivity |].
  assert (from <= upto <= length text)%nat as Hrange.
  { destruct Hs as [Hsl Hsc], He as [Hel Hec]. unfold lineLength in *.
    pose proof (GetLine_lookup b _ Hsl) as Hxs.
    pose proof (GetLine_lookup b _ Hel) as Hxe.
    split; [| by apply (offsetOf_le _ _ _ (proj1 Hel) Hxe)].
    unfold from, upto, offsetOf.
    destruct (Start_End_ordered sel) as [Hlt | [Heq Hcol]]; [| rewrite Heq; lia].
    pose proof (textOf_take_le (lines b) (S (Z.to_nat (Line (Start sel))))
                  (Z.to_nat (Line (End sel)))) as Hle.
    rewrite (take_S_r _ _ _ Hxs), textOf_app, length_app in Hle.
    cbn [textOf] in Hle. rewrite length_app in Hle. cbn [length] in Hle.
    unfold len in Hsc. lia. }
  rewrite <- (take_drop from text) at 1. f_equal.
  rewrite <- (take_drop (upto - from) (drop from text)) at 1. f_equal.
  rewrite drop_drop. f_equal. lia.
Qed.

Lemma GetSelectedText_text_witness :
  GetSelectedText twoLines {| Anchor := at_ 1 1; Head := at_ 0 1 |}
  = Done (str "b" ++ [LF] ++ str "c").
Proof.
  destruct (GetSelectedText_text twoLines {| Anchor := at_ 1 1; Head := at_ 0 1 |})
    as (selected & H1 & H2 & _).
  - unfold inBuffer, lineLength, LineCount. cbn. eval_len. lia.
  - unfold inBuffer, lineLength, LineCount. cbn. eval_len. lia.
  - rewrite H1, H2. reflexivity.
Defined.

Lemma perform_consistent_witness :
  exists e', perform lineSelected CDeleteSelection = Done e' /\ consistent e'.
Proof.
  apply (perform_consistent lineSelected CDeleteSelection).
  - unfold consistent, inBuffer, lineLength, LineCount. cbn. eval_len. lia.
  - cbn. lia.
  - reflexivity.
Defined.

(** * The command line *)

Lemma with_command_same e : with_command e (command e) = e.
Proof. by destruct e. Qed.

(** [BackspaceCommand] removes the last byte of the accumulator, not the
    last rune: it undoes [AppendCommand] exactly for the runes up to
    U+007F, and leaves the first bytes of the encoding of any other. *)
Theorem AppendCommand_BackspaceCommand e ch :
  BackspaceCommand (AppendCommand e ch)
  = with_command e (command e ++ removelast (EncodeRune ch)) /\
  (BackspaceCommand (AppendCommand e ch) = e <-> 0 <= ch <= 0x7F).
Proof.
  assert (BackspaceCommand (AppendCommand e ch)
          = with_command e (command e ++ removelast (EncodeRune ch))) as H.
  { unfold BackspaceCommand, AppendCommand. cbn [command with_command].
    pose proof (EncodeRune_len ch) as Hlen. rewrite len_app.
    pose proof (len_nonneg (command e)).
    destruct (_ >? 0) eqn:E; [| zcase; lia]. clear E.
    destruct e; cbn [with_command command]. f_equal.
    rewrite removelast_firstn_len, <- firstn_app_2.
    unfold len in *. f_equal. lia. }
  split; [done |]. rewrite H.
  destruct (EncodeRune_width ch) as [[H1 H2] | [H1 H2]].
  - split; [done | intros _]. rewrite H2. cbn [removelast].
    rewrite app_nil_r. apply with_command_same.
  - split; [| done]. intros Heq. exfalso.
    apply (f_equal (fun e => length (command e))) in Heq.
    destruct e; cbn [with_command command] in Heq.
    rewrite length_app, removelast_firstn_len, firstn_length_le in Heq
      by lia.
    unfold len in H2. lia.
Qed.

(** * A line selected and deleted *)

(** [SelectLine] followed by [DeleteSelection] empties the line of the
    cursor and touches no other; the line itself stays, and the cursor
    and the selection are at its start. *)
Theorem SelectLine_DeleteSelection e :
  0 <= Line (cursor e) < LineCount (buffer e) ->
  exists e',
    Editor_DeleteSelection (SelectLine e) = Done e' /\
    lines (buffer e') = <[Z.to_nat (Line (cursor e)) := []]> (lines (buffer e)) /\
    cursor e' = {| Line := Line (cursor e); Col := 0 |} /\
    selection e' = NewSelection (cursor e') /\
    mode e' = mode e /\ clipboard e' = clipboard e.
Proof.
  intros Hl. pose proof (GetLine_lookup _ _ Hl) as Hx.
  set (x := GetLine (buffer e) (Line (cursor e))) in *.
  unfold Editor_DeleteSelection, SelectLine. fold x.
  cbn [selection with_cursor with_selection buffer cursor].
  destruct (IsEmpty _) eqn:E; cbn [negb].
  - (* the line is empty already *)
    unfold IsEmpty in E. cbn [Anchor Head] in E.
    apply Position_eqb_eq in E. injection E as E.
    assert (x = []) as Hnil by (destruct x; [done | unfold len in E; cbn in E; lia]).
    eexists. split; [reflexivity |]. cbn.
    rewrite list_insert_id by (by rewrite <- Hnil).
    by rewrite <- E.
  - set (sel := {| Anchor := _; Head := _ |}).
    pose proof (len_nonneg x) as Hx0.
    assert (Start sel = {| Line := Line (cursor e); Col := 0 |}) as HS.
    { unfold Start, sel. cbn [Anchor Head Line Col].
      destruct (_ || _) eqn:E'; [done |].
      f_equal. rewrite Z.ltb_irrefl, Z.eqb_refl in E'. cbn in E'.
      apply Z.ltb_ge in E'. lia. }
    assert (End sel = {| Line := Line (cursor e); Col := len x |}) as HE.
    { unfold End, sel. cbn [Anchor Head Line Col].
      destruct (Z.gtb_spec (Line (cursor e)) (Line (cursor e))); [lia |].
      destruct (Z.gtb_spec 0 (len x)); [lia |].
      by rewrite andb_false_r. }
    rewrite DeleteSelection_in_range; rewrite ?HS, ?HE;
      unfold inBuffer, lineLength; cbn [Line Col]; fold x; try lia.
    cbn [bind fst snd with_buffer with_cursor with_selection cursor buffer].
    assert (removeRange (lines (buffer e)) {| Line := Line (cursor e); Col := 0 |}
              {| Line := Line (cursor e); Col := len x |}
            = <[Z.to_nat (Line (cursor e)) := []]> (lines (buffer e))) as Hrm.
    { unfold removeRange. cbn [Line Col]. rewrite Z.eqb_refl.
      rewrite lineAt_GetLine by lia. fold x.
      change (Z.to_nat 0) with O. cbn [take app].
      rewrite drop_ge by (unfold len; lia). done. }
    rewrite Hrm.
    set (e1 := with_selection _ _).
    assert (cursor e1 = {| Line := Line (cursor e); Col := 0 |}) as Hc1 by done.
    assert (cursorInv e1) as Hinv.
    { unfold cursorInv, colBound, lineLength. rewrite Hc1. cbn [Line Col].
      split.
      - unfold LineCount in *. unfold e1. cbn. by rewrite len_insert.
      - pose proof (len_nonneg (GetLine (buffer e1) (Line (cursor e)))).
        destruct (mode e1); lia. }
    pose proof (clampCursor_id e1 Hinv) as Hid.
    destruct (clampCursor_frame e1) as (Hb & Hm & Hs & _ & Hcl).
    exists (clampCursor e1). split; [reflexivity |].
    rewrite Hb, Hm, Hs, Hcl, Hid, Hc1. done.
Qed.

Lemma SelectLine_DeleteSelection_witness :
  exists e',
    Editor_DeleteSelection (SelectLine onLastChar) = Done e' /\
    lines (buffer e') = [ [] ] /\ cursor e' = at_ 0 0.
Proof.
  destruct (SelectLine_DeleteSelection onLastChar) as (e' & H1 & H2 & H3 & _).
  - unfold LineCount. cbn. eval_len. lia.
  - exists e'. split; [exact H1 |]. split; [exact H2 | exact H3].
Defined.

(** * Scrolling *)

(** With a viewport of at least one row (a terminal of three rows or
    more) and operands far from the limits of [int],
    [CalculateScrollOffset] returns an offset whose viewport shows the
    line of the cursor; it keeps the offset when the line is shown
    already, and otherwise puts the line on the first or on the last
    row; it is idempotent, and keeps a non-negative offset
    non-negative. *)
Theorem CalculateScrollOffset_visible r cursor offset :
  3 <= ui.height r < 2 ^ 62 ->
  - 2 ^ 62 < Line cursor < 2 ^ 62 ->
  - 2 ^ 62 < offset < 2 ^ 62 ->
  let offset' := ui.CalculateScrollOffset r cursor offset in
  visible r cursor offset' /\
  (visible r cursor offset -> offset' = offset) /\
  (offset' = offset \/ offset' = Line cursor
   \/ offset' + (ui.height r - 2) = Line cursor + 1) /\
  ui.CalculateScrollOffset r cursor offset' = offset' /\
  (0 <= Line cursor -> 0 <= offset -> 0 <= offset').
Proof.
  intros Hh Hl Ho.
  assert (forall off, - 2 ^ 63 <= off < 2 ^ 62 ->
            ui.CalculateScrollOffset r cursor off
            = if Line cursor <? off then Line cursor
              else if Line cursor >=? off + (ui.height r - 2)
                   then Line cursor - (ui.height r - 2) + 1 else off) as Hcalc.
  { intros off Hoff. unfold ui.CalculateScrollOffset.
    rewrite (wrap64_fits (ui.height r - 2)) by lia.
    rewrite (wrap64_fits (off + _)), (wrap64_fits (Line cursor - _)) by lia.
    by rewrite wrap64_fits by lia. }
  cbn zeta. rewrite (Hcalc offset) by lia.
  set (offset' := if Line cursor <? offset then _ else _).
  assert (visible r cursor offset') as Hvis.
  { unfold visible, offset'. zcase; lia. }
  split; [done |]. split; [| split; [| split]].
  - unfold visible, offset'. zcase; lia.
  - unfold offset'. zcase; lia.
  - rewrite Hcalc by (unfold visible in Hvis; lia).
    unfold visible in Hvis. zcase; lia.
  - unfold offset'. zcase; lia.
Qed.

Lemma CalculateScrollOffset_visible_witness :
  ui.CalculateScrollOffset (ui.NewRenderer 80 24) (at_ 30 0) 0 = 9 /\
  visible (ui.NewRenderer 80 24) (at_ 30 0) 9.
Proof.
  destruct (CalculateScrollOffset_visible (ui.NewRenderer 80 24) (at_ 30 0) 0)
    as (H1 & _); [cbn; lia | cbn; lia | lia |].
  split; [reflexivity | exact H1].
Defined.

(** * The dispatcher *)

Lemma perform_keeps_consistent e c e' :
  consistent e -> isLoadFile c = false -> perform e c = Done e' -> consistent e'.
Proof.
  intros Hcons Hload H.
  destruct (perform_selection e c e' Hcons Hload H) as [Ha' Hh'].
  destruct Hcons as (Hc & _ & _).
  split; [by apply (perform_inBuffer e c) | done].
Qed.

Lemma trackSelection_pointSelection e : pointSelection (trackSelection e).
Proof.
  unfold pointSelection, trackSelection.
  destruct (mode e) eqn:E; cbn [Mode_eqb]; unfold with_selection; cbn; by rewrite ?E.
Qed.

Lemma SetMode_pointSelection e m : pointSelection (SetMode e m).
Proof. unfold pointSelection, SetMode. by destruct m. Qed.

(** Outside Visual mode the selection stays the point at the cursor
    under every command but [SelectLine] and [SelectWord], and
    [Backspace] in Normal mode. *)
Lemma perform_pointSelection e c e' :
  inBuffer (buffer e) (cursor e) -> pointSelection e ->
  keepsPoint (mode e) c = true -> perform e c = Done e' -> pointSelection e'.
Proof.
  intros Hin Hp Hk H.
  destruct c; cbn [perform keepsPoint] in H, Hk; try discriminate Hk.
  - (* SaveFile *)
    inversion H; subst; clear H. unfold Editor_SaveFile.
    by destruct (SaveFile (buffer e) werr) as [[b calls] err].
  - inversion H; subst. apply SetMode_pointSelection.
  - inversion H; subst. apply trackSelection_pointSelection.
  - inversion H; subst. apply trackSelection_pointSelection.
  - inversion H; subst. apply trackSelection_pointSelection.
  - inversion H; subst. apply trackSelection_pointSelection.
  - apply MoveWordForward_shape in H as [c ->]. apply trackSelection_pointSelection.
  - apply MoveWordBackward_shape in H as [c ->]. apply trackSelection_pointSelection.
  - (* DeleteSelection *)
    unfold Editor_DeleteSelection in H.
    destruct (negb (IsEmpty (selection e))) eqn:E; [| by inversion H; subst].
    returned H. inversion H; subst; clear H.
    intros Hm. cbn in Hm. apply Hp in Hm.
    rewrite Hm, IsEmpty_NewSelection in E. discriminate E.
  - (* YankSelection *)
    unfold YankSelection in H. destruct (negb _); [| by inversion H; subst].
    returned H. by inversion H; subst.
  - (* Paste *)
    unfold Paste in H. destruct (string_eqb _ _); [by inversion H; subst |].
    returned H. by inversion H; subst.
  - unfold Editor_InsertChar in H. returned H. by inversion H; subst.
  - unfold Editor_InsertNewline in H. returned H. by inversion H; subst.
  - (* Backspace *)
    unfold Backspace in H. returned H. inversion H; subst; clear H.
    destruct r as [b' pos']. cbn [fst snd].
    set (e1 := with_selection _ _).
    assert (mode e1 = mode e) as Hm1 by done.
    assert (cursorInv e1) as Hinv.
    { apply inBuffer_cursorInv.
      - rewrite Hm1. by destruct (mode e).
      - destruct (inBuffer_nonneg _ _ Hin) as [Hnn Hn].
        by apply (DeleteChar_keeps _ _ _ _ Hr Hnn Hn). }
    pose proof (clampCursor_id e1 Hinv) as Hid.
    destruct (clampCursor_frame e1) as (_ & Hm & Hs & _).
    intros _. by rewrite Hs, Hid.
  - by inversion H; subst.
  - inversion H; subst. unfold BackspaceCommand. by destruct (_ >? _).
  - by inversion H; subst.
  - (* ExecuteCommand *)
    inversion H; subst; clear H.
    destruct (ExecuteCommand_frame e werr) as (_ & Hc & Hs & Hm & _).
    intros Hv. rewrite Hs, Hc. apply Hp. by rewrite <- Hm.
Qed.

Lemma keepsPoint_isLoadFile m c : keepsPoint m c = true -> isLoadFile c = false.
Proof. by destruct c. Qed.

Lemma perform_settled e c e' :
  settled e -> keepsPoint (mode e) c = true -> perform e c = Done e' -> settled e'.
Proof.
  intros [Hcons Hp] Hk H. split.
  - apply (perform_keeps_consistent e c); [done | by apply (keepsPoint_isLoadFile (mode e)) | done].
  - apply (perform_pointSelection e c); [apply Hcons | done | done | done].
Qed.

Lemma step_settled e c :
  settled e -> Col (cursor e) < 2 ^ 63 -> keepsPoint (mode e) c = true ->
  exists e', perform e c = Done e' /\ settled e'.
Proof.
  intros Hs Hfit Hk.
  destruct (perform_returns e c (proj1 Hs) Hfit (keepsPoint_isLoadFile _ _ Hk)) as [e' H].
  exists e'. split; [done | by apply (perform_settled e c)].
Qed.

Lemma SetMode_consistent e m : consistent e -> consistent (SetMode e m).
Proof.
  intros Hcons.
  by apply (perform_keeps_consistent e (CSetMode m) (SetMode e m)).
Qed.

Lemma SetMode_settled e m : consistent e -> settled (SetMode e m).
Proof.
  intros Hcons. split; [by apply SetMode_consistent | apply SetMode_pointSelection].
Qed.

(** A switch over the key: case analysis from the first test on. *)
Ltac first_case :=
  match goal with
  | |- exists _, (if ?c then _ else _) = _ /\ _ => destruct c
  end.

Ltac by_command e c Hs Hm :=
  first
    [ apply (step_settled e c); [exact Hs | assumption | by rewrite Hm]
    | exists (match perform e c with Done e' => e' | Panic => e end);
      split; [reflexivity |];
      apply (perform_settled e c); [exact Hs | by rewrite Hm | reflexivity] ].

Lemma with_editor_same m : main.with_editor m (main.editor m) = m.
Proof. by destruct m. Qed.

Lemma normalSwitch_point e key :
  pointSelection e -> mode e = ModeNormal ->
  (main.keyIs key "d" = true \/ main.keyIs key "c" = true) ->
  main.keyIs key "ctrl+c" || main.keyIs key "q" = false ->
  main.normalSwitch e key = Done e.
Proof.
  intros Hp Hm Hkey Hq.
  assert (IsEmpty (GetSelection e) = true) as Hempty.
  { unfold GetSelection. rewrite Hp by (by rewrite Hm). apply IsEmpty_NewSelection. }
  assert (forall name, main.keyIs key name = true -> key = str name) as Hname
    by (intros name H; by apply string_eqb_eq in H).
  unfold main.normalSwitch. rewrite Hq, Hempty. cbn [negb].
  destruct Hkey as [Hd | Hc]; apply Hname in Hd || apply Hname in Hc; subst key;
    reflexivity.
Qed.

Lemma normalSwitch_settled e key :
  settled e -> mode e = ModeNormal -> Col (cursor e) < 2 ^ 63 ->
  exists e', main.normalSwitch e key = Done e' /\ settled e'.
Proof.
  intros Hs Hm Hfit. unfold main.normalSwitch.
  assert (IsEmpty (GetSelection e) = true) as Hempty.
  { unfold GetSelection. rewrite (proj2 Hs) by (by rewrite Hm).
    apply IsEmpty_NewSelection. }
  rewrite Hempty. cbn [negb].
  first_case; [by exists e |].
  first_case; [by_command e (CMoveCursor 0 (-1)) Hs Hm |].
  first_case; [by_command e (CMoveCursor 1 0) Hs Hm |].
  first_case; [by_command e (CMoveCursor (-1) 0) Hs Hm |].
  first_case; [by_command e (CMoveCursor 0 1) Hs Hm |].
  first_case; [by_command e CMoveWordForward Hs Hm |].
  first_case; [by_command e CMoveWordBackward Hs Hm |].
  first_case; [by_command e CMoveToLineStart Hs Hm |].
  first_case; [by_command e CMoveToLineEnd Hs Hm |].
  first_case; [by_command e (CSetMode ModeInsert) Hs Hm |].
  first_case.
  { eexists. split; [reflexivity |]. apply SetMode_settled.
    by apply (perform_keeps_consistent e (CMoveCursor 0 1) _ (proj1 Hs)). }
  first_case; [by_command e (CSetMode ModeVisual) Hs Hm |].
  first_case.
  { eexists. split; [reflexivity |]. apply SetMode_settled.
    by apply (perform_keeps_consistent e CSelectLine _ (proj1 Hs)). }
  first_case; [by exists e |].
  first_case; [by exists e |].
  first_case; [by_command e CYankSelection Hs Hm |].
  first_case; [by_command e CPaste Hs Hm |].
  first_case; [| by exists e].
  eexists. split; [reflexivity |].
  apply (perform_settled (SetMode e ModeCommand) CClearCommand); [| done | done].
  apply SetMode_settled, Hs.
Qed.

Lemma index_first {A} (l : list A) : len l = 1 -> exists x, index l 0 = Done x.
Proof.
  destruct l as [| x [| y l]]; unfold len; cbn [length]; intros H; try lia.
  by exists x.
Qed.

Lemma insertSwitch_settled e key :
  settled e -> mode e = ModeInsert -> Col (cursor e) < 2 ^ 63 ->
  exists e', main.insertSwitch e key = Done e' /\ settled e'.
Proof.
  intros Hs Hm Hfit. unfold main.insertSwitch.
  first_case.
  { eexists. split; [reflexivity |]. apply SetMode_settled.
    by apply (perform_keeps_consistent e (CMoveCursor 0 (-1)) _ (proj1 Hs)). }
  first_case; [by_command e CInsertNewline Hs Hm |].
  first_case; [by_command e CBackspace Hs Hm |].
  first_case; [by_command e (CMoveCursor 0 (-1)) Hs Hm |].
  first_case; [by_command e (CMoveCursor 0 1) Hs Hm |].
  first_case; [by_command e (CMoveCursor (-1) 0) Hs Hm |].
  first_case; [by_command e (CMoveCursor 1 0) Hs Hm |].
  cbn zeta. destruct (len (runes key) =? 1) eqn:E; [| by exists e].
  apply Z.eqb_eq in E. destruct (index_first _ E) as [ch ->]. cbn [bind].
  by_command e (CInsertChar ch) Hs Hm.
Qed.

Lemma Then_SetMode e c m :
  settled e -> Col (cursor e) < 2 ^ 63 -> isLoadFile c = false ->
  exists e', (e1 <- perform e c ;; Done (SetMode e1 m)) = Done e' /\ settled e'.
Proof.
  intros Hs Hfit Hload.
  destruct (perform_returns e c (proj1 Hs) Hfit Hload) as [e1 H].
  rewrite H. cbn [bind]. eexists. split; [reflexivity |].
  apply SetMode_settled. exact (perform_keeps_consistent e c e1 (proj1 Hs) Hload H).
Qed.

Lemma visualSwitch_settled e key :
  settled e -> mode e = ModeVisual -> Col (cursor e) < 2 ^ 63 ->
  exists e', main.visualSwitch e key = Done e' /\ settled e'.
Proof.
  intros Hs Hm Hfit. unfold main.visualSwitch.
  first_case; [by_command e (CSetMode ModeNormal) Hs Hm |].
  first_case; [by_command e (CMoveCursor 0 (-1)) Hs Hm |].
  first_case; [by_command e (CMoveCursor 1 0) Hs Hm |].
  first_case; [by_command e (CMoveCursor (-1) 0) Hs Hm |].
  first_case; [by_command e (CMoveCursor 0 1) Hs Hm |].
  first_case; [by_command e CMoveWordForward Hs Hm |].
  first_case; [by_command e CMoveWordBackward Hs Hm |].
  first_case; [by apply (Then_SetMode e CDeleteSelection) |].
  first_case; [by apply (Then_SetMode e CDeleteSelection) |].
  first_case; [by apply (Then_SetMode e CYankSelection) |].
  by exists e.
Qed.

Lemma handleCommandMode_settled m key werr :
  settled (main.editor m) ->
  exists m' calls cmd,
    main.handleCommandMode m key werr = Done (m', calls, cmd) /\
    settled (main.editor m').
Proof.
  intros Hs. unfold main.handleCommandMode. set (e := main.editor m) in *.
  destruct (main.keyIs key "esc").
  { do 3 eexists. split; [reflexivity |]. cbn [main.editor main.with_editor].
    apply (perform_settled (SetMode e ModeNormal) CClearCommand); [| done | done].
    apply SetMode_settled, Hs. }
  destruct (main.keyIs key "enter").
  { assert (settled (fst (fst (ExecuteCommand e werr)))) as Hs'
      by (by apply (perform_settled e (CExecuteCommand werr))).
    destruct (ExecuteCommand e werr) as [[e' calls] quit]. cbn [fst] in Hs'.
    destruct quit; do 3 eexists; (split; [reflexivity |]);
      cbn [main.editor main.with_editor main.with_quitting]; [done |].
    apply SetMode_settled, Hs'. }
  destruct (main.keyIs key "backspace").
  { do 3 eexists. split; [reflexivity |]. cbn [main.editor main.with_editor].
    by apply (perform_settled e CBackspaceCommand). }
  destruct (len key =? 1) eqn:E; [| by do 3 eexists].
  apply Z.eqb_eq in E. destruct (index_first _ E) as [ch ->]. cbn [bind].
  do 3 eexists. split; [reflexivity |]. cbn [main.editor main.with_editor].
  by apply (perform_settled e (CAppendCommand (byteval ch))).
Qed.

(** The program never panics and never leaves a stale coordinate: the
    initial model holds an editor whose cursor and selection are inside
    the buffer, the selection being the point at the cursor; from such
    a model, with a cursor column that fits an [int], [Update] returns
    for every message and every answer of the file system, in such a
    model again. *)
Theorem Update_settled :
  (forall filename read, settled (main.editor (main.initialModel filename read))) /\
  (forall m msg werr,
     settled (main.editor m) -> Col (cursor (main.editor m)) < 2 ^ 63 ->
     exists m' calls cmd,
       main.Update m msg werr = Done (m', calls, cmd) /\ settled (main.editor m')).
Proof.
  split.
  - intros filename read. unfold main.initialModel. cbn [main.editor].
    assert (settled New) as HNew by (split; [apply New_consistent | done]).
    destruct (negb _); [| done].
    unfold Editor_LoadFile.
    pose proof (LoadFile_LineCount (buffer New) filename read) as Hn.
    destruct (LoadFile (buffer New) filename read) as [b err]. cbn [fst] in *.
    assert (inBuffer b {| Line := 0; Col := 0 |}) as Hin.
    { unfold inBuffer, lineLength. cbn [Line Col].
      pose proof (len_nonneg (GetLine b 0)).
      assert (1 <= LineCount b) by (apply Hn; unfold LineCount; cbn; eval_len; lia).
      lia. }
    split; [| done]. unfold consistent. cbn. tauto.
  - intros m msg werr Hs Hfit. destruct msg as [w h | key |]; cbn [main.Update].
    + by do 3 eexists.
    + unfold main.handleKeyPress, GetMode.
      destruct (mode (main.editor m)) eqn:Hm.
      * unfold main.handleNormalMode, main.silently.
        destruct (_ && _); [by do 3 eexists |].
        destruct (normalSwitch_settled _ key Hs Hm Hfit) as (e' & -> & Hs').
        cbn [bind]. by do 3 eexists.
      * unfold main.handleInsertMode, main.silently.
        destruct (insertSwitch_settled _ key Hs Hm Hfit) as (e' & -> & Hs').
        cbn [bind]. by do 3 eexists.
      * unfold main.handleVisualMode, main.silently.
        destruct (visualSwitch_settled _ key Hs Hm Hfit) as (e' & -> & Hs').
        cbn [bind]. by do 3 eexists.
      * by apply handleCommandMode_settled.
    + by do 3 eexists.
Qed.

Lemma Update_settled_witness :
  exists m' calls cmd,
    main.Update selecting (main.KeyMsg (str "d")) None = Done (m', calls, cmd) /\
    settled (main.editor m').
Proof.
  apply (proj2 Update_settled).
  - split; [| intros H; cbn in H; congruence].
    unfold consistent, inBuffer, lineLength, LineCount. cbn. eval_len. lia.
  - cbn. lia.
Defined.

(** In Normal mode the keys "d" and "c" do nothing: their branches ask
    for a selection that is not empty, and outside Visual mode the
    dispatcher's selection is the point at the cursor.  "c" does not
    even enter Insert mode. *)
Theorem normal_d_c_idle m key werr :
  pointSelection (main.editor m) -> mode (main.editor m) = ModeNormal ->
  key = str "d" \/ key = str "c" ->
  main.handleKeyPress m key werr = Done (main.scroll m, [], main.TeaNil).
Proof.
  intros Hp Hm Hkey. unfold main.handleKeyPress, GetMode. rewrite Hm.
  unfold main.handleNormalMode, main.silently.
  assert (main.keyIs key "ctrl+c" || main.keyIs key "q" = false) as Hq
    by (destruct Hkey; subst key; reflexivity).
  rewrite Hq. cbn [andb].
  rewrite normalSwitch_point; [| done | done | | done].
  - cbn [bind fst snd]. by rewrite with_editor_same.
  - destruct Hkey; subst key; [by left | by right].
Qed.

Lemma normal_d_c_idle_witness :
  main.handleKeyPress (main.initialModel [] (ReadErr ErrNotExist)) (str "c") None
  = Done (main.initialModel [] (ReadErr ErrNotExist), [], main.TeaNil).
Proof.
  rewrite (normal_d_c_idle (main.initialModel [] (ReadErr ErrNotExist)) (str "c") None).
  - reflexivity.
  - by intros _.
  - reflexivity.
  - by right.
Defined.

Lemma silently_quit r m' calls :
  main.silently r = Done (m', calls, main.TeaQuit) ->
  r = Done (m', main.TeaQuit) /\ calls = [].
Proof.
  unfold main.silently. destruct r as [[m1 cmd] |]; cbn; [| discriminate].
  by intros [= -> <- ->].
Qed.

(** The program quits on request only: in Normal mode on "q" or
    "ctrl+c" with nothing unsaved, and in Command mode on "enter" with
    the command q (nothing unsaved), q! or wq.  It quits with unsaved
    changes only on q!, and on wq when the buffer has no file name
    (nothing is written) or the write failed. *)
Theorem quit_only_on_request m key werr m' calls :
  main.handleKeyPress m key werr = Done (m', calls, main.TeaQuit) ->
  let e := main.editor m in
  let cmd := TrimSpace (command e) in
  main.quitting m' = true /\
  ((mode e = ModeNormal /\ (key = str "ctrl+c" \/ key = str "q") /\
    dirty (buffer e) = false /\ main.editor m' = e /\ calls = []) \/
   (mode e = ModeCommand /\ key = str "enter" /\
    ((cmd = str "q" /\ dirty (buffer e) = false) \/ cmd = str "q!" \/ cmd = str "wq"))) /\
  (dirty (buffer (main.editor m')) = true ->
   mode e = ModeCommand /\ key = str "enter" /\
   (cmd = str "q!" \/
    (cmd = str "wq" /\ (filename (buffer e) = [] \/ werr <> None)))).
Proof.
  intros H e cmd. unfold main.handleKeyPress, GetMode in H. fold e in H.
  destruct (mode e) eqn:Hm.
  - (* Normal *)
    apply silently_quit in H as [H ->]. unfold main.handleNormalMode in H. fold e in H.
    destruct ((main.keyIs key "ctrl+c" || main.keyIs key "q")
              && negb (IsDirty (GetBuffer e))) eqn:E.
    + inversion H; subst; clear H.
      apply andb_true_iff in E as [Hkey Hclean].
      apply negb_true_iff in Hclean. unfold IsDirty, GetBuffer in Hclean.
      apply orb_true_iff in Hkey.
      assert (key = str "ctrl+c" \/ key = str "q") as Hkey'
        by (destruct Hkey as [Hk | Hk]; apply string_eqb_eq in Hk; auto).
      cbn [main.quitting main.with_quitting main.editor]. fold e.
      split; [done |]. split; [left; by repeat split |].
      intros Hd. congruence.
    + exfalso. unfold main.scroll in H.
      destruct (main.normalSwitch e key); cbn [bind] in H; congruence.
  - apply silently_quit in H as [H _]. unfold main.handleInsertMode in H. exfalso.
    destruct (main.insertSwitch (main.editor m) key); cbn [bind] in H; congruence.
  - apply silently_quit in H as [H _]. unfold main.handleVisualMode in H. exfalso.
    destruct (main.visualSwitch (main.editor m) key); cbn [bind] in H; congruence.
  - (* Command *)
    unfold main.handleCommandMode in H. fold e in H.
    destruct (main.keyIs key "esc"); [congruence |].
    destruct (main.keyIs key "enter") eqn:Hkey.
    2:{ exfalso. destruct (main.keyIs key "backspace"); [congruence |].
        destruct (len key =? 1); [| congruence].
        destruct (index key 0); cbn [bind] in H; congruence. }
    apply string_eqb_eq in Hkey.
    destruct (ExecuteCommand e werr) as [[e' calls'] quit] eqn:Hexec.
    destruct quit; [| congruence]. inversion H; subst m' calls'; clear H.
    cbn [main.quitting main.with_quitting main.editor main.with_editor].
    split; [done |].
    unfold ExecuteCommand in Hexec. fold cmd in Hexec.
    destruct (string_eqb cmd (str "w")) eqn:Ew.
    { destruct (Editor_SaveFile _ _) as [[? ?] ?]. congruence. }
    destruct (string_eqb cmd (str "q")) eqn:Eq.
    { apply string_eqb_eq in Eq. unfold IsDirty in Hexec. cbn [buffer with_command] in Hexec.
      destruct (dirty (buffer e)) eqn:Ed; cbn [negb] in Hexec; [congruence |].
      inversion Hexec; subst. split; [right; auto |].
      cbn [buffer with_command]. congruence. }
    destruct (string_eqb cmd (str "q!")) eqn:Eb.
    { apply string_eqb_eq in Eb. split; [right; auto |]. auto. }
    destruct (string_eqb cmd (str "wq")) eqn:Ewq; [| congruence].
    apply string_eqb_eq in Ewq. split; [right; auto |].
    intros Hd. split; [done |]. split; [done |]. right. split; [done |].
    unfold Editor_SaveFile, SaveFile in Hexec. cbn [buffer with_command] in Hexec.
    destruct (string_eqb (filename (buffer e)) []) eqn:Ef.
    { left. by apply string_eqb_eq. }
    right. destruct werr as [err |]; [done |].
    inversion Hexec; subst. cbn in Hd. discriminate Hd.
Qed.

Lemma quit_only_on_request_witness :
  TrimSpace (command (typing "wq")) = str "wq" /\
  (filename (buffer (typing "wq")) = [] \/ Some ErrOther <> (None : error)).
Proof.
  destruct (quit_only_on_request (commanding "wq") (str "enter") (Some ErrOther)
              _ _ eq_refl) as (_ & _ & Hdirty).
  destruct Hdirty as (_ & _ & [Hbang | Hwq]); [reflexivity | | exact Hwq].
  vm_compute in Hbang. discriminate Hbang.
Defined.

(** The cursor past the last character in Normal mode, by keys alone:
    a letter typed, the line selected with "x", Visual mode left with
    "esc". *)
Lemma keys_leave_cursor_past_end :
  exists m,
    pressAll (main.initialModel [] (ReadErr ErrNotExist)) ["i"; "a"; "esc"; "x"; "esc"]%string
    = Done m /\
    mode (main.editor m) = ModeNormal /\ ~ cursorInv (main.editor m).
Proof.
  eexists. split; [vm_compute; reflexivity |]. split; [reflexivity |].
  unfold cursorInv, colBound, lineLength, LineCount. cbn. eval_len. lia.
Qed.

(** * Word motions *)

(** On a line of the buffer [clampCursor] keeps the line and cuts the
    column at the bound of the mode. *)
Lemma clampCursor_in_range e :
  0 <= Line (cursor e) < LineCount (buffer e) -> 0 <= Col (cursor e) ->
  cursor (clampCursor e)
  = {| Line := Line (cursor e); Col := Z.min (Col (cursor e)) (colBound e) |}.
Proof.
  unfold colBound, lineLength, clampCursor.
  cbn [with_cursor cursor]. destruct (cursor e) as [l c]. cbn [Line Col].
  intros Hl Hc.
  assert ((if (if (if l <? 0 then 0 else l) >=? LineCount (buffer e)
                then LineCount (buffer e) - 1 else if l <? 0 then 0 else l) <? 0
           then 0
           else if (if l <? 0 then 0 else l) >=? LineCount (buffer e)
                then LineCount (buffer e) - 1 else if l <? 0 then 0 else l) = l) as ->
    by (zcase; lia).
  f_equal.
  generalize (len_nonneg (GetLine (buffer e) l)).
  generalize (len (GetLine (buffer e) l)). intros lineLen HlineLen.
  destruct (mode e); cbn [Mode_eqb andb]; zcase; lia.
Qed.

Lemma runLength_le p s : (runLength p s <= length s)%nat.
Proof.
  induction s as [| ch s IH]; cbn; [lia |]. destruct (p ch); lia.
Qed.

Lemma wordScan_bounds line col :
  0 <= col <= len line ->
  col <= wordScan line col <= len line /\
  (col < len line -> col < wordScan line col).
Proof.
  intros Hc. unfold wordScan. cbn zeta.
  set (rest := drop (Z.to_nat col) line).
  set (gap := runLength (fun ch => negb (isWordChar ch)) rest).
  set (word := runLength isWordChar (drop gap rest)).
  assert (length rest = (length line - Z.to_nat col)%nat) as Hrest
    by (unfold rest; by rewrite length_drop).
  assert (gap + word <= length rest)%nat as Hsum.
  { pose proof (runLength_le (fun ch => negb (isWordChar ch)) rest).
    pose proof (runLength_le isWordChar (drop gap rest)) as H'.
    rewrite length_drop in H'. unfold word, gap in *. lia. }
  unfold len in *. split; [lia |]. intros Hlt.
  assert (0 < gap + word)%nat; [| lia].
  destruct rest as [| ch rest'] eqn:E; [cbn [length] in Hrest; lia |].
  unfold word, gap. cbn [runLength].
  destruct (isWordChar ch) eqn:Ech; cbn [negb drop runLength]; [| lia].
  rewrite Ech. lia.
Qed.

(** [MoveWordForward] never moves the cursor backward, and leaves it
    within the bound of the mode.  In Normal mode on a line that is not
    empty it stays on the line, and from the last character of the line
    it does not move at all, whether lines follow or not. *)
Theorem MoveWordForward_forward e :
  cursorInv e ->
  exists e',
    MoveWordForward e = Done e' /\
    posLe (cursor e) (cursor e') /\ cursorInv e' /\
    (mode e = ModeNormal -> 0 < lineLength (buffer e) (cursor e) ->
     Line (cursor e') = Line (cursor e) /\
     (Col (cursor e) = lineLength (buffer e) (cursor e) - 1 -> cursor e' = cursor e)).
Proof.
  intros Hinv. pose proof (cursorInv_inBuffer e Hinv) as [Hl Hc].
  unfold lineLength in *. unfold MoveWordForward.
  set (line := GetLine (buffer e) (Line (cursor e))) in *.
  assert ((if Col (cursor e) <? len line then slice_from line (Col (cursor e))
           else Done []) = Done (drop (Z.to_nat (Col (cursor e))) line)) as ->.
  { destruct (Col (cursor e) <? len line) eqn:E.
    - apply slice_from_in_range. lia.
    - apply Z.ltb_ge in E. rewrite drop_ge; [done |]. unfold len in *. lia. }
  cbn [bind]. rewrite wordForwardLoop_wordScan by lia.
  destruct (wordScan_bounds line (Col (cursor e)) Hc) as [Hscan Hmove].
  set (target := if _ && _ then _ else _).
  assert (0 <= Line target < LineCount (buffer e) /\ 0 <= Col target) as [Htl Htc]
    by (unfold target; destruct (_ && _) eqn:E; cbn [Line Col]; zcase; lia).
  set (e1 := with_cursor e target).
  pose proof (clampCursor_in_range e1 Htl Htc) as Hclamp.
  destruct (trackSelection_frame (clampCursor e1)) as (Hb & Hcur & Hm & _).
  eexists. split; [reflexivity |].
  assert (cursorInv (trackSelection (clampCursor e1))) as Hinv'
    by (apply reclamped_cursorInv; cbn; lia).
  split; [| split; [done |]].
  - rewrite Hcur, Hclamp. unfold posLe, colBound, lineLength. cbn [Line Col].
    cbn [e1 with_cursor cursor buffer mode].
    unfold cursorInv, colBound, lineLength in Hinv. fold line in Hinv.
    unfold target. destruct (_ && _) eqn:E; cbn [Line Col]; [left; lia |].
    right. split; [done |]. fold line.
    destruct (mode e); lia.
  - intros Hnormal Hlen.
    unfold cursorInv, colBound, lineLength in Hinv. fold line in Hinv.
    rewrite Hnormal in Hinv.
    assert (target = {| Line := Line (cursor e); Col := wordScan line (Col (cursor e)) |})
      as Htarget.
    { unfold target. destruct (_ =? _) eqn:E; [apply Z.eqb_eq in E; lia | done]. }
    rewrite Hcur, Hclamp. unfold colBound, lineLength.
    cbn [e1 with_cursor cursor buffer mode]. rewrite Htarget, Hnormal.
    cbn [Line Col]. fold line. split; [done |].
    intros Hlast. destruct (cursor e) as [l c]. cbn [Line Col] in *. f_equal. lia.
Qed.

Lemma MoveWordForward_forward_witness :
  exists e',
    MoveWordForward (editorOn [str "abc"; str "d"] (at_ 0 2) (NewSelection (at_ 0 2))
                              ModeNormal) = Done e' /\
    cursor e' = at_ 0 2.
Proof.
  destruct (MoveWordForward_forward
              (editorOn [str "abc"; str "d"] (at_ 0 2) (NewSelection (at_ 0 2)) ModeNormal))
    as (e' & H & _ & _ & Hstay).
  - unfold cursorInv, colBound, lineLength, LineCount. cbn. eval_len. lia.
  - exists e'. split; [exact H |].
    apply Hstay; [reflexivity | |]; unfold lineLength; cbn; eval_len; lia.
Defined.

(** The loops of [MoveWordBackward]: back over the spaces, then back
    to the nearest start of a word, or to column 0. *)
Lemma skipSpacesBack_spec line n m :
  skipSpacesBack line n = Done m ->
  (m <= n)%nat /\
  (forall i, (m < i <= n)%nat -> line !! i = Some " "%char) /\
  (m = O \/ line !! m <> Some " "%char).
Proof.
  revert m. induction n as [| n IH]; intros m H; cbn [skipSpacesBack] in H.
  - inversion H; subst. split; [lia | split; [intros; lia | by left]].
  - returned H. apply index_returned in Hr as [_ Hr].
    rewrite Nat2Z.id in Hr. destruct (Ascii.eqb r " ") eqn:E.
    + apply Ascii.eqb_eq in E. subst r.
      destruct (IH m H) as (Hle & Hsp & Hend).
      split; [lia |]. split; [| done].
      intros i Hi. destruct (decide (i = S n)) as [-> | Hne]; [done |].
      apply Hsp. lia.
    + apply Ascii.eqb_neq in E. inversion H; subst.
      split; [lia |]. split; [intros; lia |]. right. congruence.
Qed.

Lemma wordBackLoop_spec line n c :
  wordBackLoop line n = Done c ->
  (c <= n)%nat /\
  (forall i, (c < i <= n)%nat -> ~ wordStartsAt line i) /\
  (c = O \/ wordStartsAt line c).
Proof.
  revert c. induction n as [| n IH]; intros c H; cbn [wordBackLoop] in H.
  - inversion H; subst. split; [lia | split; [intros; lia | by left]].
  - returned H.
    apply index_returned in Hr as [_ Hr]. apply index_returned in Hr0 as [_ Hr0].
    replace (Z.to_nat (Z.of_nat (S n) - 1)) with n in Hr by lia.
    rewrite Nat2Z.id in Hr0.
    rewrite !isAlphaNum_isWordChar in H.
    destruct (negb (isWordChar r) && isWordChar r0) eqn:E.
    + inversion H; subst. apply andb_true_iff in E as [E1 E2].
      apply negb_true_iff in E1.
      split; [lia |]. split; [intros; lia |]. right.
      exists r, r0. replace (S n - 1)%nat with n by lia.
      repeat split; [lia | done | done | done | done].
    + destruct (IH c H) as (Hle & Hno & Hend).
      split; [lia |]. split; [| done].
      intros i Hi. destruct (decide (i = S n)) as [-> | Hne]; [| apply Hno; lia].
      intros (prev & cur & _ & Hprev & Hcur & Hp & Hc).
      replace (S n - 1)%nat with n in Hprev by lia.
      rewrite Hr in Hprev. rewrite Hr0 in Hcur. inversion Hprev; inversion Hcur; subst.
      by rewrite Hp, Hc in E.
Qed.

(** [MoveWordBackward] from a cursor inside the buffer.  At the start
    of the buffer it stays; at the start of another line it goes to the
    last position the mode allows on the line before.  Otherwise it
    goes back from the column before the cursor: over the spaces
    there, then to the nearest start of a word at or before that
    place, or to column 0.  It moves the cursor strictly backward
    unless at the start of the buffer, and touches neither the buffer
    nor the mode. *)
Theorem MoveWordBackward_lands e :
  inBuffer (buffer e) (cursor e) -> Col (cursor e) < 2 ^ 63 ->
  let line := GetLine (buffer e) (Line (cursor e)) in
  exists e',
    MoveWordBackward e = Done e' /\ buffer e' = buffer e /\ mode e' = mode e /\
    (Col (cursor e) = 0 -> Line (cursor e) = 0 -> cursor e' = cursor e) /\
    (Col (cursor e) = 0 -> 0 < Line (cursor e) ->
     Line (cursor e') = Line (cursor e) - 1 /\ Col (cursor e') = colBound e') /\
    (0 < Col (cursor e) ->
     exists m c : nat,
       cursor e' = {| Line := Line (cursor e); Col := Z.of_nat c |} /\
       (c <= m)%nat /\ Z.of_nat m <= Col (cursor e) - 1 /\
       (forall i, (m < i)%nat -> Z.of_nat i <= Col (cursor e) - 1 ->
                  line !! i = Some " "%char) /\
       (m = O \/ line !! m <> Some " "%char) /\
       (forall i, (c < i <= m)%nat -> ~ wordStartsAt line i) /\
       (c = O \/ wordStartsAt line c)) /\
    (posLt (cursor e') (cursor e) \/ cursor e = {| Line := 0; Col := 0 |}).
Proof.
  intros [Hl Hc] Hfit line. unfold lineLength in Hc. fold line in Hc.
  assert (forall target,
            0 <= Line target < LineCount (buffer e) -> 0 <= Col target ->
            let e' := trackSelection (clampCursor (with_cursor e target)) in
            buffer e' = buffer e /\ mode e' = mode e /\
            cursor e' = {| Line := Line target;
                           Col := Z.min (Col target) (colBound (with_cursor e target)) |})
    as Hland.
  { intros target Htl Htc e'.
    destruct (trackSelection_frame (clampCursor (with_cursor e target)))
      as (Hb & Hcur & Hm & _).
    unfold e'. rewrite Hb, Hm, Hcur. split; [done |]. split; [done |].
    by rewrite clampCursor_in_range. }
  unfold MoveWordBackward.
  destruct (Col (cursor e) =? 0) eqn:E0.
  - apply Z.eqb_eq in E0. destruct (Line (cursor e) >? 0) eqn:E1.
    + (* the end of the line before *)
      assert (0 < Line (cursor e)) as Hpos by (zcase; lia).
      cbn [bind]. set (target := {| Line := Line (cursor e) - 1; Col := _ |}).
      destruct (Hland target) as (Hb & Hm & Hcur).
      { unfold target. cbn [Line]. lia. }
      { unfold target. cbn [Col]. apply len_nonneg. }
      eexists. split; [reflexivity |]. split; [done |]. split; [done |].
      rewrite Hcur. cbn [Line Col target].
      assert (colBound (trackSelection (clampCursor (with_cursor e target)))
              = colBound (with_cursor e target)) as Hbound.
      { unfold colBound, lineLength. by rewrite Hb, Hm, Hcur. }
      split; [intros; lia |]. split; [| split; [intros; lia | left; left; cbn; lia]].
      intros _ _. split; [done |]. rewrite Hbound.
      unfold colBound, lineLength. cbn [with_cursor cursor buffer mode target Line].
      pose proof (len_nonneg (GetLine (buffer e) (Line (cursor e) - 1))).
      destruct (mode e); lia.
    + (* the start of the buffer *)
      assert (Line (cursor e) = 0) as Hzero by (zcase; lia).
      cbn [bind]. destruct (Hland (cursor e)) as (Hb & Hm & Hcur); [done | lia |].
      rewrite with_cursor_same in Hb, Hm, Hcur.
      eexists. split; [reflexivity |]. split; [done |]. split; [done |].
      assert (0 <= colBound e) as Hbound.
      { unfold colBound, lineLength.
        pose proof (len_nonneg (GetLine (buffer e) (Line (cursor e)))).
        destruct (mode e); lia. }
      assert (cursor (trackSelection (clampCursor e)) = cursor e) as Hstay.
      { rewrite Hcur. destruct (cursor e) as [l c]. cbn [Line Col] in *. subst.
        f_equal. lia. }
      split; [done |]. split; [intros; lia |]. split; [intros; lia |].
      right. destruct (cursor e) as [l c]. cbn [Line Col] in *. by subst.
  - apply Z.eqb_neq in E0. rewrite wrap64_fits by lia. fold line.
    assert (exists m c : nat,
              (if Col (cursor e) - 1 >? 0
               then c1 <- skipSpacesBack line (Z.to_nat (Col (cursor e) - 1)) ;;
                    c2 <- wordBackLoop line c1 ;; Done (Z.of_nat c2)
               else Done (Col (cursor e) - 1)) = Done (Z.of_nat c) /\
              (c <= m)%nat /\ Z.of_nat m <= Col (cursor e) - 1 /\
              (forall i, (m < i)%nat -> Z.of_nat i <= Col (cursor e) - 1 ->
                         line !! i = Some " "%char) /\
              (m = O \/ line !! m <> Some " "%char) /\
              (forall i, (c < i <= m)%nat -> ~ wordStartsAt line i) /\
              (c = O \/ wordStartsAt line c)) as (m & c & -> & Hcm & Hm & Hsp & Hend & Hno & Hst).
    { destruct (Col (cursor e) - 1 >? 0) eqn:E1.
      - destruct (skipSpacesBack_returns line (Z.to_nat (Col (cursor e) - 1)))
          as (m & Hskip & Hmle); [lia |].
        destruct (wordBackLoop_returns line m) as (c & Hback & Hcle); [lia |].
        rewrite Hskip. cbn [bind]. rewrite Hback. cbn [bind].
        destruct (skipSpacesBack_spec _ _ _ Hskip) as (_ & Hsp & Hend).
        destruct (wordBackLoop_spec _ _ _ Hback) as (_ & Hno & Hst).
        exists m, c. split; [done |]. split; [done |]. split; [lia |].
        split; [intros i ? ?; apply Hsp; lia | done].
      - exists O, O. assert (Col (cursor e) - 1 = 0) as -> by (zcase; lia).
        split; [done |]. split; [done |]. split; [done |].
        split; [intros; lia |]. split; [by left |]. split; [intros; lia | by left]. }
    cbn [bind]. set (target := {| Line := Line (cursor e); Col := Z.of_nat c |}).
    destruct (Hland target) as (Hb & Hmode & Hcur);
      [unfold target; cbn; lia | unfold target; cbn; lia |].
    eexists. split; [reflexivity |]. split; [done |]. split; [done |].
    assert (cursor (trackSelection (clampCursor (with_cursor e target))) = target) as Hat.
    { rewrite Hcur. unfold target. cbn [Line Col]. f_equal.
      unfold colBound, lineLength. cbn [with_cursor cursor buffer mode Line].
      fold line. destruct (mode e); lia. }
    split; [intros; lia |]. split; [intros; lia |]. split.
    + intros _. exists m, c. by rewrite Hat.
    + left. rewrite Hat. right. unfold target. cbn [Line Col]. lia.
Qed.

Lemma MoveWordBackward_lands_witness :
  exists e',
    MoveWordBackward (editorOn [str "ab  cd"] (at_ 0 4) (NewSelection (at_ 0 4)) ModeNormal)
    = Done e' /\
    posLt (cursor e') (at_ 0 4).
Proof.
  destruct (MoveWordBackward_lands
              (editorOn [str "ab  cd"] (at_ 0 4) (NewSelection (at_ 0 4)) ModeNormal))
    as (e' & H & _ & _ & _ & _ & _ & [Hback | Horigin]).
  - unfold inBuffer, lineLength, LineCount. cbn. eval_len. lia.
  - cbn. lia.
  - exists e'. split; [exact H | exact Hback].
  - discriminate Horigin.
Defined.

(** * The word at the cursor *)

Lemma runLength_all p s i :
  (i < runLength p s)%nat -> exists ch, s !! i = Some ch /\ p ch = true.
Proof.
  revert i. induction s as [| c s IH]; intros i; cbn [runLength]; [lia |].
  destruct (p c) eqn:E; [| lia]. destruct i as [| i]; [eauto |].
  intros Hi. apply IH. lia.
Qed.

Lemma runLength_stop p s :
  runLength p s = length s \/
  exists ch, s !! runLength p s = Some ch /\ p ch = false.
Proof.
  induction s as [| c s IH]; cbn [runLength]; [by left |].
  destruct (p c) eqn:E; [| right; eauto].
  destruct IH as [-> | IH]; [by left | by right].
Qed.

Lemma wordEnd_runLength rest end_ :
  wordEnd rest end_ = end_ + Z.of_nat (runLength isAlphaNum rest).
Proof.
  revert end_. induction rest as [| ch rest IH]; intros end_; cbn; [lia |].
  destruct (isAlphaNum ch); [rewrite IH |]; lia.
Qed.

Lemma wordStart_spec line n s :
  wordStart line n = Done s ->
  (s <= n)%nat /\
  (forall i, (s <= i < n)%nat -> exists ch, line !! i = Some ch /\ isWordChar ch = true) /\
  (s = O \/ exists ch, line !! (s - 1)%nat = Some ch /\ isWordChar ch = false).
Proof.
  revert s. induction n as [| n IH]; intros s H; cbn [wordStart] in H.
  - inversion H; subst. split; [lia | split; [intros; lia | by left]].
  - returned H. apply index_returned in Hr as [_ Hr].
    replace (Z.to_nat (Z.of_nat (S n) - 1)) with n in Hr by lia.
    rewrite isAlphaNum_isWordChar in H. destruct (isWordChar r) eqn:E.
    + destruct (IH s H) as (Hle & Hall & Hstop).
      split; [lia |]. split; [| done].
      intros i Hi. destruct (decide (i = n)) as [-> | Hne]; [eauto |].
      apply Hall. lia.
    + inversion H; subst. split; [lia |]. split; [intros; lia |].
      right. exists r. by replace (S n - 1)%nat with n by lia.
Qed.

(** [SelectWord] with the cursor on a word character selects the word
    around it: the longest run of word characters that holds the
    cursor, from its first character up to and excluding the character
    after its last; the cursor goes to that end.  With the cursor past
    the line or on any other character it does nothing. *)
Theorem SelectWord_word e :
  inBuffer (buffer e) (cursor e) ->
  let line := GetLine (buffer e) (Line (cursor e)) in
  let col := Z.to_nat (Col (cursor e)) in
  (forall ch, line !! col = Some ch -> isWordChar ch = true ->
     exists e' (s n : nat),
       SelectWord e = Done e' /\
       selection e' = {| Anchor := {| Line := Line (cursor e); Col := Z.of_nat s |};
                         Head := {| Line := Line (cursor e); Col := Z.of_nat n |} |} /\
       cursor e' = {| Line := Line (cursor e); Col := Z.of_nat n |} /\
       buffer e' = buffer e /\ mode e' = mode e /\
       (s <= col < n)%nat /\ (n <= length line)%nat /\
       (forall i, (s <= i < n)%nat ->
                  exists c, line !! i = Some c /\ isWordChar c = true) /\
       (s = O \/ exists c, line !! (s - 1)%nat = Some c /\ isWordChar c = false) /\
       (n = length line \/ exists c, line !! n = Some c /\ isWordChar c = false)) /\
  ((line !! col = None \/ exists ch, line !! col = Some ch /\ isWordChar ch = false) ->
   SelectWord e = Done e).
Proof.
  intros [Hl Hc] line col. unfold lineLength in Hc. fold line in Hc.
  unfold SelectWord. fold line. split.
  - intros ch Hch Hword.
    assert (Col (cursor e) < len line) as Hlt.
    { apply lookup_lt_Some in Hch. unfold len, col in *. lia. }
    destruct (Col (cursor e) >=? len line) eqn:E; [zcase; lia |]. clear E.
    rewrite (index_lookup line (Col (cursor e)) ch) by (done || lia). cbn [bind].
    rewrite isAlphaNum_isWordChar, Hword. cbn [negb].
    destruct (wordStart_returns line col) as [s Hs]; [unfold col; lia |].
    fold col. rewrite Hs. cbn [bind].
    rewrite slice_from_in_range by lia. cbn [bind]. fold col.
    rewrite wordEnd_runLength.
    set (rest := drop col line).
    set (run := runLength isAlphaNum rest).
    destruct (wordStart_spec _ _ _ Hs) as (Hsle & Hsall & Hsstop).
    assert (forall i, rest !! i = line !! (col + i)%nat) as Hrest
      by (intros i; unfold rest; by rewrite lookup_drop).
    assert (0 < run)%nat as Hrun.
    { unfold run. destruct rest as [| c rest'] eqn:Er.
      - specialize (Hrest O). rewrite Nat.add_0_r, Hch in Hrest. done.
      - specialize (Hrest O). rewrite Nat.add_0_r, Hch in Hrest. cbn in Hrest.
        inversion Hrest; subst c. cbn [runLength].
        rewrite isAlphaNum_isWordChar, Hword. lia. }
    assert (run <= length rest)%nat as Hrunle by apply runLength_le.
    assert (length rest = (length line - col)%nat) as Hlen
      by (unfold rest; by rewrite length_drop).
    exists (with_cursor
              (with_selection e
                 {| Anchor := {| Line := Line (cursor e); Col := Z.of_nat s |};
                    Head := {| Line := Line (cursor e);
                               Col := Col (cursor e) + Z.of_nat run |} |})
              {| Line := Line (cursor e); Col := Col (cursor e) + Z.of_nat run |}),
      s, (col + run)%nat.
    replace (Z.of_nat (col + run)) with (Col (cursor e) + Z.of_nat run)
      by (unfold col; lia).
    split; [done |]. split; [done |]. split; [done |]. split; [done |]. split; [done |].
    split; [lia |]. split; [unfold len in *; lia |]. split; [| split; [done |]].
    + intros i Hi. destruct (decide (i < col)%nat) as [Hbefore | Hafter].
      * apply Hsall. lia.
      * destruct (runLength_all isAlphaNum rest (i - col)) as (c & Hci & Hcw);
          [unfold run in *; lia |].
        rewrite Hrest in Hci. replace (col + (i - col))%nat with i in Hci by lia.
        exists c. by rewrite <- isAlphaNum_isWordChar.
    + destruct (runLength_stop isAlphaNum rest) as [Hall | (c & Hci & Hcw)].
      * left. unfold run. rewrite Hall. unfold len in *. lia.
      * right. rewrite Hrest in Hci. exists c. by rewrite <- isAlphaNum_isWordChar.
  - intros [Hnone | (ch & Hch & Hword)].
    + apply lookup_ge_None in Hnone.
      destruct (Col (cursor e) >=? len line) eqn:E; [done |].
      exfalso. unfold len, col in *. zcase; lia.
    + assert (Col (cursor e) < len line) as Hlt.
      { apply lookup_lt_Some in Hch. unfold len, col in *. lia. }
      destruct (Col (cursor e) >=? len line) eqn:E; [done |].
      rewrite (index_lookup line (Col (cursor e)) ch) by (done || lia). cbn [bind].
      by rewrite isAlphaNum_isWordChar, Hword.
Qed.

Lemma SelectWord_word_witness :
  exists e',
    SelectWord (editorOn [str "ab cd_1 e"] (at_ 0 4) (NewSelection (at_ 0 4)) ModeNormal)
    = Done e' /\
    selection e' = {| Anchor := at_ 0 3; Head := at_ 0 7 |}.
Proof.
  destruct (SelectWord_word
              (editorOn [str "ab cd_1 e"] (at_ 0 4) (NewSelection (at_ 0 4)) ModeNormal))
    as [Hword _].
  - unfold inBuffer, lineLength, LineCount. cbn. eval_len. lia.
  - destruct (Hword "d"%char eq_refl eq_refl) as (e' & s & n & H & _).
    exists e'. split; [exact H |].
    vm_compute in H. by inversion H.
Defined.
